(** * BaseTrackerPredictor: the iterative track-refinement engine

    A shallow embedding of
    [vggsfm/models/track_modules/base_track_predictor.py].

    Conventions of the embedding.
    - Python integers are [Z]; Python numbers used as scale factors
      ([stride], [down_ratio]) are rationals [Q]; tensor sizes are [nat].
    - A tensor is its shape together with its entry function; tensor
      entries are real numbers, so rounding is not part of the model.
    - A Python exception is a value [Err e] of the result type; every
      operation that PyTorch or einops checks at run time is checked
      here, in the order of the source.
    - The collaborators that live in other files of the repository
      ([blocks.py], [utils.py]) are the fields of the record
      [externals]; learned parameters are the fields of [learned]. *)

From Stdlib Require Import List Arith ZArith QArith Bool Lia.
From Stdlib Require Import Reals Lra Qreals.
Import ListNotations.

Set Implicit Arguments.

Close Scope Q_scope.
Close Scope R_scope.
Close Scope Z_scope.
Open Scope nat_scope.

(** ** Exceptions *)

Inductive exn : Type :=
| ValueError
| AssertionError
| IndexError
| RuntimeError
| AttributeError
| EinopsError
| ZeroDivisionError.

Inductive result (A : Type) : Type :=
| Ok (a : A)
| Err (e : exn).

Arguments Ok {A} a.
Arguments Err {A} e.

Definition bind {A B : Type} (c : result A) (k : A -> result B) : result B :=
  match c with
  | Ok a => k a
  | Err e => Err e
  end.

Declare Scope py_scope.
Delimit Scope py_scope with py.
Notation "x <- c ;; k" := (bind c (fun x => k))
  (at level 61, c at next level, right associativity) : py_scope.
Notation "' pat <- c ;; k" := (bind c (fun x => match x with pat => k end))
  (at level 61, pat pattern, c at next level, right associativity) : py_scope.
Open Scope py_scope.

Definition succeeds {A : Type} (c : result A) : Prop := exists a, c = Ok a.

(** ** Tensors *)

Record tensor : Type := mkTensor {
  shape : list nat;
  entry : list nat -> R
}.

Definition rank (t : tensor) : nat := length (shape t).

Definition numel (s : list nat) : nat := fold_right Nat.mul 1 s.

(** Row-major position of a multi-index, and back. *)
Fixpoint ravel (s idx : list nat) : nat :=
  match s, idx with
  | _ :: s', i :: idx' => i * numel s' + ravel s' idx'
  | _, _ => 0
  end.

Fixpoint unravel (s : list nat) (k : nat) : list nat :=
  match s with
  | [] => []
  | _ :: s' => k / numel s' :: unravel s' (k mod numel s')
  end.

Fixpoint in_range (s idx : list nat) : Prop :=
  match s, idx with
  | [], [] => True
  | d :: s', i :: idx' => i < d /\ in_range s' idx'
  | _, _ => False
  end.

Fixpoint shape_eqb (a b : list nat) : bool :=
  match a, b with
  | [], [] => true
  | x :: a', y :: b' => (x =? y) && shape_eqb a' b'
  | _, _ => false
  end.

Fixpoint set_nth {A : Type} (k : nat) (x : A) (l : list A) : list A :=
  match l, k with
  | [], _ => []
  | _ :: l', 0 => x :: l'
  | y :: l', S k' => y :: set_nth k' x l'
  end.

Definition remove_at {A : Type} (k : nat) (l : list A) : list A :=
  firstn k l ++ skipn (S k) l.

Definition insert_at {A : Type} (k : nat) (x : A) (l : list A) : list A :=
  firstn k l ++ x :: skipn k l.

Fixpoint zip_with {A B C : Type} (f : A -> B -> C) (l : list A) (m : list B)
  : list C :=
  match l, m with
  | a :: l', b :: m' => f a b :: zip_with f l' m'
  | _, _ => []
  end.

Fixpoint index_of (k : nat) (l : list nat) : nat :=
  match l with
  | [] => 0
  | x :: l' => if x =? k then 0 else S (index_of k l')
  end.

(** *** Elementwise operations (never raise) *)

Definition map_entries (f : R -> R) (t : tensor) : tensor :=
  mkTensor (shape t) (fun idx => f (entry t idx)).

(** [t / x] and [t * x] for a Python number [x]. *)
Definition div_scalar (t : tensor) (x : R) : tensor :=
  map_entries (fun v => (v / x)%R) t.

Definition mul_scalar (t : tensor) (x : R) : tensor :=
  map_entries (fun v => (v * x)%R) t.

Definition zeros_like (t : tensor) : tensor :=
  mkTensor (shape t) (fun _ => 0%R).

(** [t.clone()], [t.detach()], [t.to(device)]: the value is unchanged. *)
Definition clone (t : tensor) : tensor := t.
Definition detach (t : tensor) : tensor := t.

Definition logistic (v : R) : R := (1 / (1 + exp (- v)))%R.

(** [torch.sigmoid] *)
Definition sigmoid (t : tensor) : tensor := map_entries logistic t.

(** *** Shape-changing operations *)

(** [t.reshape(s)] *)
Definition reshape_raw (t : tensor) (s : list nat) : tensor :=
  mkTensor s (fun idx => entry t (unravel (shape t) (ravel s idx))).

Definition reshape (t : tensor) (s : list nat) : result tensor :=
  if numel (shape t) =? numel s then Ok (reshape_raw t s)
  else Err RuntimeError.

(** [t.permute(dims)] *)
Definition is_perm (dims : list nat) : bool :=
  forallb (fun k => existsb (Nat.eqb k) dims) (seq 0 (length dims)).

Definition permute_raw (t : tensor) (dims : list nat) : tensor :=
  mkTensor (map (fun d => nth d (shape t) 0) dims)
           (fun idx => entry t (map (fun k => nth (index_of k dims) idx 0)
                                    (seq 0 (length dims)))).

Definition permute (t : tensor) (dims : list nat) : result tensor :=
  if (length dims =? rank t) && is_perm dims then Ok (permute_raw t dims)
  else Err RuntimeError.

(** [t[:, i]] for [dim = 1]; in general the integer index [i] at [dim]. *)
Definition select_raw (t : tensor) (dim i : nat) : tensor :=
  mkTensor (remove_at dim (shape t))
           (fun idx => entry t (insert_at dim i idx)).

Definition select (t : tensor) (dim i : nat) : result tensor :=
  if (dim <? rank t) && (i <? nth dim (shape t) 0) then Ok (select_raw t dim i)
  else Err IndexError.

(** [t[..., a:b]] at [dim]; [None] is an omitted bound.  Python clamps
    the bounds of a slice to the size, so only the rank can be wrong. *)
Definition slice_raw (t : tensor) (dim : nat) (a : nat) (b : option nat)
  : tensor :=
  let n := nth dim (shape t) 0 in
  let lo := Nat.min a n in
  let hi := match b with Some b' => Nat.min b' n | None => n end in
  mkTensor (set_nth dim (hi - lo) (shape t))
           (fun idx => entry t (set_nth dim (nth dim idx 0 + lo) idx)).

Definition slice (t : tensor) (dim : nat) (a : nat) (b : option nat)
  : result tensor :=
  if dim <? rank t then Ok (slice_raw t dim a b) else Err IndexError.

(** [t.unsqueeze(dim)] *)
Definition unsqueeze_raw (t : tensor) (dim : nat) : tensor :=
  mkTensor (insert_at dim 1 (shape t))
           (fun idx => entry t (remove_at dim idx)).

Definition unsqueeze (t : tensor) (dim : nat) : result tensor :=
  if dim <=? rank t then Ok (unsqueeze_raw t dim) else Err IndexError.

(** [t.repeat(reps)] *)
Definition repeat_raw (t : tensor) (reps : list nat) : tensor :=
  let pad := length reps - rank t in
  let s := List.repeat 1 pad ++ shape t in
  mkTensor (zip_with Nat.mul reps s)
           (fun idx => entry t (skipn pad (zip_with Nat.modulo idx s))).

Definition repeat (t : tensor) (reps : list nat) : result tensor :=
  if rank t <=? length reps then Ok (repeat_raw t reps) else Err RuntimeError.

(** [t.expand(sizes)], [None] standing for [-1]. *)
Definition expand_dim (d : nat) (k : option nat) : option nat :=
  match k with
  | None => Some d
  | Some k' => if (d =? k') || (d =? 1) then Some k' else None
  end.

Fixpoint expand_shape (s : list nat) (sizes : list (option nat))
  : option (list nat) :=
  match s, sizes with
  | [], [] => Some []
  | d :: s', k :: sizes' =>
      match expand_dim d k, expand_shape s' sizes' with
      | Some d', Some r => Some (d' :: r)
      | _, _ => None
      end
  | _, _ => None
  end.

Definition stretch_index (s idx : list nat) : list nat :=
  zip_with (fun d i => if d =? 1 then 0 else i) s idx.

Definition expand_raw (t : tensor) (s : list nat) : tensor :=
  mkTensor s (fun idx => entry t (stretch_index (shape t) idx)).

Definition expand (t : tensor) (sizes : list (option nat)) : result tensor :=
  match expand_shape (shape t) sizes with
  | Some s => Ok (expand_raw t s)
  | None => Err RuntimeError
  end.

(** *** Broadcasting binary operations *)

Definition bdim (x y : nat) : option nat :=
  if x =? y then Some x
  else if y =? 1 then Some x
  else if x =? 1 then Some y
  else None.

(** Shapes are aligned at their last dimension, hence the reversed lists. *)
Fixpoint broadcast_rev (a b : list nat) : option (list nat) :=
  match a, b with
  | [], _ => Some b
  | _, [] => Some a
  | x :: a', y :: b' =>
      match bdim x y, broadcast_rev a' b' with
      | Some d, Some r => Some (d :: r)
      | _, _ => None
      end
  end.

Definition broadcast_shapes (a b : list nat) : option (list nat) :=
  option_map (@rev nat) (broadcast_rev (rev a) (rev b)).

Definition bcast_index (s idx : list nat) : list nat :=
  stretch_index s (skipn (length idx - length s) idx).

Definition binop_raw (f : R -> R -> R) (s : list nat) (a b : tensor)
  : tensor :=
  mkTensor s (fun idx => f (entry a (bcast_index (shape a) idx))
                           (entry b (bcast_index (shape b) idx))).

Definition binop (f : R -> R -> R) (a b : tensor) : result tensor :=
  match broadcast_shapes (shape a) (shape b) with
  | Some s => Ok (binop_raw f s a b)
  | None => Err RuntimeError
  end.

Definition add : tensor -> tensor -> result tensor := binop Rplus.
Definition sub : tensor -> tensor -> result tensor := binop Rminus.

(** [t[:, i] = v] for [dim = 1]: the value is broadcast to the selected
    view, the other entries of [t] stay. *)
Definition setitem_raw (t : tensor) (dim i : nat) (v : tensor) : tensor :=
  mkTensor (shape t)
    (fun idx => if nth dim idx 0 =? i
                then entry v (bcast_index (shape v) (remove_at dim idx))
                else entry t idx).

Definition setitem_select (t : tensor) (dim i : nat) (v : tensor)
  : result tensor :=
  view <- select t dim i;;
  match broadcast_shapes (shape view) (shape v) with
  | Some s =>
      if shape_eqb s (shape view) then Ok (setitem_raw t dim i v)
      else Err RuntimeError
  | None => Err RuntimeError
  end.

(** *** Concatenation *)

(** A Python dimension argument may be negative. *)
Definition norm_dim (r : nat) (d : Z) : option nat :=
  if (0 <=? d)%Z then
    if (d <? Z.of_nat r)%Z then Some (Z.to_nat d) else None
  else
    if (- Z.of_nat r <=? d)%Z then Some (Z.to_nat (Z.of_nat r + d)) else None.

Definition cat2_raw (dim : nat) (a b : tensor) : tensor :=
  let na := nth dim (shape a) 0 in
  mkTensor (set_nth dim (na + nth dim (shape b) 0) (shape a))
           (fun idx => if nth dim idx 0 <? na then entry a idx
                       else entry b (set_nth dim (nth dim idx 0 - na) idx)).

Definition cat2 (dim : Z) (a b : tensor) : result tensor :=
  match norm_dim (rank a) dim with
  | Some d =>
      if shape_eqb (set_nth d 0 (shape a)) (set_nth d 0 (shape b))
      then Ok (cat2_raw d a b)
      else Err RuntimeError
  | None => Err IndexError
  end.

(** [torch.cat(ts, dim)] *)
Fixpoint cat_from (acc : tensor) (ts : list tensor) (dim : Z) : result tensor :=
  match ts with
  | [] => Ok acc
  | t :: ts' => acc' <- cat2 dim acc t;; cat_from acc' ts' dim
  end.

Definition cat (ts : list tensor) (dim : Z) : result tensor :=
  match ts with
  | [] => Err RuntimeError
  | t :: ts' => cat_from t ts' dim
  end.

(** *** The three einops patterns of the source *)

(** [rearrange(t, "b n c -> (b n) c")] *)
Definition rearrange_bn_c (t : tensor) : result tensor :=
  match shape t with
  | [b; n; c] => reshape t [b * n; c]
  | _ => Err EinopsError
  end.

(** [rearrange(t, "(b n) s d -> b n s d", b=B)] *)
Definition rearrange_split_b (t : tensor) (B : nat) : result tensor :=
  match shape t with
  | [bn; s; d] =>
      if B =? 0 then Err ZeroDivisionError
      else if bn mod B =? 0 then reshape t [B; bn / B; s; d]
      else Err EinopsError
  | _ => Err EinopsError
  end.

(** [rearrange(t, "b n s d -> (b n) s d", b=B)] *)
Definition rearrange_merge_b (t : tensor) (B : nat) : result tensor :=
  match shape t with
  | [b; n; s; d] =>
      if b =? B then reshape t [b * n; s; d] else Err EinopsError
  | _ => Err EinopsError
  end.

(** ** Layers of [torch.nn] *)

Fixpoint sum_upto (n : nat) (f : nat -> R) : R :=
  match n with
  | 0 => 0%R
  | S k => (sum_upto k f + f k)%R
  end.

Record Linear : Type := mkLinear {
  in_features : nat;
  out_features : nat;
  weight : nat -> nat -> R;
  bias : nat -> R
}.

(** [nn.Linear(i, o)]: allocating a parameter of negative size raises. *)
Definition nn_Linear (i o : Z) (w : nat -> nat -> R) (b : nat -> R)
  : result Linear :=
  if (i <? 0)%Z || (o <? 0)%Z then Err RuntimeError
  else Ok (mkLinear (Z.to_nat i) (Z.to_nat o) w b).

(** [y[.., j] = sum_i x[.., i] * weight[j, i] + bias[j]] *)
Definition apply_linear (l : Linear) (x : tensor) : result tensor :=
  match shape x with
  | [] => Err RuntimeError
  | _ :: _ =>
      if last (shape x) 0 =? in_features l then
        Ok (mkTensor (removelast (shape x) ++ [out_features l])
              (fun idx =>
                 let row := removelast idx in
                 let j := last idx 0 in
                 (sum_upto (in_features l)
                    (fun i => entry x (row ++ [i]) * weight l j i)
                  + bias l j)%R))
      else Err RuntimeError
  end.

(** [nn.GELU()], on the error function [erf] that the caller supplies. *)
Definition gelu (erf : R -> R) (v : R) : R :=
  (v * (1 + erf (v / sqrt 2)) / 2)%R.

Record GroupNorm : Type := mkGroupNorm {
  num_groups : nat;
  num_channels : nat;
  eps : R;
  gn_weight : nat -> R;
  gn_bias : nat -> R
}.

(** [nn.GroupNorm(g, c)] *)
Definition nn_GroupNorm (g c : Z) (w b : nat -> R) : result GroupNorm :=
  if (g =? 0)%Z then Err ZeroDivisionError
  else if negb (c mod g =? 0)%Z then Err ValueError
  else if (c <? 0)%Z then Err RuntimeError
  else Ok (mkGroupNorm (Z.to_nat g) (Z.to_nat c) (1 / 100000)%R w b).

(** Statistics of the group of channel [c] in row [r] of a 2-D input:
    the group has [k = num_channels / num_groups] channels and starts at
    channel [c / k * k]. *)
Definition group_member (g : GroupNorm) (r c j : nat) : list nat :=
  let k := num_channels g / num_groups g in
  [r; c / k * k + j].

Definition group_mean (g : GroupNorm) (x : tensor) (r c : nat) : R :=
  let k := num_channels g / num_groups g in
  (sum_upto k (fun j => entry x (group_member g r c j)) / INR k)%R.

Definition group_var (g : GroupNorm) (x : tensor) (r c : nat) : R :=
  let k := num_channels g / num_groups g in
  let m := group_mean g x r c in
  (sum_upto k (fun j => (entry x (group_member g r c j) - m)
                        * (entry x (group_member g r c j) - m)) / INR k)%R.

Definition group_norm_entry (g : GroupNorm) (x : tensor) (r c : nat) : R :=
  ((entry x (r :: c :: nil) - group_mean g x r c)
   / sqrt (group_var g x r c + eps g) * gn_weight g c + gn_bias g c)%R.

(** The forward pass of [nn.GroupNorm] on the 2-D inputs [(rows, channels)]
    that [forward] gives it.  [F.group_norm] refuses an input with a single
    value per group over the whole batch. *)
Definition apply_group_norm (g : GroupNorm) (x : tensor) : result tensor :=
  match shape x with
  | [m; c] =>
      if m * c / num_groups g =? 1 then Err ValueError
      else if c =? num_channels g then
        Ok (mkTensor [m; c]
              (fun idx => group_norm_entry g x (nth 0 idx 0) (nth 1 idx 0)))
      else Err RuntimeError
  | _ => Err RuntimeError
  end.

(** [nn.Sequential] of the two kinds of layer that the module uses. *)
Inductive layer : Type :=
| LinearLayer (l : Linear)
| GELULayer.

Definition apply_layer (erf : R -> R) (ly : layer) (x : tensor)
  : result tensor :=
  match ly with
  | LinearLayer l => apply_linear l x
  | GELULayer => Ok (map_entries (gelu erf) x)
  end.

Fixpoint apply_sequential (erf : R -> R) (ls : list layer) (x : tensor)
  : result tensor :=
  match ls with
  | [] => Ok x
  | ly :: ls' => y <- apply_layer erf ly x;; apply_sequential erf ls' y
  end.

(** ** Collaborators and learned parameters *)

(** What [forward] and [__init__] import from [blocks.py] and [utils.py],
    and the error function behind [nn.GELU].  A correlation block is an
    object with state: its constructor and its methods pass the handle. *)
Record externals : Type := mkExternals {
  corr_block : Type;
  efficient_corr_block : Type;
  (** [EfficientUpdateFormer(space_depth, time_depth, input_dim,
      hidden_size, output_dim, mlp_ratio, add_space_attn)] *)
  EfficientUpdateFormer :
    Z -> Z -> Z -> Z -> Z -> Q -> bool -> result (tensor -> result tensor);
  (** [CorrBlock(fmaps, num_levels, radius)], [.corr(track_feats)],
      [.sample(coords)] *)
  CorrBlock : tensor -> Z -> Z -> result corr_block;
  CorrBlock_corr : corr_block -> tensor -> result corr_block;
  CorrBlock_sample : corr_block -> tensor -> result tensor;
  (** [EfficientCorrBlock(fmaps, num_levels, radius)],
      [.sample(coords, track_feats)] *)
  EfficientCorrBlock : tensor -> Z -> Z -> result efficient_corr_block;
  EfficientCorrBlock_sample :
    efficient_corr_block -> tensor -> tensor -> result tensor;
  (** [sample_features4d(input, coords)] *)
  sample_features4d : tensor -> tensor -> result tensor;
  (** [get_2d_embedding(xy, C, cat_coords)] *)
  get_2d_embedding : tensor -> Z -> bool -> result tensor;
  (** [get_2d_sincos_pos_embed(embed_dim, grid_size)] *)
  get_2d_sincos_pos_embed : Z -> nat * nat -> result tensor;
  erf : R -> R
}.

(** The values of the parameters that the constructors of [torch.nn]
    allocate (freshly initialised, or loaded from a checkpoint). *)
Record learned : Type := mkLearned {
  norm_weight : nat -> R;
  norm_bias : nat -> R;
  ffeat_weight : nat -> nat -> R;
  ffeat_bias : nat -> R;
  vis_weight : nat -> nat -> R;
  vis_bias : nat -> R
}.

(** [cfg.MODEL.TRACK.efficient_corr] is the one option read from [cfg]. *)
Record Cfg : Type := mkCfg {
  MODEL_TRACK_efficient_corr : bool
}.

(** ** The module *)

Record BaseTrackerPredictor : Type := mkBaseTrackerPredictor {
  cfg : option Cfg;
  stride : Q;
  latent_dim : Z;
  corr_levels : Z;
  corr_radius : Z;
  hidden_size : Z;
  fine : bool;
  flows_emb_dim : Z;
  transformer_dim : Z;
  efficient_corr : bool;
  updateformer : tensor -> result tensor;
  norm : GroupNorm;
  ffeat_updater : list layer;
  vis_predictor : option (list layer)
}.

(** The width before padding: line 45 of the source. *)
Definition unpadded_dim (corr_levels corr_radius latent_dim : Z) : Z :=
  (corr_levels * (corr_radius * 2 + 1) ^ 2 + latent_dim * 2)%Z.

(** The padding rule: lines 49 to 53. *)
Definition pad_transformer_dim (fine : bool) (transformer_dim : Z) : Z :=
  if fine then
    (transformer_dim + (if transformer_dim mod 2 =? 0 then 4 else 5))%Z
  else
    (transformer_dim + (4 - transformer_dim mod 4) mod 4)%Z.

(** [BaseTrackerPredictor.__init__] *)
Definition init (ext : externals) (prm : learned)
    (stride : Q) (corr_levels corr_radius latent_dim hidden_size : Z)
    (use_spaceatt : bool) (depth : Z) (fine : bool) (cfg : option Cfg)
  : result BaseTrackerPredictor :=
  let flows_emb_dim := (latent_dim / 2)%Z in
  let transformer_dim := unpadded_dim corr_levels corr_radius latent_dim in
  efficient_corr <-
    match cfg with
    | Some c => Ok (MODEL_TRACK_efficient_corr c)
    | None => Err AttributeError
    end;;
  let transformer_dim := pad_transformer_dim fine transformer_dim in
  let space_depth := if use_spaceatt then depth else 0%Z in
  let time_depth := depth in
  updateformer <-
    EfficientUpdateFormer ext space_depth time_depth transformer_dim
      hidden_size (latent_dim + 2)%Z 4%Q use_spaceatt;;
  norm <- nn_GroupNorm 1 latent_dim (norm_weight prm) (norm_bias prm);;
  lin <- nn_Linear latent_dim latent_dim (ffeat_weight prm) (ffeat_bias prm);;
  let ffeat_updater := [LinearLayer lin; GELULayer] in
  vis_predictor <-
    (if negb fine then
       vis <- nn_Linear latent_dim 1 (vis_weight prm) (vis_bias prm);;
       Ok (Some [LinearLayer vis])
     else Ok None);;
  Ok (mkBaseTrackerPredictor cfg stride latent_dim corr_levels corr_radius
        hidden_size fine flows_emb_dim transformer_dim efficient_corr
        updateformer norm ffeat_updater vis_predictor).

(** The defaults of the signature of [__init__]. *)
Definition init_default (ext : externals) (prm : learned) (fine : bool)
    (cfg : option Cfg) : result BaseTrackerPredictor :=
  init ext prm 4%Q 5%Z 4%Z 128%Z 384%Z true 6%Z fine cfg.

(** ** [forward] *)

(** [B, N, D = t.shape] and [B, S, C, HH, WW = t.shape] *)
Definition unpack3 (t : tensor) : result (nat * nat * nat) :=
  match shape t with
  | [a; b; c] => Ok (a, b, c)
  | _ => Err ValueError
  end.

Definition unpack5 (t : tensor) : result (nat * nat * nat * nat * nat) :=
  match shape t with
  | [a; b; c; d; e] => Ok (a, b, c, d, e)
  | _ => Err ValueError
  end.

(** [t.shape[k]] *)
Definition shape_at (t : tensor) (k : nat) : result nat :=
  if k <? rank t then Ok (nth k (shape t) 0) else Err IndexError.

(** [assert c] *)
Definition assert (c : bool) : result unit :=
  if c then Ok tt else Err AssertionError.

(** [x > 1] for a Python number [x] *)
Definition gt_one (x : Q) : bool := negb (Qle_bool x 1).

(** Lines 91 to 93: the scaling of the query points. *)
Definition scale_query_points (self : BaseTrackerPredictor)
    (query_points : tensor) (down_ratio : Q) : tensor :=
  if gt_one down_ratio then
    let query_points := div_scalar query_points (Q2R down_ratio) in
    let query_points := div_scalar query_points (Q2R (stride self)) in
    query_points
  else query_points.

(** Lines 184 to 187: a snapshot of [coords] in the scale of the image. *)
Definition rescale_coords (self : BaseTrackerPredictor) (coords : tensor)
    (down_ratio : Q) : tensor :=
  if gt_one down_ratio then
    mul_scalar (mul_scalar coords (Q2R (stride self))) (Q2R down_ratio)
  else
    mul_scalar coords (Q2R (stride self)).

(** The correlation block that [forward] builds: lines 108 to 111. *)
Inductive fcorr (ext : externals) : Type :=
| Efficient (h : efficient_corr_block ext)
| Dense (h : corr_block ext).

Definition make_fcorr (ext : externals) (self : BaseTrackerPredictor)
    (fmaps : tensor) : result (fcorr ext) :=
  if efficient_corr self then
    h <- EfficientCorrBlock ext fmaps (corr_levels self) (corr_radius self);;
    Ok (Efficient ext h)
  else
    h <- CorrBlock ext fmaps (corr_levels self) (corr_radius self);;
    Ok (Dense ext h).

(** Lines 121 to 126: the correlation of one iteration.  The dense block
    keeps the pyramid that [corr] computes. *)
Definition sample_fcorr (ext : externals) (fcorr_fn : fcorr ext)
    (coords track_feats : tensor) : result (fcorr ext * tensor) :=
  match fcorr_fn with
  | Efficient _ h =>
      fcorrs <- EfficientCorrBlock_sample ext h coords track_feats;;
      Ok (fcorr_fn, fcorrs)
  | Dense _ h =>
      h' <- CorrBlock_corr ext h track_feats;;
      fcorrs <- CorrBlock_sample ext h' coords;;
      Ok (Dense ext h', fcorrs)
  end.

(** Lines 145 to 149: the padding of the input of the transformer. *)
Definition pad_transformer_input (self : BaseTrackerPredictor)
    (flows_emb transformer_input : tensor) : result tensor :=
  width <- shape_at transformer_input 2;;
  if (Z.of_nat width <? transformer_dim self)%Z then
    let pad_dim := (transformer_dim self - Z.of_nat width)%Z in
    cut <- slice flows_emb (rank flows_emb - 1) 0 (Some (Z.to_nat pad_dim));;
    let pad := zeros_like cut in
    cat [transformer_input; pad] 2
  else Ok transformer_input.

(** The tensors of lines 128 to 149, kept for the later lines. *)
Record assembled : Type := mkAssembled {
  asm_flows_emb : tensor;
  asm_track_feats_ : tensor;
  asm_unpadded : tensor;
  asm_transformer_input : tensor
}.

(** Lines 128 to 149. *)
Definition assemble_input (ext : externals) (self : BaseTrackerPredictor)
    (B N S : nat) (coords track_feats fcorrs : tensor) : result assembled :=
  corrdim <- shape_at fcorrs 3;;
  p <- permute fcorrs [0; 2; 1; 3];;
  fcorrs_ <- reshape p [B * N; S; corrdim];;
  coords0 <- slice coords 1 0 (Some 1);;
  d <- sub coords coords0;;
  p <- permute d [0; 2; 1; 3];;
  flows <- reshape p [B * N; S; 2];;
  flows_emb <- get_2d_embedding ext flows (flows_emb_dim self) false;;
  flows_emb <- cat [flows_emb; flows] (-1);;
  p <- permute track_feats [0; 2; 1; 3];;
  track_feats_ <- reshape p [B * N; S; Z.to_nat (latent_dim self)];;
  unpadded <- cat [flows_emb; fcorrs_; track_feats_] 2;;
  transformer_input <- pad_transformer_input self flows_emb unpadded;;
  Ok (mkAssembled flows_emb track_feats_ unpadded transformer_input).

(** Lines 151 to 160: the positional embedding and the input [x] of the
    update function. *)
Definition sample_pos_emb (ext : externals) (self : BaseTrackerPredictor)
    (B HH WW : nat) (coords : tensor) : result tensor :=
  pos_embed <- get_2d_sincos_pos_embed ext (transformer_dim self) (HH, WW);;
  pos_embed <- expand pos_embed [Some B; None; None; None];;
  coords0 <- select coords 1 0;;
  sampled_pos_emb <- sample_features4d ext pos_embed coords0;;
  sampled_pos_emb <- rearrange_bn_c sampled_pos_emb;;
  unsqueeze sampled_pos_emb 1.

Definition updateformer_input (ext : externals) (self : BaseTrackerPredictor)
    (B HH WW : nat) (coords transformer_input : tensor) : result tensor :=
  sampled_pos_emb <- sample_pos_emb ext self B HH WW coords;;
  x <- add transformer_input sampled_pos_emb;;
  rearrange_split_b x B.

(** Lines 169 to 174: the update of the track features. *)
Definition update_track_feats (ext : externals) (self : BaseTrackerPredictor)
    (B N S : nat) (track_feats_ delta_feats_ : tensor) : result tensor :=
  let L := Z.to_nat (latent_dim self) in
  track_feats_ <- reshape track_feats_ [B * N * S; L];;
  delta_feats_ <- reshape delta_feats_ [B * N * S; L];;
  normed <- apply_group_norm (norm self) delta_feats_;;
  updated <- apply_sequential (erf ext) (ffeat_updater self) normed;;
  track_feats_ <- add updated track_feats_;;
  r <- reshape track_feats_ [B; N; S; L];;
  permute r [0; 2; 1; 3].

(** Lines 177 to 181: the update of the coordinates and the anchor. *)
Definition update_coords (B N S : nat)
    (coords delta_coords_ coords_backup : tensor) : result tensor :=
  r <- reshape delta_coords_ [B; N; S; 2];;
  p <- permute r [0; 2; 1; 3];;
  coords <- add coords p;;
  anchor <- select coords_backup 1 0;;
  setitem_select coords 1 0 anchor.

(** What the loop reads and does not change. *)
Record call : Type := mkCall {
  call_B : nat;
  call_N : nat;
  call_S : nat;
  call_HH : nat;
  call_WW : nat;
  call_coords_backup : tensor;
  call_down_ratio : Q
}.

(** What an iteration changes. *)
Record loop_state (ext : externals) : Type := mkLoopState {
  coords : tensor;
  track_feats : tensor;
  fcorr_fn : fcorr ext;
  coord_preds : list tensor
}.

(** The body of the loop: lines 117 to 187. *)
Definition iteration (ext : externals) (self : BaseTrackerPredictor)
    (c : call) (st : loop_state ext) : result (loop_state ext) :=
  let B := call_B c in
  let N := call_N c in
  let S := call_S c in
  let coords := detach (coords st) in
  '(fcorr_fn, fcorrs) <- sample_fcorr (fcorr_fn st) coords (track_feats st);;
  a <- assemble_input ext self B N S coords (track_feats st) fcorrs;;
  x <- updateformer_input ext self B (call_HH c) (call_WW c) coords
         (asm_transformer_input a);;
  delta <- updateformer self x;;
  delta <- rearrange_merge_b delta B;;
  delta_coords_ <- slice delta 2 0 (Some 2);;
  delta_feats_ <- slice delta 2 2 None;;
  track_feats <-
    update_track_feats ext self B N S (asm_track_feats_ a) delta_feats_;;
  coords <- update_coords B N S coords delta_coords_ (call_coords_backup c);;
  let pred := rescale_coords self coords (call_down_ratio c) in
  Ok (mkLoopState coords track_feats fcorr_fn (coord_preds st ++ [pred])).

(** [for itr in range(iters)] *)
Fixpoint refine (ext : externals) (self : BaseTrackerPredictor) (c : call)
    (iters : nat) (st : loop_state ext) : result (loop_state ext) :=
  match iters with
  | 0 => Ok st
  | S iters' =>
      st' <- iteration self c st;;
      refine self c iters' st'
  end.

(** Lines 189 to 194: the visibility head. *)
Definition predict_visibility (ext : externals) (self : BaseTrackerPredictor)
    (B N S : nat) (track_feats : tensor) : result (option tensor) :=
  if negb (fine self) then
    match vis_predictor self with
    | Some head =>
        r <- reshape track_feats [B * S * N; Z.to_nat (latent_dim self)];;
        v <- apply_sequential (erf ext) head r;;
        vis_e <- reshape v [B; S; N];;
        Ok (Some (sigmoid vis_e))
    | None => Err AttributeError
    end
  else Ok None.

(** The two forms of the returned tuple. *)
Inductive output : Type :=
| Tracks (coord_preds : list tensor) (vis_e : option tensor)
| TracksAndFeats (coord_preds : list tensor) (vis_e : option tensor)
    (track_feats query_track_feat : tensor).

Definition out_coord_preds (o : output) : list tensor :=
  match o with
  | Tracks p _ => p
  | TracksAndFeats p _ _ _ => p
  end.

Definition out_vis_e (o : output) : option tensor :=
  match o with
  | Tracks _ v => v
  | TracksAndFeats _ v _ _ => v
  end.

(** Lines 82 to 111: the entry checks and the initial state. *)
Record prepared (ext : externals) : Type := mkPrepared {
  prep_call : call;
  prep_state : loop_state ext;
  prep_query_points : tensor;
  prep_query_track_feat : tensor
}.

Definition prepare (ext : externals) (self : BaseTrackerPredictor)
    (query_points : tensor) (fmaps : option tensor) (down_ratio : Q)
  : result (prepared ext) :=
  '(_, N, D) <- unpack3 query_points;;
  fmaps <- match fmaps with Some f => Ok f | None => Err AttributeError end;;
  '(B, frames, _, HH, WW) <- unpack5 fmaps;;
  let S := frames in
  _ <- assert (D =? 2);;
  let query_points := scale_query_points self query_points down_ratio in
  r <- reshape (clone query_points) [B; 1; N; 2];;
  coords <- repeat r [1; S; 1; 1];;
  fmaps0 <- select fmaps 1 0;;
  coords0 <- select coords 1 0;;
  query_track_feat <- sample_features4d ext fmaps0 coords0;;
  u <- unsqueeze query_track_feat 1;;
  track_feats <- repeat u [1; S; 1; 1];;
  let coords_backup := clone coords in
  fcorr_fn <- make_fcorr ext self fmaps;;
  Ok (mkPrepared
        (mkCall B N S HH WW coords_backup down_ratio)
        (mkLoopState coords track_feats fcorr_fn [])
        query_points query_track_feat).

(** [BaseTrackerPredictor.forward] *)
Definition forward (ext : externals) (self : BaseTrackerPredictor)
    (query_points : tensor) (fmaps : option tensor) (iters : Z)
    (return_feat : bool) (down_ratio : Q) : result output :=
  p <- prepare ext self query_points fmaps down_ratio;;
  let c := prep_call p in
  st <- refine self c (Z.to_nat iters) (prep_state p);;
  vis_e <- predict_visibility ext self (call_B c) (call_N c) (call_S c)
             (track_feats st);;
  if return_feat then
    Ok (TracksAndFeats (coord_preds st) vis_e (track_feats st)
          (prep_query_track_feat p))
  else
    Ok (Tracks (coord_preds st) vis_e).

(** ** Auxiliary definitions of the statements *)

(** Line 97 on the scaled query points. *)
Definition initial_coords (query_points : tensor) (B N S : nat) : tensor :=
  repeat_raw (reshape_raw (clone query_points) [B; 1; N; 2]) [1; S; 1; 1].

(** Line 103 on the sampled features of the query frame. *)
Definition initial_track_feats (query_track_feat : tensor) (S : nat) : tensor :=
  repeat_raw (unsqueeze_raw query_track_feat 1) [1; S; 1; 1].

(** Everything that a successful construction fixes. *)
Record constructed (ext : externals) (prm : learned) (st : Q)
    (lv rd lt : Z) (fn : bool) (self : BaseTrackerPredictor) : Prop :=
  mkConstructed {
    con_latent_nonneg : (0 <= lt)%Z;
    con_stride : stride self = st;
    con_latent_dim : latent_dim self = lt;
    con_corr_levels : corr_levels self = lv;
    con_corr_radius : corr_radius self = rd;
    con_fine : fine self = fn;
    con_flows_emb_dim : flows_emb_dim self = (lt / 2)%Z;
    con_transformer_dim :
      transformer_dim self = pad_transformer_dim fn (unpadded_dim lv rd lt);
    con_norm :
      norm self = mkGroupNorm 1 (Z.to_nat lt) (1 / 100000)%R
                    (norm_weight prm) (norm_bias prm);
    con_ffeat_updater :
      ffeat_updater self =
      [LinearLayer (mkLinear (Z.to_nat lt) (Z.to_nat lt)
                      (ffeat_weight prm) (ffeat_bias prm)); GELULayer];
    con_vis_predictor :
      vis_predictor self =
      if fn then None
      else Some [LinearLayer (mkLinear (Z.to_nat lt) 1
                                (vis_weight prm) (vis_bias prm))]
  }.

(** What lines 82 to 111 have established when they return. *)
Record prepared_from (ext : externals) (self : BaseTrackerPredictor)
    (query_points fmaps : tensor) (down_ratio : Q) (p : prepared ext)
    (B0 N B F C HH WW : nat) : Prop := mkPreparedFrom {
  pf_query_shape : shape query_points = [B0; N; 2];
  pf_fmaps_shape : shape fmaps = [B; F; C; HH; WW];
  pf_frames : 0 < F;
  pf_query_points :
    prep_query_points p = scale_query_points self query_points down_ratio;
  pf_call :
    prep_call p =
    mkCall B N F HH WW (initial_coords (prep_query_points p) B N F) down_ratio;
  pf_coords : coords (prep_state p) = initial_coords (prep_query_points p) B N F;
  pf_coord_preds : coord_preds (prep_state p) = [];
  pf_query_track_feat :
    sample_features4d ext (select_raw fmaps 1 0)
      (select_raw (initial_coords (prep_query_points p) B N F) 1 0)
    = Ok (prep_query_track_feat p);
  pf_track_feats :
    track_feats (prep_state p) =
    initial_track_feats (prep_query_track_feat p) F;
  pf_fcorr_fn : make_fcorr ext self fmaps = Ok (fcorr_fn (prep_state p))
}.

(** ** Stand-ins for the collaborators

    Collaborators with the shapes of the real ones and constant entries,
    for running [forward] on concrete inputs.  The stand-in of the update
    function returns the constant [delta], so every coordinate it is
    allowed to move does move. *)

Definition constant (s : list nat) (v : R) : tensor :=
  mkTensor s (fun _ => v).

Definition window (levels radius : Z) : nat :=
  Z.to_nat (levels * (radius * 2 + 1) ^ 2).

Definition stub_updateformer (delta : R) (input_dim output_dim : Z)
    (x : tensor) : result tensor :=
  match shape x with
  | [b; n; s; d] =>
      if d =? Z.to_nat input_dim
      then Ok (constant [b; n; s; Z.to_nat output_dim] delta)
      else Err RuntimeError
  | _ => Err RuntimeError
  end.

Definition stub_corr_sample (corrdim : nat) (coords : tensor) : result tensor :=
  match shape coords with
  | [b; s; n; _] => Ok (constant [b; s; n; corrdim] 0)
  | _ => Err RuntimeError
  end.

Definition stub_sample_features4d (input coords : tensor) : result tensor :=
  match shape input, shape coords with
  | [b; c; _; _], [b'; n; 2] =>
      if b =? b' then Ok (constant [b; n; c] 0) else Err RuntimeError
  | _, _ => Err RuntimeError
  end.

Definition stub_get_2d_embedding (xy : tensor) (C : Z) (cat_coords : bool)
  : result tensor :=
  match shape xy with
  | [b; n; 2] =>
      Ok (constant [b; n; Z.to_nat (C * 2) + (if cat_coords then 2 else 0)] 0)
  | _ => Err AssertionError
  end.

Definition stub_ext (delta : R) : externals :=
  mkExternals
    (corr_block := nat) (efficient_corr_block := nat)
    (fun _ _ input_dim _ output_dim _ _ =>
       Ok (stub_updateformer delta input_dim output_dim))
    (fun _ levels radius => Ok (window levels radius))
    (fun h _ => Ok h)
    stub_corr_sample
    (fun _ levels radius => Ok (window levels radius))
    (fun h coords _ => stub_corr_sample h coords)
    stub_sample_features4d
    stub_get_2d_embedding
    (fun d grid => Ok (constant [1; Z.to_nat d; fst grid; snd grid] 0))
    (fun _ => 0%R).

Definition stub_learned : learned :=
  mkLearned (fun _ => 1%R) (fun _ => 0%R)
            (fun _ _ => 0%R) (fun _ => 0%R)
            (fun _ _ => 0%R) (fun _ => 0%R).

(** The module that [init] builds from the stand-ins. *)
Definition stub_module (delta : R) (lv rd lt : Z) (fn eff : bool)
  : BaseTrackerPredictor :=
  let d := pad_transformer_dim fn (unpadded_dim lv rd lt) in
  mkBaseTrackerPredictor (Some (mkCfg eff)) 4%Q lt lv rd 384%Z fn (lt / 2)%Z
    d eff (stub_updateformer delta d (lt + 2)%Z)
    (mkGroupNorm 1 (Z.to_nat lt) (1 / 100000)%R (fun _ => 1%R) (fun _ => 0%R))
    [LinearLayer (mkLinear (Z.to_nat lt) (Z.to_nat lt)
                    (fun _ _ => 0%R) (fun _ => 0%R)); GELULayer]
    (if fn then None
     else Some [LinearLayer (mkLinear (Z.to_nat lt) 1
                               (fun _ _ => 0%R) (fun _ => 0%R))]).

(** A small call: one batch, two frames, one track at pixel (40, 40),
    feature maps of 128 channels on an 8 x 8 grid, the default sizes of
    the module, and an update function that moves every coordinate by 1. *)
Definition demo_query_points : tensor := constant [1; 1; 2] 40.
Definition demo_fmaps : tensor := constant [1; 2; 128; 8; 8] 0.
Definition demo_module : BaseTrackerPredictor :=
  stub_module 1 5 4 128 false false.

Definition output_of (r : result output) : output :=
  match r with
  | Ok o => o
  | Err _ => Tracks [] None
  end.

Definition demo_output (iters : Z) (down_ratio : Q) : output :=
  output_of (forward (stub_ext 1) demo_module demo_query_points
               (Some demo_fmaps) iters false down_ratio).

(** The update of one feature vector in closed form: the normalisation
    over all channels of a row of deltas, the affine map, the activation. *)
Definition row_mean (L : nat) (row : nat -> R) : R :=
  (sum_upto L row / INR L)%R.

Definition row_var (L : nat) (row : nat -> R) : R :=
  (sum_upto L (fun j => (row j - row_mean L row) * (row j - row_mean L row))
   / INR L)%R.

Definition normalized (prm : learned) (L : nat) (row : nat -> R) (j : nat) : R :=
  ((row j - row_mean L row) / sqrt (row_var L row + 1 / 100000)
   * norm_weight prm j + norm_bias prm j)%R.

Definition feature_update (erf : R -> R) (prm : learned) (L : nat)
    (row : nat -> R) (c : nat) : R :=
  gelu erf (sum_upto L (fun j => normalized prm L row j * ffeat_weight prm c j)
            + ffeat_bias prm c)%R.

(** The assembled input [a] and the input [x] of the update function in
    the iteration that starts from the state [st]. *)
Definition assembled_in (ext : externals) (self : BaseTrackerPredictor)
    (c : call) (st : loop_state ext) (a : assembled) : Prop :=
  exists fc fcorrs,
    sample_fcorr (fcorr_fn st) (coords st) (track_feats st) = Ok (fc, fcorrs)
    /\ assemble_input ext self (call_B c) (call_N c) (call_S c) (coords st)
         (track_feats st) fcorrs = Ok a.

Definition update_input_in (ext : externals) (self : BaseTrackerPredictor)
    (c : call) (st : loop_state ext) (x : tensor) : Prop :=
  exists a,
    assembled_in self c st a /\
    updateformer_input ext self (call_B c) (call_HH c) (call_WW c) (coords st)
      (asm_transformer_input a) = Ok x.

(** The first iteration of the small call with [down_ratio = 1]. *)
Definition demo_coords0 : tensor :=
  initial_coords (scale_query_points demo_module demo_query_points 1) 1 1 2.

Definition demo_call : call := mkCall 1 1 2 8 8 demo_coords0 1.

Definition demo_state0 : loop_state (stub_ext 1) :=
  mkLoopState demo_coords0 (initial_track_feats (constant [1; 1; 128] 0) 2)
    (Dense (stub_ext 1) (window 5 4)) [].

Definition state_of {ext : externals} (r : result (loop_state ext))
    (d : loop_state ext) : loop_state ext :=
  match r with
  | Ok s => s
  | Err _ => d
  end.

Definition demo_state1 : loop_state (stub_ext 1) :=
  state_of (iteration demo_module demo_call demo_state0) demo_state0.


(** The shapes that the collaborators return on a call with [B] batches,
    [N] tracks, [F] frames and feature maps of [C] channels on an
    [HH x WW] grid: [E] is the width of the flow embedding and [K] the
    width of the correlation; [good] holds of the correlation blocks that
    the call goes through. *)
Record regular (ext : externals) (self : BaseTrackerPredictor)
    (B N F C HH WW E K : nat) (good : fcorr ext -> Prop) : Prop :=
  mkRegular {
    reg_sample_features4d :
      forall input coords c h w,
        shape input = [B; c; h; w] -> shape coords = [B; N; 2] ->
        exists t, sample_features4d ext input coords = Ok t
                  /\ shape t = [B; N; c];
    reg_get_2d_embedding :
      forall xy,
        shape xy = [B * N; F; 2] ->
        exists t, get_2d_embedding ext xy (flows_emb_dim self) false = Ok t
                  /\ shape t = [B * N; F; E];
    reg_get_2d_sincos_pos_embed :
      exists t,
        get_2d_sincos_pos_embed ext (transformer_dim self) (HH, WW) = Ok t
        /\ shape t = [1; Z.to_nat (transformer_dim self); HH; WW];
    reg_make_fcorr :
      forall fmaps,
        shape fmaps = [B; F; C; HH; WW] ->
        exists h, make_fcorr ext self fmaps = Ok h /\ good h;
    reg_sample_fcorr :
      forall h coords track_feats,
        good h ->
        shape coords = [B; F; N; 2] ->
        shape track_feats = [B; F; N; Z.to_nat (latent_dim self)] ->
        exists h' t, sample_fcorr h coords track_feats = Ok (h', t)
                     /\ good h' /\ shape t = [B; F; N; K];
    reg_updateformer :
      forall x,
        shape x = [B; N; F; Z.to_nat (transformer_dim self)] ->
        exists t, updateformer self x = Ok t
                  /\ shape t = [B; N; F; Z.to_nat (latent_dim self) + 2]
  }.

(** The sizes of a call that [forward] runs to its end: at least one
    batch and one frame, feature maps of [latent_dim] channels, an
    assembled input that the padding brings to [transformer_dim] columns,
    and more than one value for the normalisation. *)
Record sizes_fit (self : BaseTrackerPredictor) (B N F C E K : nat) : Prop :=
  mkSizesFit {
    fit_batch : 0 < B;
    fit_frames : 0 < F;
    fit_channels : C = Z.to_nat (latent_dim self);
    fit_width :
      (Z.of_nat (E + 2 + K + C) <= transformer_dim self)%Z;
    fit_deficit :
      (transformer_dim self - Z.of_nat (E + 2 + K + C) <= Z.of_nat (E + 2))%Z;
    fit_values : B * N * F * C <> 1
  }.

(** What the loop keeps: the shapes of the state and a correlation block
    that the collaborators accept. *)
Definition state_regular (ext : externals) (B N F C : nat)
    (good : fcorr ext -> Prop) (c : call) (st : loop_state ext) : Prop :=
  call_B c = B /\ call_N c = N /\ call_S c = F /\
  shape (call_coords_backup c) = [B; F; N; 2] /\
  shape (coords st) = [B; F; N; 2] /\
  shape (track_feats st) = [B; F; N; C] /\
  good (fcorr_fn st).

(** * Properties *)

Unset Implicit Arguments.

(** ** The error monad *)

Lemma bind_Ok (A B : Type) (c : result A) (k : A -> result B) (b : B) :
  bind c k = Ok b -> exists a, c = Ok a /\ k a = Ok b.
Proof.
  destruct c as [a | e]; cbn; intros H.
  - exists a. split; [reflexivity | exact H].
  - discriminate H.
Qed.

Lemma bind_Err (A B : Type) (c : result A) (k : A -> result B) (e : exn) :
  c = Err e -> bind c k = Err e.
Proof. intros ->. reflexivity. Qed.

(** Splits a hypothesis [(x <- c ;; k) = Ok b] into its two runs. *)
Tactic Notation "invert_bind" hyp(H) "as" ident(a) ident(Ha) :=
  apply bind_Ok in H; destruct H as (a & Ha & H).

(** ** Positions in a tensor *)

Lemma ravel_lt (s idx : list nat) : in_range s idx -> ravel s idx < numel s.
Proof.
  revert idx. induction s as [| d s IH]; intros [| i idx]; cbn; try tauto.
  - intros _. lia.
  - intros [Hi Hr]. specialize (IH idx Hr).
    change (fold_right Nat.mul 1 s) with (numel s).
    pose proof (Nat.mul_le_mono_r (S i) d (numel s) Hi) as Hm.
    cbn in Hm. lia.
Qed.

Lemma unravel_ravel (s idx : list nat) :
  in_range s idx -> unravel s (ravel s idx) = idx.
Proof.
  revert idx. induction s as [| d s IH]; intros [| i idx]; cbn; try tauto.
  intros [Hi Hr].
  pose proof (ravel_lt s idx Hr) as Hlt.
  assert (Hq : (i * numel s + ravel s idx) / numel s = i).
  { symmetry. apply Nat.div_unique with (r := ravel s idx); [exact Hlt | lia]. }
  assert (Hm : (i * numel s + ravel s idx) mod numel s = ravel s idx).
  { symmetry. apply Nat.mod_unique with (q := i); [exact Hlt | lia]. }
  rewrite Hq, Hm, (IH idx Hr). reflexivity.
Qed.

(** The first size of a shape plays no part in [unravel]. *)
Lemma unravel_head (d d' : nat) (s : list nat) (k : nat) :
  unravel (d :: s) k = unravel (d' :: s) k.
Proof. reflexivity. Qed.

(** An entry of a reshaped tensor, read at the position of the same rank
    in the row-major order. *)
Lemma reshape_entry (t : tensor) (s idx idx' : list nat) :
  in_range (shape t) idx' ->
  ravel s idx = ravel (shape t) idx' ->
  entry (reshape_raw t s) idx = entry t idx'.
Proof.
  intros Hr He. cbn. rewrite He, (unravel_ravel _ _ Hr). reflexivity.
Qed.

Lemma reshape_Ok (t t' : tensor) (s : list nat) :
  reshape t s = Ok t' -> numel (shape t) = numel s /\ t' = reshape_raw t s.
Proof.
  unfold reshape. destruct (numel (shape t) =? numel s) eqn:E; intros H.
  - apply Nat.eqb_eq in E. inversion H. split; [exact E | reflexivity].
  - discriminate H.
Qed.

Lemma reshape_ok (t : tensor) (s : list nat) :
  numel (shape t) = numel s -> reshape t s = Ok (reshape_raw t s).
Proof.
  intros H. unfold reshape. apply Nat.eqb_eq in H. rewrite H. reflexivity.
Qed.

Lemma shape_eqb_eq (a b : list nat) : shape_eqb a b = true <-> a = b.
Proof.
  revert b. induction a as [| x a IH]; intros [| y b]; cbn;
    try (split; [discriminate | discriminate]); try tauto.
  rewrite andb_true_iff, Nat.eqb_eq, IH. split.
  - intros [-> ->]. reflexivity.
  - intros H. inversion H. tauto.
Qed.

Lemma stretch_index_in_range (s idx : list nat) :
  in_range s idx -> stretch_index s idx = idx.
Proof.
  revert idx. induction s as [| d s IH]; intros [| i idx]; cbn; try tauto.
  intros [Hi Hr]. unfold stretch_index in IH. rewrite (IH idx Hr).
  destruct (d =? 1) eqn:E; [| reflexivity].
  apply Nat.eqb_eq in E. f_equal. lia.
Qed.

Lemma in_range_length (s idx : list nat) :
  in_range s idx -> length idx = length s.
Proof.
  revert idx. induction s as [| d s IH]; intros [| i idx]; cbn; try tauto.
  intros [_ Hr]. f_equal. exact (IH idx Hr).
Qed.

Lemma bcast_index_in_range (s idx : list nat) :
  in_range s idx -> bcast_index s idx = idx.
Proof.
  intros H. unfold bcast_index.
  rewrite (in_range_length _ _ H), Nat.sub_diag. cbn.
  exact (stretch_index_in_range _ _ H).
Qed.

(** ** Construction *)

Lemma nn_Linear_Ok (i o : Z) (w : nat -> nat -> R) (b : nat -> R) (l : Linear) :
  nn_Linear i o w b = Ok l ->
  (0 <= i)%Z /\ (0 <= o)%Z /\ l = mkLinear (Z.to_nat i) (Z.to_nat o) w b.
Proof.
  unfold nn_Linear.
  destruct (i <? 0)%Z eqn:Ei; destruct (o <? 0)%Z eqn:Eo; cbn; intros H;
    try discriminate H.
  apply Z.ltb_ge in Ei, Eo. inversion H. auto.
Qed.

Lemma nn_GroupNorm_one_Ok (c : Z) (w b : nat -> R) (g : GroupNorm) :
  nn_GroupNorm 1 c w b = Ok g ->
  (0 <= c)%Z /\ g = mkGroupNorm 1 (Z.to_nat c) (1 / 100000)%R w b.
Proof.
  unfold nn_GroupNorm. cbn [Z.eqb].
  rewrite Z.mod_1_r. cbn [Z.eqb negb].
  destruct (c <? 0)%Z eqn:E; intros H; [discriminate H |].
  apply Z.ltb_ge in E. inversion H. auto.
Qed.

Lemma init_Ok (ext : externals) (prm : learned) (st : Q)
    (lv rd lt hs : Z) (sa : bool) (dp : Z) (fn : bool) (cf : option Cfg)
    (self : BaseTrackerPredictor) :
  init ext prm st lv rd lt hs sa dp fn cf = Ok self ->
  constructed ext prm st lv rd lt fn self.
Proof.
  unfold init. intros H.
  invert_bind H as eff Heff. invert_bind H as uf Huf.
  invert_bind H as gn Hgn. invert_bind H as lin Hlin.
  invert_bind H as vis Hvis.
  apply nn_GroupNorm_one_Ok in Hgn. destruct Hgn as [Hlt ->].
  apply nn_Linear_Ok in Hlin. destruct Hlin as (_ & _ & ->).
  inversion H; subst self; clear H.
  constructor; cbn; try reflexivity; try exact Hlt.
  destruct fn; cbn in Hvis.
  - inversion Hvis. reflexivity.
  - invert_bind Hvis as l Hl. apply nn_Linear_Ok in Hl.
    destruct Hl as (_ & _ & ->).
    inversion Hvis. reflexivity.
Qed.

Lemma init_stub (delta : R) (lv rd lt : Z) (fn eff : bool) :
  (0 <= lt)%Z ->
  init (stub_ext delta) stub_learned 4%Q lv rd lt 384%Z true 6%Z fn
    (Some (mkCfg eff))
  = Ok (stub_module delta lv rd lt fn eff).
Proof.
  intros Hlt. unfold init, stub_module. cbn [bind MODEL_TRACK_efficient_corr].
  cbn [stub_ext EfficientUpdateFormer bind].
  unfold nn_GroupNorm. cbn [Z.eqb]. rewrite Z.mod_1_r. cbn [Z.eqb negb].
  unfold nn_Linear.
  apply Z.ltb_ge in Hlt. rewrite Hlt. cbn.
  destruct fn; reflexivity.
Qed.

(** C3, as amended.  A successful construction fixes the input width of
    the update function from
    [corr_levels * (2 * corr_radius + 1) ^ 2 + 2 * latent_dim]: in normal
    mode it is that number padded up to the next multiple of 4, so it is a
    multiple of 4; in fine mode it is that number plus 4 when the number is
    even and plus 5 when it is odd, which is even. *)
Theorem transformer_dim_by_mode (ext : externals) (prm : learned) (st : Q)
    (lv rd lt hs : Z) (sa : bool) (dp : Z) (fn : bool) (cf : option Cfg)
    (self : BaseTrackerPredictor) :
  init ext prm st lv rd lt hs sa dp fn cf = Ok self ->
  let base := (lv * (2 * rd + 1) ^ 2 + 2 * lt)%Z in
  if fn then
    transformer_dim self = (base + (if base mod 2 =? 0 then 4 else 5))%Z /\
    (transformer_dim self mod 2 = 0)%Z
  else
    (transformer_dim self mod 4 = 0)%Z /\
    (base <= transformer_dim self < base + 4)%Z.
Proof.
  intros H base. apply init_Ok in H.
  rewrite (con_transformer_dim H).
  unfold pad_transformer_dim, unpadded_dim.
  replace (lv * (rd * 2 + 1) ^ 2 + lt * 2)%Z with base by (unfold base; ring).
  generalize base. clear. intros base. destruct fn.
  - pose proof (Z.mod_pos_bound base 2 eq_refl) as Hb.
    destruct (base mod 2 =? 0)%Z eqn:E.
    + apply Z.eqb_eq in E. split; [reflexivity |].
      rewrite Z.add_mod, E by lia. reflexivity.
    + apply Z.eqb_neq in E. split; [reflexivity |].
      assert (E1 : (base mod 2 = 1)%Z) by lia.
      rewrite Z.add_mod, E1 by lia. reflexivity.
  - pose proof (Z.mod_pos_bound base 4 eq_refl) as Hb.
    pose proof (Z.mod_pos_bound (4 - base mod 4) 4 eq_refl) as Hp.
    split; [| lia].
    assert (Hc : (base mod 4 = 0 \/ base mod 4 = 1 \/ base mod 4 = 2
                  \/ base mod 4 = 3)%Z) by lia.
    rewrite Z.add_mod by lia.
    destruct Hc as [E | [E | [E | E]]]; rewrite E; reflexivity.
Qed.

Lemma transformer_dim_by_mode_witness :
  init (stub_ext 0) stub_learned 4%Q 5%Z 4%Z 128%Z 384%Z true 6%Z false
    (Some (mkCfg false))
  = Ok (stub_module 0 5 4 128 false false) /\
  (transformer_dim (stub_module 0 5 4 128 false false) mod 4 = 0)%Z /\
  (661 <= transformer_dim (stub_module 0 5 4 128 false false) < 661 + 4)%Z.
Proof.
  split.
  - apply init_stub. lia.
  - exact (transformer_dim_by_mode (stub_ext 0) stub_learned 4%Q 5%Z 4%Z
             128%Z 384%Z true 6%Z false (Some (mkCfg false))
             (stub_module 0 5 4 128 false false)
             (init_stub 0 5 4 128 false false ltac:(lia))).
Defined.

(** C3, as stated, fails in fine mode: with the default sizes the width is
    [5 * 81 + 256 + 5 = 666], which is not a multiple of 4. *)
Lemma transformer_dim_fine_not_aligned :
  exists self : BaseTrackerPredictor,
    init_default (stub_ext 0) stub_learned true (Some (mkCfg false)) = Ok self
    /\ transformer_dim self = 666%Z
    /\ (transformer_dim self mod 4 <> 0)%Z.
Proof.
  exists (stub_module 0 5 4 128 true false). split; [| split].
  - apply init_stub. lia.
  - reflexivity.
  - cbv. discriminate.
Qed.

(** ** The entry checks *)

(** C9.  A call whose query points do not end in a dimension of size 2, or
    whose feature maps do not have rank 5, raises at the first three
    statements of [forward]: the exception depends on the two shapes only,
    not on the collaborators, the module or the number of iterations, and
    nothing is returned. *)
Theorem forward_rejects_bad_shapes (ext : externals)
    (self : BaseTrackerPredictor) (query_points fmaps : tensor) (iters : Z)
    (return_feat : bool) (down_ratio : Q) :
  last (shape query_points) 0 <> 2 \/ rank fmaps <> 5 ->
  forward ext self query_points (Some fmaps) iters return_feat down_ratio
  = Err (if (rank query_points =? 3) && (rank fmaps =? 5)
         then AssertionError else ValueError).
Proof.
  intros H. unfold forward. apply bind_Err.
  unfold prepare, unpack3, unpack5, rank in *.
  destruct (shape query_points) as [| a [| b [| c [| d q]]]]; try reflexivity.
  cbn [bind length Nat.eqb andb].
  destruct (shape fmaps) as [| f1 [| f2 [| f3 [| f4 [| f5 [| f6 f]]]]]];
    try reflexivity.
  cbn [bind length Nat.eqb andb last] in *.
  destruct H as [H | H]; [| congruence].
  apply Nat.eqb_neq in H. rewrite H. reflexivity.
Qed.

Lemma forward_rejects_bad_shapes_witness :
  (last (shape (constant [1; 1; 3] 40)) 0 <> 2
   \/ rank (constant [1; 2; 128; 8; 8] 0) <> 5) /\
  forward (stub_ext 0) (stub_module 0 5 4 128 false false)
    (constant [1; 1; 3] 40) (Some (constant [1; 2; 128; 8; 8] 0)) 4 false 1
  = Err AssertionError.
Proof.
  assert (H : last (shape (constant [1; 1; 3] 40)) 0 <> 2
              \/ rank (constant [1; 2; 128; 8; 8] 0) <> 5).
  { left. cbn. lia. }
  split; [exact H |].
  exact (forward_rejects_bad_shapes (stub_ext 0)
           (stub_module 0 5 4 128 false false) (constant [1; 1; 3] 40)
           (constant [1; 2; 128; 8; 8] 0) 4 false 1 H).
Defined.

(** ** Inversion of the operations *)

Lemma select_Ok (t t' : tensor) (dim i : nat) :
  select t dim i = Ok t' ->
  dim < rank t /\ i < nth dim (shape t) 0 /\ t' = select_raw t dim i.
Proof.
  unfold select.
  destruct (dim <? rank t) eqn:Ed; destruct (i <? nth dim (shape t) 0) eqn:Ei;
    cbn; intros H; try discriminate H.
  apply Nat.ltb_lt in Ed, Ei. inversion H. auto.
Qed.

Lemma select_ok (t : tensor) (dim i : nat) :
  dim < rank t -> i < nth dim (shape t) 0 ->
  select t dim i = Ok (select_raw t dim i).
Proof.
  intros Hd Hi. unfold select.
  apply Nat.ltb_lt in Hd, Hi. rewrite Hd, Hi. reflexivity.
Qed.

Lemma setitem_select_Ok (t v t' : tensor) (dim i : nat) :
  setitem_select t dim i v = Ok t' ->
  shape t' = shape t /\
  forall idx,
    entry t' idx =
    if nth dim idx 0 =? i
    then entry v (bcast_index (shape v) (remove_at dim idx))
    else entry t idx.
Proof.
  unfold setitem_select. intros H. invert_bind H as view Hview.
  destruct (broadcast_shapes (shape view) (shape v)) as [s |];
    [| discriminate H].
  destruct (shape_eqb s (shape view)); [| discriminate H].
  inversion H. split; [reflexivity |]. intros idx. reflexivity.
Qed.

(** ** The anchor *)

(** Lines 179 to 181: whatever was added to [coords], its frame 0 is the
    frame 0 of the backup afterwards. *)
Lemma update_coords_anchor (B N S : nat) (coords dc backup out : tensor)
    (B' S' N' : nat) :
  update_coords B N S coords dc backup = Ok out ->
  shape backup = [B'; S'; N'; 2] ->
  forall b n c, b < B' -> n < N' -> c < 2 ->
    entry out [b; 0; n; c] = entry backup [b; 0; n; c].
Proof.
  unfold update_coords. intros H Hs b n c Hb Hn Hc.
  invert_bind H as r Hr. invert_bind H as p Hp. invert_bind H as moved Hmoved.
  invert_bind H as anchor Hanchor.
  apply select_Ok in Hanchor. destruct Hanchor as (_ & _ & ->).
  apply setitem_select_Ok in H. destruct H as [_ He].
  rewrite He. cbn [nth Nat.eqb select_raw shape entry remove_at firstn skipn app].
  rewrite Hs. cbn [firstn skipn app].
  rewrite bcast_index_in_range by (cbn; lia).
  reflexivity.
Qed.

(** What an iteration that returns has done to the coordinates and to the
    list of predictions. *)
Lemma iteration_Ok (ext : externals) (self : BaseTrackerPredictor) (c : call)
    (st st' : loop_state ext) :
  iteration self c st = Ok st' ->
  coord_preds st' =
    coord_preds st ++ [rescale_coords self (coords st') (call_down_ratio c)] /\
  exists dc,
    update_coords (call_B c) (call_N c) (call_S c) (coords st) dc
      (call_coords_backup c) = Ok (coords st').
Proof.
  unfold iteration. intros H.
  invert_bind H as fc Hfc. destruct fc as [fcorr_fn' fcorrs].
  invert_bind H as a Ha. invert_bind H as x Hx.
  invert_bind H as delta Hdelta. invert_bind H as delta' Hdelta'.
  invert_bind H as dc Hdc. invert_bind H as df Hdf.
  invert_bind H as tf Htf. invert_bind H as coords' Hcoords.
  inversion H; subst st'; clear H. cbn [coord_preds coords].
  split; [reflexivity |]. exists dc. exact Hcoords.
Qed.

Lemma refine_app (ext : externals) (self : BaseTrackerPredictor) (c : call)
    (n m : nat) (st : loop_state ext) :
  refine self c (n + m) st = (st' <- refine self c n st;; refine self c m st').
Proof.
  revert st. induction n as [| n IH]; intros st; cbn [refine Nat.add bind].
  - reflexivity.
  - destruct (iteration self c st) as [st1 | e]; cbn [bind]; [| reflexivity].
    apply IH.
Qed.

Lemma refine_length (ext : externals) (self : BaseTrackerPredictor) (c : call)
    (n : nat) (st st' : loop_state ext) :
  refine self c n st = Ok st' ->
  exists l, coord_preds st' = coord_preds st ++ l /\ length l = n.
Proof.
  revert st. induction n as [| n IH]; intros st; cbn [refine]; intros H.
  - inversion H. exists []. rewrite app_nil_r. auto.
  - invert_bind H as st1 H1.
    apply iteration_Ok in H1. destruct H1 as [Hp _].
    destruct (IH st1 H) as (l & Hl & Hn).
    exists (rescale_coords self (coords st1) (call_down_ratio c) :: l).
    rewrite Hl, Hp, <- app_assoc. cbn. auto.
Qed.

(** The snapshot at position [i] is the one that iteration [i] appended. *)
Lemma refine_snapshots (ext : externals) (self : BaseTrackerPredictor)
    (c : call) (n : nat) (st st' : loop_state ext) :
  refine self c n st = Ok st' ->
  forall i, i < n ->
  exists st_i,
    refine self c (S i) st = Ok st_i /\
    nth_error (coord_preds st') (length (coord_preds st) + i)
    = Some (rescale_coords self (coords st_i) (call_down_ratio c)).
Proof.
  revert st. induction n as [| n IH]; intros st H i Hi; [lia |].
  cbn [refine] in H. invert_bind H as st1 H1.
  destruct i as [| i].
  - exists st1. split.
    + cbn [refine]. rewrite H1. reflexivity.
    + apply iteration_Ok in H1. destruct H1 as [Hp _].
      apply refine_length in H. destruct H as (l & Hl & _).
      rewrite Hl, Hp, <- app_assoc, Nat.add_0_r.
      rewrite nth_error_app2 by lia. rewrite Nat.sub_diag. reflexivity.
  - destruct (IH st1 H i ltac:(lia)) as (st_i & Hr & Hnth).
    exists st_i. split.
    + change (refine self c (S (S i)) st)
        with (st' <- iteration self c st;; refine self c (S i) st').
      rewrite H1. exact Hr.
    + apply iteration_Ok in H1. destruct H1 as [Hp _].
      rewrite Hp, length_app in Hnth. cbn [length] in Hnth.
      replace (length (coord_preds st) + S i)
        with (length (coord_preds st) + 1 + i) by lia.
      exact Hnth.
Qed.

(** After any positive number of iterations, frame 0 of [coords] is
    frame 0 of the backup. *)
Lemma refine_anchor (ext : externals) (self : BaseTrackerPredictor) (c : call)
    (i : nat) (st st_i : loop_state ext) (B F N : nat) :
  refine self c (S i) st = Ok st_i ->
  shape (call_coords_backup c) = [B; F; N; 2] ->
  forall b n k, b < B -> n < N -> k < 2 ->
    entry (coords st_i) [b; 0; n; k] = entry (call_coords_backup c) [b; 0; n; k].
Proof.
  intros H Hs. replace (S i) with (i + 1) in H by lia.
  rewrite refine_app in H. invert_bind H as st_prev Hprev.
  cbn [refine] in H. invert_bind H as st_last Hlast.
  inversion H; subst st_last; clear H.
  apply iteration_Ok in Hlast. destruct Hlast as (_ & dc & Hu).
  exact (update_coords_anchor _ _ _ _ _ _ _ _ _ _ Hu Hs).
Qed.

(** ** The initial state *)

Lemma initial_coords_shape (q : tensor) (B N F : nat) :
  shape (initial_coords q B N F) = [B; F; N; 2].
Proof. cbn. repeat f_equal; lia. Qed.

Lemma reshape_entry_tail (t : tensor) (d0 d : nat) (s0 s idx idx' : list nat) :
  shape t = d0 :: s0 ->
  in_range (d :: s0) idx' ->
  ravel s idx = ravel (d :: s0) idx' ->
  entry (reshape_raw t s) idx = entry t idx'.
Proof.
  intros Hs Hr He. cbn [reshape_raw entry].
  rewrite Hs, (unravel_head d0 d), He, (unravel_ravel _ _ Hr). reflexivity.
Qed.

(** Every frame starts at the query point of its batch and track. *)
Lemma initial_coords_entry (q : tensor) (B0 B N F b s n c : nat) :
  shape q = [B0; N; 2] -> b < B -> s < F -> n < N -> c < 2 ->
  entry (initial_coords q B N F) [b; s; n; c] = entry q [b; n; c].
Proof.
  intros Hs Hb Hf Hn Hc. unfold initial_coords, repeat_raw, clone.
  cbn [entry shape rank reshape_raw length Nat.sub List.repeat app zip_with
       skipn].
  rewrite (Nat.mod_small b B), (Nat.mod_small n N), (Nat.mod_small c 2),
    Nat.mod_1_r by lia.
  change (entry q (unravel (shape q) (ravel [B; 1; N; 2] [b; 0; n; c])))
    with (entry (reshape_raw q [B; 1; N; 2]) [b; 0; n; c]).
  apply reshape_entry_tail with (d0 := B0) (d := B) (s0 := [N; 2]).
  - exact Hs.
  - cbn. lia.
  - cbn. lia.
Qed.

Lemma repeat_Ok (t t' : tensor) (reps : list nat) :
  repeat t reps = Ok t' -> rank t <= length reps /\ t' = repeat_raw t reps.
Proof.
  unfold repeat. destruct (rank t <=? length reps) eqn:E; intros H.
  - apply Nat.leb_le in E. inversion H. auto.
  - discriminate H.
Qed.

Lemma unsqueeze_Ok (t t' : tensor) (dim : nat) :
  unsqueeze t dim = Ok t' -> dim <= rank t /\ t' = unsqueeze_raw t dim.
Proof.
  unfold unsqueeze. destruct (dim <=? rank t) eqn:E; intros H.
  - apply Nat.leb_le in E. inversion H. auto.
  - discriminate H.
Qed.

Lemma prepare_Ok (ext : externals) (self : BaseTrackerPredictor)
    (query_points fmaps : tensor) (down_ratio : Q) (p : prepared ext) :
  prepare ext self query_points (Some fmaps) down_ratio = Ok p ->
  exists B0 N B F C HH WW,
    prepared_from self query_points fmaps down_ratio p B0 N B F C HH WW.
Proof.
  unfold prepare, unpack3, unpack5. intros H.
  destruct (shape query_points) as [| B0 [| N [| D [| x qs]]]] eqn:Hq;
    try discriminate H.
  cbn [bind] in H.
  destruct (shape fmaps) as [| B [| F [| C [| HH [| WW [| y fs]]]]]] eqn:Hf;
    try discriminate H.
  cbn [bind] in H.
  invert_bind H as u Hu. unfold assert in Hu.
  destruct (D =? 2) eqn:HD; [| discriminate Hu]. apply Nat.eqb_eq in HD.
  subst D.
  invert_bind H as r Hr. apply reshape_Ok in Hr. destruct Hr as [_ ->].
  invert_bind H as cs Hcs. apply repeat_Ok in Hcs. destruct Hcs as [_ ->].
  invert_bind H as f0 Hf0. apply select_Ok in Hf0.
  destruct Hf0 as (_ & HF & ->). rewrite Hf in HF. cbn in HF.
  invert_bind H as c0 Hc0. apply select_Ok in Hc0. destruct Hc0 as (_ & _ & ->).
  invert_bind H as qtf Hqtf.
  invert_bind H as un Hun. apply unsqueeze_Ok in Hun. destruct Hun as [_ ->].
  invert_bind H as tf Htf. apply repeat_Ok in Htf. destruct Htf as [_ ->].
  invert_bind H as fc Hfc.
  inversion H; subst p; clear H.
  exists B0, N, B, F, C, HH, WW.
  constructor; cbn [prep_call prep_state prep_query_points
                    prep_query_track_feat coords track_feats coord_preds
                    fcorr_fn]; try reflexivity; assumption.
Qed.

Lemma forward_Ok (ext : externals) (self : BaseTrackerPredictor)
    (query_points fmaps : tensor) (iters : Z) (return_feat : bool)
    (down_ratio : Q) (out : output) :
  forward ext self query_points (Some fmaps) iters return_feat down_ratio
  = Ok out ->
  exists p st,
    prepare ext self query_points (Some fmaps) down_ratio = Ok p /\
    refine self (prep_call p) (Z.to_nat iters) (prep_state p) = Ok st /\
    out_coord_preds out = coord_preds st /\
    predict_visibility ext self (call_B (prep_call p)) (call_N (prep_call p))
      (call_S (prep_call p)) (track_feats st) = Ok (out_vis_e out).
Proof.
  unfold forward. intros H.
  invert_bind H as p Hp. invert_bind H as st Hst. invert_bind H as vis Hvis.
  exists p, st. repeat split; try assumption.
  - destruct return_feat; inversion H; reflexivity.
  - destruct return_feat; inversion H; exact Hvis.
Qed.

(** ** The anchor invariant and the sequence of predictions *)

(** C2.  In a call that returns, after every iteration [i < iters] the
    frame 0 of [coords] is the scaled query point, for every batch and
    track and whatever the update function returned for that frame; the
    snapshot at position [i] of the returned list is taken from these
    re-anchored coordinates. *)
Theorem anchor_invariant (ext : externals) (self : BaseTrackerPredictor)
    (query_points fmaps : tensor) (iters : Z) (return_feat : bool)
    (down_ratio : Q) (out : output) :
  forward ext self query_points (Some fmaps) iters return_feat down_ratio
  = Ok out ->
  forall i, i < Z.to_nat iters ->
  exists p st_i,
    prepare ext self query_points (Some fmaps) down_ratio = Ok p /\
    refine self (prep_call p) (S i) (prep_state p) = Ok st_i /\
    nth_error (out_coord_preds out) i
    = Some (rescale_coords self (coords st_i) down_ratio) /\
    forall b n c,
      b < nth 0 (shape fmaps) 0 -> n < nth 1 (shape query_points) 0 -> c < 2 ->
      entry (coords st_i) [b; 0; n; c]
      = entry (scale_query_points self query_points down_ratio) [b; n; c].
Proof.
  intros H i Hi.
  apply forward_Ok in H. destruct H as (p & st & Hp & Hst & Hout & _).
  destruct (prepare_Ok _ _ _ _ _ _ Hp) as (B0 & N & B & F & C & HH & WW & Hpf).
  destruct (refine_snapshots _ _ _ _ _ _ Hst i Hi) as (st_i & Hi1 & Hnth).
  exists p, st_i. split; [exact Hp |]. split; [exact Hi1 |]. split.
  - rewrite Hout. rewrite (pf_coord_preds Hpf) in Hnth.
    cbn [length Nat.add] in Hnth.
    rewrite (pf_call Hpf) in Hnth. cbn [call_down_ratio] in Hnth. exact Hnth.
  - intros b n c Hb Hn Hc.
    rewrite (pf_fmaps_shape Hpf) in Hb. rewrite (pf_query_shape Hpf) in Hn.
    cbn [nth] in Hb, Hn.
    assert (Hs : shape (call_coords_backup (prep_call p)) = [B; F; N; 2]).
    { rewrite (pf_call Hpf). cbn [call_coords_backup].
      apply initial_coords_shape. }
    rewrite (refine_anchor _ _ _ _ _ _ _ _ _ Hi1 Hs b n c Hb Hn Hc).
    rewrite (pf_call Hpf). cbn [call_coords_backup].
    rewrite (pf_query_points Hpf).
    apply initial_coords_entry with (B0 := B0); try assumption.
    + unfold scale_query_points. destruct (gt_one down_ratio);
        [cbn [div_scalar map_entries shape] |]; exact (pf_query_shape Hpf).
    + exact (pf_frames Hpf).
Qed.

(** C4.  In a call with [iters >= 1] that returns, the list of predictions
    has [iters] elements; the element at position [i] is [coords] as
    iteration [i] left it, times [stride], and times [down_ratio] as well
    when [down_ratio > 1]. *)
Theorem prediction_sequence (ext : externals) (self : BaseTrackerPredictor)
    (query_points fmaps : tensor) (iters : Z) (return_feat : bool)
    (down_ratio : Q) (out : output) :
  (1 <= iters)%Z ->
  forward ext self query_points (Some fmaps) iters return_feat down_ratio
  = Ok out ->
  Z.of_nat (length (out_coord_preds out)) = iters /\
  forall i, i < Z.to_nat iters ->
  exists p st_i,
    prepare ext self query_points (Some fmaps) down_ratio = Ok p /\
    refine self (prep_call p) (S i) (prep_state p) = Ok st_i /\
    nth_error (out_coord_preds out) i
    = Some (if gt_one down_ratio
            then mul_scalar (mul_scalar (coords st_i) (Q2R (stride self)))
                            (Q2R down_ratio)
            else mul_scalar (coords st_i) (Q2R (stride self))).
Proof.
  intros Hiters H.
  apply forward_Ok in H. destruct H as (p & st & Hp & Hst & Hout & _).
  destruct (prepare_Ok _ _ _ _ _ _ Hp) as (B0 & N & B & F & C & HH & WW & Hpf).
  split.
  - apply refine_length in Hst. destruct Hst as (l & Hl & Hn).
    rewrite Hout, Hl, (pf_coord_preds Hpf). cbn [app]. rewrite Hn. lia.
  - intros i Hi.
    destruct (refine_snapshots _ _ _ _ _ _ Hst i Hi) as (st_i & Hi1 & Hnth).
    exists p, st_i. split; [exact Hp |]. split; [exact Hi1 |].
    rewrite Hout. rewrite (pf_coord_preds Hpf) in Hnth.
    cbn [length Nat.add] in Hnth.
    rewrite (pf_call Hpf) in Hnth. cbn [call_down_ratio] in Hnth.
    exact Hnth.
Qed.

Lemma anchor_invariant_witness :
  forward (stub_ext 1) demo_module demo_query_points (Some demo_fmaps) 2 false 2
  = Ok (demo_output 2 2) /\
  exists p st_i,
    prepare (stub_ext 1) demo_module demo_query_points (Some demo_fmaps) 2
    = Ok p /\
    refine demo_module (prep_call p) 2 (prep_state p) = Ok st_i /\
    nth_error (out_coord_preds (demo_output 2 2)) 1
    = Some (rescale_coords demo_module (coords st_i) 2) /\
    entry (coords st_i) [0; 0; 0; 0]
    = entry (scale_query_points demo_module demo_query_points 2) [0; 0; 0].
Proof.
  assert (H : forward (stub_ext 1) demo_module demo_query_points
                (Some demo_fmaps) 2 false 2 = Ok (demo_output 2 2))
    by reflexivity.
  split; [exact H |].
  destruct (anchor_invariant _ _ _ _ _ _ _ _ H 1 ltac:(cbn; lia))
    as (p & st_i & Hp & Hr & Hn & He).
  exists p, st_i. repeat split; try assumption.
  apply He; cbn; lia.
Defined.

Lemma prediction_sequence_witness :
  (1 <= 3)%Z /\
  forward (stub_ext 1) demo_module demo_query_points (Some demo_fmaps) 3 false 1
  = Ok (demo_output 3 1) /\
  Z.of_nat (length (out_coord_preds (demo_output 3 1))) = 3%Z /\
  exists p st_i,
    prepare (stub_ext 1) demo_module demo_query_points (Some demo_fmaps) 1
    = Ok p /\
    refine demo_module (prep_call p) 3 (prep_state p) = Ok st_i /\
    nth_error (out_coord_preds (demo_output 3 1)) 2
    = Some (mul_scalar (coords st_i) (Q2R (stride demo_module))).
Proof.
  assert (H : forward (stub_ext 1) demo_module demo_query_points
                (Some demo_fmaps) 3 false 1 = Ok (demo_output 3 1))
    by reflexivity.
  assert (H1 : (1 <= 3)%Z) by lia.
  split; [exact H1 |]. split; [exact H |].
  destruct (prediction_sequence _ _ _ _ _ _ _ _ H1 H) as [Hlen Hall].
  split; [exact Hlen |].
  destruct (Hall 2 ltac:(cbn; lia)) as (p & st_i & Hp & Hr & Hn).
  exists p, st_i. repeat split; assumption.
Defined.

(** ** The scaling of the query points *)




(** C1, at the input where the code departs from it.  With the default
    [down_ratio = 1] and [stride = 4], a query point at pixel (40, 40) is
    not divided by the stride: the initial coordinate is (40, 40), not
    (10, 10), and since the snapshot is still multiplied by the stride the
    returned entry of frame 0 is (160, 160), not (40, 40). *)
Theorem forward_default_down_ratio_skips_stride :
  exists p pred vis,
    prepare (stub_ext 1) demo_module demo_query_points (Some demo_fmaps) 1
    = Ok p /\
    entry (coords (prep_state p)) [0; 0; 0; 0] = 40%R /\
    entry (coords (prep_state p)) [0; 0; 0; 1] = 40%R /\
    forward (stub_ext 1) demo_module demo_query_points (Some demo_fmaps)
      1 false 1 = Ok (Tracks [pred] (Some vis)) /\
    shape pred = [1; 2; 1; 2] /\
    entry pred [0; 0; 0; 0] = 160%R /\
    entry pred [0; 0; 0; 1] = 160%R.
Proof.
  do 3 eexists.
  split; [reflexivity |]. split; [reflexivity |]. split; [reflexivity |].
  split; [reflexivity |]. split; [reflexivity |].
  cbn. unfold Q2R. cbn. split; lra.
Qed.

(** The same call with [down_ratio = 2] does what C1 says: the initial
    coordinate is [40 / 2 / 4 = 5] and the returned entry of frame 0 is
    [5 * 4 * 2 = 40]. *)
Lemma forward_down_ratio_two_round_trip :
  exists p pred vis,
    prepare (stub_ext 1) demo_module demo_query_points (Some demo_fmaps) 2
    = Ok p /\
    entry (coords (prep_state p)) [0; 0; 0; 0] = 5%R /\
    forward (stub_ext 1) demo_module demo_query_points (Some demo_fmaps)
      1 false 2 = Ok (Tracks [pred] (Some vis)) /\
    entry pred [0; 0; 0; 0] = 40%R.
Proof.
  do 3 eexists.
  split; [reflexivity |]. split; [cbn; unfold Q2R; cbn; lra |].
  split; [reflexivity |].
  cbn. unfold Q2R. cbn. lra.
Qed.

(** ** When the operations succeed *)

Lemma shape_eqb_refl (s : list nat) : shape_eqb s s = true.
Proof. apply shape_eqb_eq. reflexivity. Qed.

Lemma norm_dim_nat (r d : nat) : d < r -> norm_dim r (Z.of_nat d) = Some d.
Proof.
  intros H. unfold norm_dim.
  destruct (Z.leb_spec 0 (Z.of_nat d)); [| lia].
  destruct (Z.ltb_spec (Z.of_nat d) (Z.of_nat r)); [| lia].
  rewrite Nat2Z.id. reflexivity.
Qed.

Lemma norm_dim_last (r : nat) : 0 < r -> norm_dim r (-1) = Some (r - 1).
Proof.
  intros H. unfold norm_dim. cbn [Z.leb Z.compare].
  destruct (Z.leb_spec (- Z.of_nat r) (-1)); [| lia].
  f_equal. lia.
Qed.

Lemma slice_ok (t : tensor) (dim a : nat) (b : option nat) :
  dim < rank t -> slice t dim a b = Ok (slice_raw t dim a b).
Proof.
  intros H. unfold slice. apply Nat.ltb_lt in H. rewrite H. reflexivity.
Qed.

Lemma permute_ok (t : tensor) (dims : list nat) :
  length dims = rank t -> is_perm dims = true ->
  permute t dims = Ok (permute_raw t dims).
Proof.
  intros Hl Hp. unfold permute. apply Nat.eqb_eq in Hl. rewrite Hl, Hp.
  reflexivity.
Qed.

Lemma unsqueeze_ok (t : tensor) (dim : nat) :
  dim <= rank t -> unsqueeze t dim = Ok (unsqueeze_raw t dim).
Proof.
  intros H. unfold unsqueeze. apply Nat.leb_le in H. rewrite H. reflexivity.
Qed.

Lemma repeat_ok (t : tensor) (reps : list nat) :
  rank t <= length reps -> repeat t reps = Ok (repeat_raw t reps).
Proof.
  intros H. unfold repeat. apply Nat.leb_le in H. rewrite H. reflexivity.
Qed.

Lemma cat2_ok (dim : nat) (a b : tensor) :
  dim < rank a ->
  set_nth dim 0 (shape a) = set_nth dim 0 (shape b) ->
  cat2 (Z.of_nat dim) a b = Ok (cat2_raw dim a b).
Proof.
  intros Hd Hs. unfold cat2. rewrite (norm_dim_nat _ _ Hd), Hs, shape_eqb_refl.
  reflexivity.
Qed.

Lemma cat2_last_ok (a b : tensor) :
  0 < rank a ->
  set_nth (rank a - 1) 0 (shape a) = set_nth (rank a - 1) 0 (shape b) ->
  cat2 (-1) a b = Ok (cat2_raw (rank a - 1) a b).
Proof.
  intros Hd Hs. unfold cat2. rewrite (norm_dim_last _ Hd), Hs, shape_eqb_refl.
  reflexivity.
Qed.

Lemma binop_ok (f : R -> R -> R) (a b : tensor) (s : list nat) :
  broadcast_shapes (shape a) (shape b) = Some s ->
  binop f a b = Ok (binop_raw f s a b).
Proof. intros H. unfold binop. rewrite H. reflexivity. Qed.

Lemma bdim_same (x : nat) : bdim x x = Some x.
Proof. unfold bdim. rewrite Nat.eqb_refl. reflexivity. Qed.

Lemma bdim_one_r (x : nat) : bdim x 1 = Some x.
Proof.
  unfold bdim. destruct (x =? 1) eqn:E; [reflexivity |]. reflexivity.
Qed.

Lemma broadcast_rev_same (s : list nat) : broadcast_rev s s = Some s.
Proof.
  induction s as [| x s IH]; cbn [broadcast_rev]; [reflexivity |].
  rewrite bdim_same, IH. reflexivity.
Qed.

Lemma broadcast_shapes_same (s : list nat) : broadcast_shapes s s = Some s.
Proof.
  unfold broadcast_shapes. rewrite broadcast_rev_same. cbn.
  rewrite rev_involutive. reflexivity.
Qed.
(** ** The padding of the input of the update function *)

(** Lines 145 to 149 on an input and a flow embedding of rank 3. *)
Lemma pad_transformer_input_padded (self : BaseTrackerPredictor)
    (flows_emb unpadded : tensor) (M F w e : nat) :
  shape unpadded = [M; F; w] ->
  shape flows_emb = [M; F; e] ->
  (transformer_dim self - Z.of_nat w <= Z.of_nat e)%Z ->
  if (Z.of_nat w <? transformer_dim self)%Z then
    exists t,
      pad_transformer_input self flows_emb unpadded = Ok t /\
      shape t = [M; F; Z.to_nat (transformer_dim self)] /\
      forall i s k,
        (k < w -> entry t [i; s; k] = entry unpadded [i; s; k]) /\
        (w <= k -> entry t [i; s; k] = 0%R)
  else
    pad_transformer_input self flows_emb unpadded = Ok unpadded.
Proof.
  intros Hu Hf He. unfold pad_transformer_input, shape_at, rank.
  rewrite Hu. cbn [length Nat.ltb Nat.leb bind nth].
  destruct (Z.of_nat w <? transformer_dim self)%Z eqn:E; [| reflexivity].
  apply Z.ltb_lt in E.
  rewrite slice_ok by (unfold rank; rewrite Hf; cbn; lia).
  cbn [bind cat cat_from]. change 2%Z with (Z.of_nat 2).
  rewrite cat2_ok.
  - cbn [bind]. eexists. split; [reflexivity |].
    unfold rank.
    cbn [cat2_raw zeros_like slice_raw shape entry]. rewrite Hu, Hf.
    cbn [nth set_nth length Nat.sub]. split.
    + repeat f_equal. lia.
    + intros i s k. split; intros Hk.
      * apply Nat.ltb_lt in Hk. rewrite Hk. reflexivity.
      * apply Nat.ltb_ge in Hk. rewrite Hk. reflexivity.
  - unfold rank. rewrite Hu. cbn. lia.
  - unfold rank. cbn [zeros_like slice_raw shape]. rewrite Hu, Hf.
    reflexivity.
Qed.

(** The block of zeros cannot be wider than the flow embedding that it is
    cut from: with a deficit above [e] the padded width is [w + e]. *)
Lemma pad_transformer_input_short_embedding (self : BaseTrackerPredictor)
    (flows_emb unpadded : tensor) (M F w e : nat) :
  shape unpadded = [M; F; w] ->
  shape flows_emb = [M; F; e] ->
  (Z.of_nat e < transformer_dim self - Z.of_nat w)%Z ->
  exists t,
    pad_transformer_input self flows_emb unpadded = Ok t /\
    shape t = [M; F; w + e].
Proof.
  intros Hu Hf He. unfold pad_transformer_input, shape_at, rank.
  rewrite Hu. cbn [length Nat.ltb Nat.leb bind nth].
  destruct (Z.ltb_spec (Z.of_nat w) (transformer_dim self)); [| lia].
  rewrite slice_ok by (unfold rank; rewrite Hf; cbn; lia).
  cbn [bind cat cat_from]. change 2%Z with (Z.of_nat 2).
  rewrite cat2_ok.
  - cbn [bind]. eexists. split; [reflexivity |].
    unfold rank.
    cbn [cat2_raw zeros_like slice_raw shape entry]. rewrite Hu, Hf.
    cbn [nth set_nth length Nat.sub]. repeat f_equal. lia.
  - unfold rank. rewrite Hu. cbn. lia.
  - unfold rank. cbn [zeros_like slice_raw shape]. rewrite Hu, Hf.
    reflexivity.
Qed.
(** The deficit is within the flow embedding for the widths of the
    collaborators: a correlation of [corr_levels * (2 * corr_radius + 1)^2]
    columns and, before the two columns of the flow itself are appended,
    an embedding of at least [latent_dim / 2] columns in normal mode, of
    at least [2 * (latent_dim / 2)] columns in fine mode. *)
Lemma deficit_within_flow_embedding (ext : externals) (prm : learned) (st : Q)
    (lv rd lt hs : Z) (sa : bool) (dp : Z) (fn : bool) (cf : option Cfg)
    (self : BaseTrackerPredictor) (E : nat) :
  init ext prm st lv rd lt hs sa dp fn cf = Ok self ->
  (0 <= lv * (rd * 2 + 1) ^ 2)%Z ->
  (if fn then 2 * (Z.to_nat lt / 2) <= E /\ 2 <= Z.to_nat lt
   else Z.to_nat lt / 2 <= E) ->
  let e := E + 2 in
  let w := e + Z.to_nat (lv * (rd * 2 + 1) ^ 2) + Z.to_nat lt in
  (transformer_dim self - Z.of_nat w <= Z.of_nat e)%Z.
Proof.
  intros Hinit HK HE e w. apply init_Ok in Hinit.
  pose proof (con_latent_nonneg Hinit) as Hlt.
  rewrite (con_transformer_dim Hinit).
  unfold pad_transformer_dim, unpadded_dim, w, e.
  set (K := (lv * (rd * 2 + 1) ^ 2)%Z) in *.
  set (L := Z.to_nat lt) in *.
  assert (HL : Z.of_nat L = lt) by (unfold L; lia).
  pose proof (Nat.div_mod_eq L 2) as Hdm.
  pose proof (Nat.mod_upper_bound L 2 ltac:(lia)) as Hmod.
  rewrite !Nat2Z.inj_add, Z2Nat.id by exact HK. rewrite HL.
  destruct fn.
  - destruct HE as [HE HL2].
    destruct ((K + lt * 2) mod 2 =? 0)%Z; lia.
  - pose proof (Z.mod_pos_bound (4 - (K + lt * 2) mod 4) 4 eq_refl) as Hp.
    lia.
Qed.

(** ** The visibility head *)

Lemma logistic_range (v : R) : (0 < logistic v < 1)%R.
Proof.
  unfold logistic. pose proof (exp_pos (- v)) as He.
  split.
  - apply Rdiv_lt_0_compat; lra.
  - apply Rmult_lt_reg_r with (r := (1 + exp (- v))%R); [lra |].
    unfold Rdiv. rewrite Rmult_assoc, Rinv_l by lra. lra.
Qed.

Lemma sum_upto_ext (n : nat) (f g : nat -> R) :
  (forall i, i < n -> f i = g i) -> sum_upto n f = sum_upto n g.
Proof.
  induction n as [| n IH]; intros H; cbn [sum_upto]; [reflexivity |].
  rewrite IH by (intros i Hi; apply H; lia).
  rewrite (H n) by lia. reflexivity.
Qed.

Lemma add_mul_lt (a b x y : nat) : x < a -> y < b -> x * b + y < a * b.
Proof.
  intros Hx Hy. pose proof (Nat.mul_le_mono_r (S x) a b Hx) as H.
  cbn in H. lia.
Qed.

(** Lines 189 to 194 on track features of the regular shape. *)
Lemma predict_visibility_spec (ext : externals) (prm : learned) (st : Q)
    (lv rd lt : Z) (fn : bool) (self : BaseTrackerPredictor) (B N F : nat)
    (tf : tensor) :
  constructed ext prm st lv rd lt fn self ->
  shape tf = [B; F; N; Z.to_nat lt] ->
  if fn then
    vis_predictor self = None /\
    predict_visibility ext self B N F tf = Ok None
  else
    exists vis_e,
      predict_visibility ext self B N F tf = Ok (Some vis_e) /\
      shape vis_e = [B; F; N] /\
      forall b s n, b < B -> s < F -> n < N ->
        entry vis_e [b; s; n]
        = logistic (sum_upto (Z.to_nat lt)
                      (fun c => entry tf [b; s; n; c] * vis_weight prm 0 c)
                    + vis_bias prm 0)%R /\
        (0 < entry vis_e [b; s; n] < 1)%R.
Proof.
  intros Hinit Hs.
  unfold predict_visibility.
  rewrite (con_fine Hinit), (con_vis_predictor Hinit), (con_latent_dim Hinit).
  destruct fn; cbn [negb]; [split; reflexivity |].
  set (L := Z.to_nat lt) in *.
  rewrite reshape_ok by (rewrite Hs; cbn; lia).
  cbn [bind apply_sequential apply_layer].
  unfold apply_linear. cbn [reshape_raw shape last in_features].
  rewrite Nat.eqb_refl. cbn [bind removelast app out_features].
  rewrite reshape_ok by (cbn; lia).
  cbn [bind]. eexists. split; [reflexivity |]. split; [reflexivity |].
  intros b s n Hb Hf Hn.
  assert (Hk : ravel [B; F; N] [b; s; n] < B * F * N).
  { pose proof (ravel_lt [B; F; N] [b; s; n]) as Hr. cbn in Hr. cbn. 
    specialize (Hr ltac:(lia)). lia. }
  split; [| apply logistic_range].
  cbn [sigmoid map_entries entry]. f_equal.
  rewrite (reshape_entry _ [B; F; N] [b; s; n] [ravel [B; F; N] [b; s; n]; 0]).
  - cbn [entry removelast last app weight bias]. f_equal.
    apply sum_upto_ext. intros c Hc. f_equal.
    apply reshape_entry.
    + rewrite Hs. cbn. lia.
    + rewrite Hs. cbn. lia.
  - cbn [shape in_range]. lia.
  - cbn [shape]. cbn. lia.
Qed.

(** ** A call without iterations *)

Lemma initial_track_feats_shape (qtf : tensor) (B N L F : nat) :
  shape qtf = [B; N; L] ->
  shape (initial_track_feats qtf F) = [B; F; N; L].
Proof.
  intros H. unfold initial_track_feats, repeat_raw, unsqueeze_raw, rank.
  cbn [shape]. rewrite H. cbn. repeat f_equal; lia.
Qed.

(** Every frame starts with the features sampled in the query frame. *)
Lemma initial_track_feats_entry (qtf : tensor) (B N L F b s n c : nat) :
  shape qtf = [B; N; L] -> b < B -> s < F -> n < N -> c < L ->
  entry (initial_track_feats qtf F) [b; s; n; c] = entry qtf [b; n; c].
Proof.
  intros H Hb Hs Hn Hc.
  unfold initial_track_feats, repeat_raw, unsqueeze_raw, rank.
  cbn [shape entry]. rewrite H.
  cbn [insert_at firstn skipn app length Nat.sub List.repeat zip_with remove_at].
  rewrite (Nat.mod_small b B), (Nat.mod_small n N), (Nat.mod_small c L) by lia.
  reflexivity.
Qed.

(** C10.  A call with [iters = 0] on inputs of the regular shapes, whose
    collaborators sample the query features and build the correlation
    block, returns: the list of predictions is empty; in fine mode there
    is no visibility; otherwise the visibility at (b, s, n) is the
    logistic function of the affine form of the features sampled at the
    query point of (b, n) in frame 0, the same for every frame [s]. *)
Theorem forward_zero_iterations (ext : externals) (prm : learned) (st : Q)
    (lv rd lt hs : Z) (sa : bool) (dp : Z) (fn : bool) (cf : option Cfg)
    (self : BaseTrackerPredictor) (query_points fmaps : tensor)
    (return_feat : bool) (down_ratio : Q) (B N F HH WW : nat)
    (query_track_feat : tensor) :
  init ext prm st lv rd lt hs sa dp fn cf = Ok self ->
  shape query_points = [B; N; 2] ->
  shape fmaps = [B; F; Z.to_nat lt; HH; WW] ->
  0 < F ->
  sample_features4d ext (select_raw fmaps 1 0)
    (select_raw
       (initial_coords (scale_query_points self query_points down_ratio) B N F)
       1 0)
  = Ok query_track_feat ->
  shape query_track_feat = [B; N; Z.to_nat lt] ->
  succeeds (make_fcorr ext self fmaps) ->
  exists vis_e,
    forward ext self query_points (Some fmaps) 0 return_feat down_ratio
    = Ok (if return_feat
          then TracksAndFeats [] vis_e
                 (initial_track_feats query_track_feat F) query_track_feat
          else Tracks [] vis_e) /\
    if fn then vis_e = None
    else
      exists v,
        vis_e = Some v /\
        shape v = [B; F; N] /\
        forall b s n, b < B -> s < F -> n < N ->
          entry v [b; s; n]
          = logistic (sum_upto (Z.to_nat lt)
                        (fun c => entry query_track_feat [b; n; c]
                                  * vis_weight prm 0 c)
                      + vis_bias prm 0)%R.
Proof.
  intros Hinit Hq Hf HF Hsample Hqtf [fc Hfc].
  apply init_Ok in Hinit.
  pose proof (initial_track_feats_shape query_track_feat B N (Z.to_nat lt) F
                Hqtf) as Htf.
  pose proof (predict_visibility_spec ext prm st lv rd lt fn self B N F
                (initial_track_feats query_track_feat F) Hinit Htf) as Hvis.
  assert (Hfwd : forall vis_e,
             predict_visibility ext self B N F
               (initial_track_feats query_track_feat F) = Ok vis_e ->
             forward ext self query_points (Some fmaps) 0 return_feat
               down_ratio
             = Ok (if return_feat
                   then TracksAndFeats [] vis_e
                          (initial_track_feats query_track_feat F)
                          query_track_feat
                   else Tracks [] vis_e)).
  { intros vis_e Hv. unfold forward, prepare, unpack3, unpack5.
    rewrite Hq. cbn [bind]. rewrite Hf. cbn [bind assert Nat.eqb].
    assert (Hsq : shape (scale_query_points self query_points down_ratio)
                  = [B; N; 2]).
    { unfold scale_query_points. destruct (gt_one down_ratio); exact Hq. }
    rewrite reshape_ok by (unfold clone; rewrite Hsq; cbn; lia).
    cbn [bind]. rewrite repeat_ok by (cbn; lia). cbn [bind].
    rewrite select_ok by (unfold rank; rewrite Hf; cbn; lia). cbn [bind].
    fold (initial_coords (scale_query_points self query_points down_ratio)
            B N F).
    rewrite select_ok
      by (unfold rank; rewrite initial_coords_shape; cbn; lia).
    cbn [bind]. rewrite Hsample. cbn [bind].
    rewrite unsqueeze_ok by (unfold rank; rewrite Hqtf; cbn; lia).
    cbn [bind].
    rewrite repeat_ok
      by (unfold rank; cbn [unsqueeze_raw shape]; rewrite Hqtf; cbn; lia).
    cbn [bind]. rewrite Hfc.
    cbn [bind Z.to_nat refine prep_call prep_state call_B call_N call_S
         track_feats coord_preds prep_query_track_feat].
    fold (initial_track_feats query_track_feat F).
    rewrite Hv. cbn [bind]. destruct return_feat; reflexivity. }
  destruct fn.
  - destruct Hvis as [_ Hv]. exists None. split; [exact (Hfwd _ Hv) | reflexivity].
  - destruct Hvis as (v & Hv & Hsv & Hev).
    exists (Some v). split; [exact (Hfwd _ Hv) |].
    exists v. split; [reflexivity |]. split; [exact Hsv |].
    intros b s n Hb Hs Hn.
    destruct (Hev b s n Hb Hs Hn) as [-> _]. f_equal. f_equal.
    apply sum_upto_ext. intros c Hc. f_equal.
    apply initial_track_feats_entry with (B := B) (N := N) (L := Z.to_nat lt);
      assumption.
Qed.

Lemma forward_zero_iterations_witness :
  init (stub_ext 1) stub_learned 4%Q 5%Z 4%Z 128%Z 384%Z true 6%Z false
    (Some (mkCfg false)) = Ok demo_module /\
  shape demo_query_points = [1; 1; 2] /\
  shape demo_fmaps = [1; 2; Z.to_nat 128; 8; 8] /\
  0 < 2 /\
  sample_features4d (stub_ext 1) (select_raw demo_fmaps 1 0)
    (select_raw
       (initial_coords (scale_query_points demo_module demo_query_points 1)
          1 1 2) 1 0)
  = Ok (constant [1; 1; 128] 0) /\
  shape (constant [1; 1; 128] 0) = [1; 1; Z.to_nat 128] /\
  succeeds (make_fcorr (stub_ext 1) demo_module demo_fmaps) /\
  exists vis_e,
    forward (stub_ext 1) demo_module demo_query_points (Some demo_fmaps) 0
      false 1 = Ok (Tracks [] vis_e) /\
    exists v, vis_e = Some v /\ shape v = [1; 2; 1].
Proof.
  assert (Hi : init (stub_ext 1) stub_learned 4%Q 5%Z 4%Z 128%Z 384%Z true
                 6%Z false (Some (mkCfg false)) = Ok demo_module)
    by (apply init_stub; lia).
  assert (Hq : shape demo_query_points = [1; 1; 2]) by reflexivity.
  assert (Hf : shape demo_fmaps = [1; 2; Z.to_nat 128; 8; 8]) by reflexivity.
  assert (HF : 0 < 2) by lia.
  assert (Hs : sample_features4d (stub_ext 1) (select_raw demo_fmaps 1 0)
                 (select_raw
                    (initial_coords
                       (scale_query_points demo_module demo_query_points 1)
                       1 1 2) 1 0)
               = Ok (constant [1; 1; 128] 0)) by reflexivity.
  assert (Hqtf : shape (constant [1; 1; 128] 0) = [1; 1; Z.to_nat 128])
    by reflexivity.
  assert (Hc : succeeds (make_fcorr (stub_ext 1) demo_module demo_fmaps))
    by (eexists; reflexivity).
  repeat (split; [assumption |]).
  destruct (forward_zero_iterations _ _ _ _ _ _ _ _ _ _ _ _ _ _ false 1%Q
              _ _ _ _ _ _ Hi Hq Hf HF Hs Hqtf Hc) as (vis_e & Hfw & Hv).
  exists vis_e. split; [exact Hfw |].
  destruct Hv as (v & Hv & Hsv & _). exists v. auto.
Defined.

(** ** The positional embedding *)

Lemma stretch_one (d i : nat) : i < d -> (if d =? 1 then 0 else i) = i.
Proof.
  intros H. destruct (d =? 1) eqn:E; [| reflexivity].
  apply Nat.eqb_eq in E. lia.
Qed.

Lemma rearrange_split_b_ok (t : tensor) (B N F D : nat) :
  0 < B -> shape t = [B * N; F; D] ->
  rearrange_split_b t B = Ok (reshape_raw t [B; N; F; D]).
Proof.
  intros HB Hs. unfold rearrange_split_b. rewrite Hs.
  destruct (B =? 0) eqn:E; [apply Nat.eqb_eq in E; lia |].
  rewrite (Nat.mul_comm B N), Nat.Div0.mod_mul, Nat.div_mul by lia.
  cbn [Nat.eqb]. apply reshape_ok. rewrite Hs. cbn. lia.
Qed.

(** Lines 151 to 160 on tensors of the regular shapes. *)
Lemma updateformer_input_spec (ext : externals)
    (self : BaseTrackerPredictor) (B N F HH WW D : nat)
    (coords transformer_input pos_embed sampled_pos_emb : tensor) :
  0 < B -> 0 < F ->
  shape coords = [B; F; N; 2] ->
  shape transformer_input = [B * N; F; D] ->
  get_2d_sincos_pos_embed ext (transformer_dim self) (HH, WW) = Ok pos_embed ->
  shape pos_embed = [1; D; HH; WW] ->
  sample_features4d ext (expand_raw pos_embed [B; D; HH; WW])
    (select_raw coords 1 0) = Ok sampled_pos_emb ->
  shape sampled_pos_emb = [B; N; D] ->
  exists x,
    updateformer_input ext self B HH WW coords transformer_input = Ok x /\
    shape x = [B; N; F; D] /\
    forall b n s k, b < B -> n < N -> s < F -> k < D ->
      entry x [b; n; s; k]
      = (entry transformer_input [b * N + n; s; k]%nat
         + entry sampled_pos_emb [b; n; k])%R.
Proof.
  intros HB HF Hc Hti Hpos Hps Hsample Hpe.
  unfold updateformer_input, sample_pos_emb.
  rewrite Hpos. cbn [bind].
  unfold expand. rewrite Hps. cbn [expand_shape expand_dim].
  rewrite Nat.eqb_refl, orb_true_r. cbn [bind].
  rewrite select_ok by (unfold rank; rewrite Hc; cbn; lia). cbn [bind].
  rewrite Hsample. cbn [bind].
  unfold rearrange_bn_c. rewrite Hpe.
  rewrite reshape_ok by (rewrite Hpe; cbn; lia). cbn [bind].
  rewrite unsqueeze_ok by (cbn; lia). cbn [bind].
  unfold add.
  rewrite (binop_ok Rplus _ _ [B * N; F; D]).
  2:{ rewrite Hti.
      cbn [unsqueeze_raw reshape_raw shape insert_at firstn skipn app].
      unfold broadcast_shapes. cbn [rev app broadcast_rev].
      rewrite !bdim_same, bdim_one_r. reflexivity. }
  cbn [bind].
  rewrite (rearrange_split_b_ok _ B N F D) by (try assumption; reflexivity).
  eexists. split; [reflexivity |]. split; [reflexivity |].
  intros b n s k Hb Hn Hs Hk.
  pose proof (add_mul_lt B N b n Hb Hn) as Hbn.
  rewrite (reshape_entry _ [B; N; F; D] [b; n; s; k] [b * N + n; s; k]).
  2:{ cbn [binop_raw shape in_range]. lia. }
  2:{ cbn. lia. }
  cbn [binop_raw entry]. rewrite Hti.
  rewrite bcast_index_in_range by (cbn; lia). f_equal.
  cbn [unsqueeze_raw reshape_raw shape insert_at firstn skipn app entry].
  unfold bcast_index. cbn [length Nat.sub skipn stretch_index zip_with Nat.eqb].
  rewrite (stretch_one (B * N)), (stretch_one D) by lia.
  cbn [remove_at firstn skipn app].
  change (entry sampled_pos_emb
            (unravel (shape sampled_pos_emb) (ravel [B * N; D] [b * N + n; k])))
    with (entry (reshape_raw sampled_pos_emb [B * N; D]) [b * N + n; k]).
  apply reshape_entry.
  - rewrite Hpe. cbn. lia.
  - rewrite Hpe. cbn. lia.
Qed.

(** ** The update of the track features *)

Lemma is_perm_0213 : is_perm [0; 2; 1; 3] = true.
Proof. reflexivity. Qed.

(** With one group, the group of every channel is the whole row. *)
Lemma group_member_one (g : GroupNorm) (r c j : nat) :
  num_groups g = 1 -> c < num_channels g ->
  group_member g r c j = [r; j].
Proof.
  intros Hg Hc. unfold group_member. rewrite Hg, Nat.div_1_r.
  rewrite (Nat.div_small c) by exact Hc. reflexivity.
Qed.

Lemma group_norm_entry_one (prm : learned) (L : nat) (x : tensor) (r c : nat) :
  c < L ->
  group_norm_entry
    (mkGroupNorm 1 L (1 / 100000)%R (norm_weight prm) (norm_bias prm)) x r c
  = normalized prm L (fun j => entry x [r; j]) c.
Proof.
  intros Hc. unfold group_norm_entry, normalized, group_var, group_mean.
  cbn [num_groups num_channels eps gn_weight gn_bias]. rewrite Nat.div_1_r.
  assert (Hm : forall j,
             group_member
               (mkGroupNorm 1 L (1 / 100000)%R (norm_weight prm)
                  (norm_bias prm)) r c j = [r; j]).
  { intros j. apply group_member_one; [reflexivity | exact Hc]. }
  unfold row_var, row_mean.
  rewrite (sum_upto_ext L _ (fun j => entry x [r; j]))
    by (intros j _; rewrite Hm; reflexivity).
  rewrite (sum_upto_ext L
             (fun j => ((entry x (group_member _ r c j) - _)
                        * (entry x (group_member _ r c j) - _))%R)
             (fun j =>
                ((entry x [r; j]
                  - sum_upto L (fun j0 => entry x [r; j0]) / INR L)
                 * (entry x [r; j]
                    - sum_upto L (fun j0 => entry x [r; j0]) / INR L))%R))
    by (intros j _; rewrite Hm; reflexivity).
  reflexivity.
Qed.

Lemma normalized_ext (prm : learned) (L : nat) (f g : nat -> R) (c : nat) :
  (forall j, j < L -> f j = g j) -> c < L ->
  normalized prm L f c = normalized prm L g c.
Proof.
  intros H Hc. unfold normalized, row_var, row_mean.
  rewrite (sum_upto_ext L f g H).
  rewrite (sum_upto_ext L
             (fun j => ((f j - sum_upto L g / INR L)
                        * (f j - sum_upto L g / INR L))%R)
             (fun j => ((g j - sum_upto L g / INR L)
                        * (g j - sum_upto L g / INR L))%R))
    by (intros j Hj; rewrite (H j Hj); reflexivity).
  rewrite (H c Hc). reflexivity.
Qed.

Lemma update_track_feats_spec (ext : externals) (prm : learned) (st : Q)
    (lv rd lt : Z) (fn : bool) (self : BaseTrackerPredictor) (B N F : nat)
    (old delta_feats_ : tensor) :
  constructed ext prm st lv rd lt fn self ->
  shape old = [B; F; N; Z.to_nat lt] ->
  shape delta_feats_ = [B * N; F; Z.to_nat lt] ->
  B * N * F * Z.to_nat lt <> 1 ->
  exists new,
    update_track_feats ext self B N F
      (reshape_raw (permute_raw old [0; 2; 1; 3]) [B * N; F; Z.to_nat lt])
      delta_feats_ = Ok new /\
    shape new = [B; F; N; Z.to_nat lt] /\
    forall b s n c, b < B -> s < F -> n < N -> c < Z.to_nat lt ->
      entry new [b; s; n; c]
      = (feature_update (erf ext) prm (Z.to_nat lt)
           (fun j => entry delta_feats_ [b * N + n; s; j]%nat) c
         + entry old [b; s; n; c])%R.
Proof.
  intros Hinit Hold Hdelta Hone.
  unfold update_track_feats.
  rewrite (con_latent_dim Hinit), (con_norm Hinit), (con_ffeat_updater Hinit).
  set (L := Z.to_nat lt) in *.
  rewrite reshape_ok by (cbn; lia). cbn [bind].
  rewrite reshape_ok by (rewrite Hdelta; cbn; lia). cbn [bind].
  unfold apply_group_norm. cbn [reshape_raw shape num_groups num_channels].
  rewrite Nat.div_1_r.
  destruct (B * N * F * L =? 1) eqn:E1; [apply Nat.eqb_eq in E1; lia |].
  rewrite Nat.eqb_refl. cbn [bind apply_sequential apply_layer].
  unfold apply_linear. cbn [shape last in_features]. rewrite Nat.eqb_refl.
  cbn [bind removelast app out_features].
  unfold add. rewrite (binop_ok Rplus _ _ [B * N * F; L])
    by (cbn [map_entries shape]; apply broadcast_shapes_same).
  cbn [bind]. rewrite reshape_ok by (cbn; lia). cbn [bind].
  rewrite permute_ok by reflexivity.
  eexists. split; [reflexivity |]. split; [reflexivity |].
  intros b s n c Hb Hs Hn Hc.
  pose proof (add_mul_lt B N b n Hb Hn) as Hbn.
  pose proof (add_mul_lt (B * N) F (b * N + n) s Hbn Hs) as Hbns.
  cbn [permute_raw entry map seq length index_of Nat.eqb nth].
  rewrite (reshape_entry _ [B; N; F; L] [b; n; s; c] [(b * N + n) * F + s; c]).
  2:{ cbn [binop_raw shape in_range]. lia. }
  2:{ cbn. lia. }
  cbn [binop_raw entry map_entries shape].
  rewrite bcast_index_in_range by (cbn; lia).
  f_equal.
  - unfold feature_update. cbn [removelast last app weight bias]. f_equal. f_equal.
    apply sum_upto_ext. intros j Hj. f_equal.
    rewrite group_norm_entry_one by (cbn; exact Hj).
    cbn [nth]. apply normalized_ext; [| exact Hj].
    intros i Hi.
    apply reshape_entry.
    + rewrite Hdelta. cbn. lia.
    + rewrite Hdelta. cbn. lia.
  - rewrite bcast_index_in_range by (cbn; lia).
    rewrite (reshape_entry _ [B * N * F; L] [(b * N + n) * F + s; c]
               [b * N + n; s; c]).
    2:{ cbn [reshape_raw shape in_range]. lia. }
    2:{ cbn. lia. }
    rewrite (reshape_entry _ [B * N; F; L] [b * N + n; s; c] [b; n; s; c]).
    2:{ cbn [permute_raw shape map nth]. rewrite Hold. cbn. lia. }
    2:{ cbn [permute_raw shape map nth]. rewrite Hold. cbn. lia. }
    reflexivity.
Qed.

(** ** The steps of an iteration *)

Lemma permute_Ok (t t' : tensor) (dims : list nat) :
  permute t dims = Ok t' -> t' = permute_raw t dims.
Proof.
  unfold permute. destruct ((length dims =? rank t) && is_perm dims);
    intros H; inversion H. reflexivity.
Qed.

Lemma slice_Ok (t t' : tensor) (dim a : nat) (b : option nat) :
  slice t dim a b = Ok t' -> t' = slice_raw t dim a b.
Proof.
  unfold slice. destruct (dim <? rank t); intros H; inversion H. reflexivity.
Qed.

Lemma rearrange_merge_b_Ok (t t' : tensor) (B N F D : nat) :
  shape t = [B; N; F; D] ->
  rearrange_merge_b t B = Ok t' -> t' = reshape_raw t [B * N; F; D].
Proof.
  intros Hs. unfold rearrange_merge_b. rewrite Hs, Nat.eqb_refl.
  intros H. apply reshape_Ok in H. tauto.
Qed.

(** The tensors that lines 128 to 149 hand to the later lines. *)
Lemma assemble_input_Ok (ext : externals) (self : BaseTrackerPredictor)
    (B N F : nat) (coords track_feats fcorrs : tensor) (a : assembled) :
  assemble_input ext self B N F coords track_feats fcorrs = Ok a ->
  asm_track_feats_ a
  = reshape_raw (permute_raw track_feats [0; 2; 1; 3])
      [B * N; F; Z.to_nat (latent_dim self)] /\
  pad_transformer_input self (asm_flows_emb a) (asm_unpadded a)
  = Ok (asm_transformer_input a) /\
  exists fcorrs_,
    cat [asm_flows_emb a; fcorrs_; asm_track_feats_ a] 2
    = Ok (asm_unpadded a).
Proof.
  unfold assemble_input. intros H.
  invert_bind H as corrdim Hcd. invert_bind H as p1 Hp1.
  invert_bind H as fcorrs_ Hfc. invert_bind H as c0 Hc0.
  invert_bind H as d Hd. invert_bind H as p2 Hp2.
  invert_bind H as flows Hfl. invert_bind H as emb Hemb.
  invert_bind H as emb' Hemb'. invert_bind H as p3 Hp3.
  invert_bind H as tf_ Htf. invert_bind H as unp Hunp.
  invert_bind H as ti Hti.
  inversion H; subst a; clear H.
  cbn [asm_track_feats_ asm_flows_emb asm_unpadded asm_transformer_input].
  apply permute_Ok in Hp3. subst p3.
  apply reshape_Ok in Htf. destruct Htf as [_ ->].
  split; [reflexivity |]. split; [exact Hti |].
  exists fcorrs_. exact Hunp.
Qed.

(** The runs of the steps of an iteration that returns. *)
Lemma iteration_steps (ext : externals) (self : BaseTrackerPredictor)
    (c : call) (st st' : loop_state ext) :
  iteration self c st = Ok st' ->
  exists fc fcorrs a x delta delta' dc df,
    sample_fcorr (fcorr_fn st) (coords st) (track_feats st) = Ok (fc, fcorrs)
    /\ assemble_input ext self (call_B c) (call_N c) (call_S c) (coords st)
         (track_feats st) fcorrs = Ok a
    /\ updateformer_input ext self (call_B c) (call_HH c) (call_WW c)
         (coords st) (asm_transformer_input a) = Ok x
    /\ updateformer self x = Ok delta
    /\ rearrange_merge_b delta (call_B c) = Ok delta'
    /\ slice delta' 2 0 (Some 2) = Ok dc
    /\ slice delta' 2 2 None = Ok df
    /\ update_track_feats ext self (call_B c) (call_N c) (call_S c)
         (asm_track_feats_ a) df = Ok (track_feats st')
    /\ update_coords (call_B c) (call_N c) (call_S c) (coords st) dc
         (call_coords_backup c) = Ok (coords st').
Proof.
  unfold iteration, detach. intros H.
  invert_bind H as fcs Hfcs. destruct fcs as [fc fcorrs].
  invert_bind H as a Ha. invert_bind H as x Hx.
  invert_bind H as delta Hdelta. invert_bind H as delta' Hdelta'.
  invert_bind H as dc Hdc. invert_bind H as df Hdf.
  invert_bind H as tf Htf. invert_bind H as coords' Hcoords.
  inversion H; subst st'; clear H. cbn [coords track_feats].
  exists fc, fcorrs, a, x, delta, delta', dc, df. repeat split; assumption.
Qed.

(** The regular shape of the track features is kept by every iteration
    that returns. *)
Lemma iteration_track_feats_shape (ext : externals)
    (self : BaseTrackerPredictor) (c : call) (st st' : loop_state ext) :
  iteration self c st = Ok st' ->
  shape (track_feats st')
  = [call_B c; call_S c; call_N c; Z.to_nat (latent_dim self)].
Proof.
  intros H.
  destruct (iteration_steps _ _ _ _ _ H)
    as (fc & fcorrs & a & x & delta & delta' & dc & df
        & _ & _ & _ & _ & _ & _ & _ & Hupd & _).
  unfold update_track_feats in Hupd.
  invert_bind Hupd as t1 H1. invert_bind Hupd as t2 H2.
  invert_bind Hupd as t3 H3. invert_bind Hupd as t4 H4.
  invert_bind Hupd as t5 H5. invert_bind Hupd as t6 H6.
  apply reshape_Ok in H6. destruct H6 as [_ ->].
  apply permute_Ok in Hupd. rewrite Hupd. reflexivity.
Qed.

(** [F.group_norm] refuses the one case of a single value in the whole
    batch, so an iteration that returns was not in it. *)
Lemma update_track_feats_single_value (ext : externals) (prm : learned)
    (st : Q) (lv rd lt : Z) (fn : bool) (self : BaseTrackerPredictor)
    (B N F : nat) (old delta_feats_ : tensor) :
  constructed ext prm st lv rd lt fn self ->
  shape delta_feats_ = [B * N; F; Z.to_nat lt] ->
  B * N * F * Z.to_nat lt = 1 ->
  update_track_feats ext self B N F
    (reshape_raw (permute_raw old [0; 2; 1; 3]) [B * N; F; Z.to_nat lt])
    delta_feats_ = Err ValueError.
Proof.
  intros Hinit Hdelta Hone.
  unfold update_track_feats.
  rewrite (con_latent_dim Hinit), (con_norm Hinit).
  set (L := Z.to_nat lt) in *.
  rewrite reshape_ok by (cbn; lia). cbn [bind].
  rewrite reshape_ok by (rewrite Hdelta; cbn; lia). cbn [bind].
  unfold apply_group_norm. cbn [reshape_raw shape num_groups num_channels].
  rewrite Nat.div_1_r, Hone. reflexivity.
Qed.

(** C8.  In an iteration that returns, on track features of the regular
    shape and an update function whose output has [latent_dim + 2]
    channels: the new track features are the old ones plus the update,
    entry by entry; the update is the activation of the affine map of the
    deltas normalised over all the channels of their row (one group), and
    the old features enter the sum only. *)
Theorem track_feats_residual_update (ext : externals) (prm : learned) (st : Q)
    (lv rd lt hs : Z) (sa : bool) (dp : Z) (fn : bool) (cf : option Cfg)
    (self : BaseTrackerPredictor) (c : call) (s0 s1 : loop_state ext) :
  init ext prm st lv rd lt hs sa dp fn cf = Ok self ->
  iteration self c s0 = Ok s1 ->
  shape (track_feats s0)
  = [call_B c; call_S c; call_N c; Z.to_nat lt] ->
  (forall x delta,
     update_input_in self c s0 x ->
     updateformer self x = Ok delta ->
     shape delta = [call_B c; call_N c; call_S c; Z.to_nat lt + 2]) ->
  exists x delta,
    update_input_in self c s0 x /\
    updateformer self x = Ok delta /\
    shape (track_feats s1) = [call_B c; call_S c; call_N c; Z.to_nat lt] /\
    forall b s n k,
      b < call_B c -> s < call_S c -> n < call_N c -> k < Z.to_nat lt ->
      entry (track_feats s1) [b; s; n; k]
      = (feature_update (erf ext) prm (Z.to_nat lt)
           (fun j => entry delta [b; n; s; 2 + j]%nat) k
         + entry (track_feats s0) [b; s; n; k])%R.
Proof.
  intros Hinit Hit Htf Hcontract.
  apply init_Ok in Hinit.
  destruct (iteration_steps _ _ _ _ _ Hit)
    as (fc & fcorrs & a & x & delta & delta' & dc & df
        & Hfc & Ha & Hx & Hdelta & Hmerge & _ & Hdf & Hupd & _).
  assert (Hin : update_input_in self c s0 x).
  { exists a. split; [exists fc, fcorrs; split; assumption | exact Hx]. }
  pose proof (Hcontract x delta Hin Hdelta) as Hsd.
  clear Hcontract Hfc Hx.
  destruct c as [B N F HH WW backup d]. cbn [call_B call_N call_S] in *.
  set (L := Z.to_nat lt) in *.
  apply (rearrange_merge_b_Ok _ _ B N F (L + 2) Hsd) in Hmerge. subst delta'.
  apply slice_Ok in Hdf. subst df.
  apply assemble_input_Ok in Ha. destruct Ha as [Ha _].
  rewrite Ha, (con_latent_dim Hinit) in Hupd. fold L in Hupd.
  assert (Hsdf : shape (slice_raw (reshape_raw delta [B * N; F; L + 2]) 2 2 None)
                 = [B * N; F; L]).
  { cbn [slice_raw reshape_raw shape nth set_nth]. repeat f_equal. lia. }
  destruct (Nat.eq_dec (B * N * F * L) 1) as [Hone | Hone].
  { pose proof (update_track_feats_single_value ext prm st lv rd lt fn self
                  B N F (track_feats s0) _ Hinit Hsdf Hone) as Hfail.
    fold L in Hfail. rewrite Hfail in Hupd. discriminate Hupd. }
  destruct (update_track_feats_spec ext prm st lv rd lt fn self B N F
              (track_feats s0) _ Hinit Htf Hsdf Hone)
    as (new & Hnew & Hsnew & Henew).
  fold L in Hnew. rewrite Hnew in Hupd. inversion Hupd; subst new; clear Hupd.
  exists x, delta. split; [exact Hin |].
  split; [exact Hdelta |]. split; [exact Hsnew |].
  intros b s n k Hb Hs Hn Hk.
  rewrite (Henew b s n k Hb Hs Hn Hk). f_equal.
  unfold feature_update. f_equal. f_equal.
  apply sum_upto_ext. intros i Hi. f_equal.
  apply normalized_ext; [| exact Hi].
  intros j Hj.
  pose proof (add_mul_lt B N b n Hb Hn) as Hbn.
  cbn [slice_raw entry reshape_raw shape nth set_nth].
  replace (j + Nat.min 2 (L + 2)) with (2 + j) by lia.
  change (entry delta (unravel (shape delta)
                         (ravel [B * N; F; L + 2] [b * N + n; s; 2 + j])))
    with (entry (reshape_raw delta [B * N; F; L + 2]) [b * N + n; s; 2 + j]).
  apply reshape_entry.
  - rewrite Hsd. cbn. lia.
  - rewrite Hsd. cbn. lia.
Qed.

Lemma rearrange_split_b_nonzero (t t' : tensor) (B : nat) :
  rearrange_split_b t B = Ok t' -> 0 < B.
Proof.
  unfold rearrange_split_b.
  destruct (shape t) as [| bn [| s [| d [| y l]]]]; try discriminate.
  destruct (B =? 0) eqn:E; [discriminate |].
  intros _. apply Nat.eqb_neq in E. lia.
Qed.

(** C7.  In an iteration that returns, on coordinates of the regular shape
    and collaborators of the regular widths: the positional embedding is
    sampled at frame 0 of the coordinates, [coords[:, 0]], and the input
    [x] that the update function receives is the assembled input plus
    that sample; its width is the width [D] of the assembled input, and at
    every frame [s] of the track [n] of batch [b] the entry is the entry
    of the assembled input plus the entry of the sample of (b, n). *)
Theorem positional_embedding_added (ext : externals)
    (self : BaseTrackerPredictor) (c : call) (s0 s1 : loop_state ext)
    (D : nat) :
  iteration self c s0 = Ok s1 ->
  shape (coords s0) = [call_B c; call_S c; call_N c; 2] ->
  (forall a,
     assembled_in self c s0 a ->
     shape (asm_transformer_input a) = [call_B c * call_N c; call_S c; D]) ->
  (forall pos_embed,
     get_2d_sincos_pos_embed ext (transformer_dim self) (call_HH c, call_WW c)
     = Ok pos_embed ->
     shape pos_embed = [1; D; call_HH c; call_WW c]) ->
  (forall pos_embed sampled,
     get_2d_sincos_pos_embed ext (transformer_dim self) (call_HH c, call_WW c)
     = Ok pos_embed ->
     sample_features4d ext
       (expand_raw pos_embed [call_B c; D; call_HH c; call_WW c])
       (select_raw (coords s0) 1 0) = Ok sampled ->
     shape sampled = [call_B c; call_N c; D]) ->
  exists a pos_embed sampled_pos_emb x delta,
    assembled_in self c s0 a /\
    get_2d_sincos_pos_embed ext (transformer_dim self) (call_HH c, call_WW c)
    = Ok pos_embed /\
    sample_features4d ext
      (expand_raw pos_embed [call_B c; D; call_HH c; call_WW c])
      (select_raw (coords s0) 1 0) = Ok sampled_pos_emb /\
    updateformer self x = Ok delta /\
    shape x = [call_B c; call_N c; call_S c; D] /\
    forall b n s k,
      b < call_B c -> n < call_N c -> s < call_S c -> k < D ->
      entry x [b; n; s; k]
      = (entry (asm_transformer_input a) [b * call_N c + n; s; k]%nat
         + entry sampled_pos_emb [b; n; k])%R.
Proof.
  intros Hit Hc Hasm Hpos Hsam.
  destruct (iteration_steps _ _ _ _ _ Hit)
    as (fc & fcorrs & a & x & delta & delta' & dc & df
        & Hfc & Ha & Hx & Hdelta & _).
  assert (Hin : assembled_in self c s0 a)
    by (exists fc, fcorrs; split; assumption).
  pose proof (Hasm a Hin) as Hsa. clear Hasm Hfc Ha.
  destruct c as [B N F HH WW backup d].
  cbn [call_B call_N call_S call_HH call_WW] in *.
  pose proof Hx as Hx'. unfold updateformer_input in Hx'.
  invert_bind Hx' as spe Hspe. invert_bind Hx' as xs Hxs.
  apply rearrange_split_b_nonzero in Hx'.
  unfold sample_pos_emb in Hspe.
  invert_bind Hspe as pos Hp. invert_bind Hspe as pos' Hp'.
  invert_bind Hspe as c0 Hc0. invert_bind Hspe as pe Hpe.
  pose proof (Hpos pos Hp) as Hps.
  unfold expand in Hp'. rewrite Hps in Hp'. cbn [expand_shape expand_dim] in Hp'.
  rewrite Nat.eqb_refl, orb_true_r in Hp'. inversion Hp'; subst pos'; clear Hp'.
  apply select_Ok in Hc0. destruct Hc0 as (_ & HF & ->).
  rewrite Hc in HF. cbn [nth] in HF.
  pose proof (Hsam pos pe Hp Hpe) as Hspe_shape.
  destruct (updateformer_input_spec ext self B N F HH WW D (coords s0)
              (asm_transformer_input a) pos pe Hx' HF Hc Hsa Hp Hps
              Hpe Hspe_shape)
    as (x' & Hx2 & Hsx & Hex).
  rewrite Hx in Hx2. inversion Hx2; subst x'; clear Hx2.
  exists a, pos, pe, x, delta. repeat split; assumption.
Qed.

(** ** The first iteration of the small call *)

(** Replaces the closed run on the left of [H] by its head normal form. *)
Ltac run_in H :=
  match type of H with
  | ?l = _ => let v := eval hnf in l in change l with v in H
  end.

Lemma demo_iteration :
  iteration demo_module demo_call demo_state0 = Ok demo_state1.
Proof. reflexivity. Qed.

Lemma demo_assembled_shape (a : assembled) :
  assembled_in demo_module demo_call demo_state0 a ->
  shape (asm_transformer_input a) = [1 * 1; 2; 664].
Proof.
  intros (fc & fcorrs & H1 & H2).
  run_in H1. inversion H1; subst; clear H1.
  run_in H2. inversion H2. reflexivity.
Qed.

Lemma demo_pos_embed_shape (pos_embed : tensor) :
  get_2d_sincos_pos_embed (stub_ext 1) (transformer_dim demo_module) (8, 8)
  = Ok pos_embed ->
  shape pos_embed = [1; 664; 8; 8].
Proof. intros H. run_in H. inversion H. reflexivity. Qed.

Lemma demo_sampled_shape (pos_embed sampled : tensor) :
  get_2d_sincos_pos_embed (stub_ext 1) (transformer_dim demo_module) (8, 8)
  = Ok pos_embed ->
  sample_features4d (stub_ext 1) (expand_raw pos_embed [1; 664; 8; 8])
    (select_raw (coords demo_state0) 1 0) = Ok sampled ->
  shape sampled = [1; 1; 664].
Proof.
  intros _ H. run_in H. inversion H. reflexivity.
Qed.

Lemma demo_delta_shape (x delta : tensor) :
  update_input_in demo_module demo_call demo_state0 x ->
  updateformer demo_module x = Ok delta ->
  shape delta = [1; 1; 2; Z.to_nat 128 + 2].
Proof.
  intros (a & (fc & fcorrs & H1 & H2) & H3) H4.
  run_in H1. inversion H1; subst; clear H1.
  run_in H2. inversion H2; subst; clear H2.
  run_in H3. inversion H3; subst; clear H3.
  run_in H4. inversion H4. reflexivity.
Qed.

Lemma positional_embedding_added_witness :
  iteration demo_module demo_call demo_state0 = Ok demo_state1 /\
  shape (coords demo_state0) = [1; 2; 1; 2] /\
  exists a pos_embed sampled_pos_emb x delta,
    assembled_in demo_module demo_call demo_state0 a /\
    get_2d_sincos_pos_embed (stub_ext 1) (transformer_dim demo_module) (8, 8)
    = Ok pos_embed /\
    sample_features4d (stub_ext 1) (expand_raw pos_embed [1; 664; 8; 8])
      (select_raw (coords demo_state0) 1 0) = Ok sampled_pos_emb /\
    updateformer demo_module x = Ok delta /\
    shape x = [1; 1; 2; 664] /\
    entry x [0; 0; 1; 5]
    = (entry (asm_transformer_input a) [0; 1; 5]%nat
       + entry sampled_pos_emb [0; 0; 5]%nat)%R.
Proof.
  split; [exact demo_iteration |]. split; [reflexivity |].
  destruct (positional_embedding_added (stub_ext 1) demo_module demo_call
              demo_state0 demo_state1 664 demo_iteration eq_refl
              demo_assembled_shape demo_pos_embed_shape demo_sampled_shape)
    as (a & pos & pe & x & delta & Ha & Hp & Hs & Hd & Hx & He).
  exists a, pos, pe, x, delta.
  repeat (split; [assumption |]).
  apply (He 0 0 1 5); cbn; lia.
Defined.

Lemma track_feats_residual_update_witness :
  init (stub_ext 1) stub_learned 4%Q 5%Z 4%Z 128%Z 384%Z true 6%Z false
    (Some (mkCfg false)) = Ok demo_module /\
  iteration demo_module demo_call demo_state0 = Ok demo_state1 /\
  shape (track_feats demo_state0) = [1; 2; 1; Z.to_nat 128] /\
  exists x delta,
    update_input_in demo_module demo_call demo_state0 x /\
    updateformer demo_module x = Ok delta /\
    shape (track_feats demo_state1) = [1; 2; 1; Z.to_nat 128] /\
    entry (track_feats demo_state1) [0; 1; 0; 7]
    = (feature_update (erf (stub_ext 1)) stub_learned (Z.to_nat 128)
         (fun j => entry delta [0; 0; 1; 2 + j]%nat) 7
       + entry (track_feats demo_state0) [0; 1; 0; 7]%nat)%R.
Proof.
  assert (Hi : init (stub_ext 1) stub_learned 4%Q 5%Z 4%Z 128%Z 384%Z true
                 6%Z false (Some (mkCfg false)) = Ok demo_module)
    by (apply init_stub; lia).
  split; [exact Hi |]. split; [exact demo_iteration |].
  split; [reflexivity |].
  destruct (track_feats_residual_update _ _ _ _ _ _ _ _ _ _ _ _ demo_call
              demo_state0 demo_state1 Hi demo_iteration eq_refl
              demo_delta_shape)
    as (x & delta & Hin & Hd & Hs & He).
  exists x, delta.
  repeat (split; [assumption |]).
  apply (He 0 1 0 7); cbn; lia.
Defined.

(** ** The visibility that a call returns *)

Lemma refine_last (ext : externals) (self : BaseTrackerPredictor) (c : call)
    (n : nat) (st st' : loop_state ext) :
  refine self c (S n) st = Ok st' ->
  exists st_prev, iteration self c st_prev = Ok st'.
Proof.
  intros H. replace (S n) with (n + 1) in H by lia.
  rewrite refine_app in H. invert_bind H as st_prev Hprev.
  cbn [refine] in H. invert_bind H as st_last Hlast.
  inversion H; subst st_last. exists st_prev. exact Hlast.
Qed.



(** ** Calls that return *)

Lemma slice_first_shape (t : tensor) (B F N : nat) :
  0 < F -> shape t = [B; F; N; 2] ->
  shape (slice_raw t 1 0 (Some 1)) = [B; 1; N; 2].
Proof.
  intros HF Hs. cbn [slice_raw shape]. rewrite Hs. cbn [nth set_nth].
  rewrite Nat.min_0_l, Nat.sub_0_r, Nat.min_l by lia. reflexivity.
Qed.

(** Lines 128 to 149 on tensors of the regular shapes. *)
Lemma assemble_input_ok (ext : externals) (self : BaseTrackerPredictor)
    (B N F C HH WW E K : nat) (good : fcorr ext -> Prop)
    (coords track_feats fcorrs : tensor) :
  regular self B N F C HH WW E K good ->
  sizes_fit self B N F C E K ->
  shape coords = [B; F; N; 2] ->
  shape track_feats = [B; F; N; C] ->
  shape fcorrs = [B; F; N; K] ->
  exists a,
    assemble_input ext self B N F coords track_feats fcorrs = Ok a /\
    shape (asm_transformer_input a)
    = [B * N; F; Z.to_nat (transformer_dim self)].
Proof.
  intros Hreg Hfit Hc Htf Hfc.
  pose proof (fit_frames Hfit) as HF.
  pose proof (fit_channels Hfit) as HC.
  unfold assemble_input, shape_at, rank. rewrite Hfc.
  cbn [length Nat.ltb Nat.leb bind nth].
  rewrite permute_ok by (unfold rank; rewrite ?Hfc; reflexivity). cbn [bind].
  rewrite reshape_ok
    by (cbn [permute_raw shape map]; rewrite Hfc; cbn; lia). cbn [bind].
  rewrite slice_ok by (unfold rank; rewrite Hc; cbn; lia). cbn [bind].
  unfold sub.
  rewrite (binop_ok Rminus _ _ [B; F; N; 2]).
  2:{ rewrite (slice_first_shape _ B F N HF Hc), Hc.
      unfold broadcast_shapes. cbn [rev app broadcast_rev].
      rewrite !bdim_same, bdim_one_r. reflexivity. }
  cbn [bind].
  rewrite permute_ok by reflexivity. cbn [bind].
  rewrite reshape_ok by (cbn; lia). cbn [bind].
  destruct (reg_get_2d_embedding Hreg (reshape_raw (permute_raw
              (binop_raw Rminus [B; F; N; 2] coords
                 (slice_raw coords 1 0 (Some 1))) [0; 2; 1; 3])
              [B * N; F; 2]) eq_refl) as (emb & Hemb & Hse).
  rewrite Hemb. cbn [bind cat cat_from].
  rewrite cat2_last_ok.
  2:{ unfold rank. rewrite Hse. cbn. lia. }
  2:{ unfold rank. rewrite Hse. reflexivity. }
  cbn [bind].
  rewrite permute_ok by (unfold rank; rewrite ?Htf; reflexivity). cbn [bind].
  rewrite <- HC.
  rewrite reshape_ok
    by (cbn [permute_raw shape map]; rewrite Htf; cbn; lia). cbn [bind].
  change 2%Z with (Z.of_nat 2).
  unfold rank. rewrite Hse. cbn [length Nat.sub].
  rewrite cat2_ok.
  2:{ unfold rank. cbn [cat2_raw shape]. rewrite Hse. cbn. lia. }
  2:{ cbn [cat2_raw reshape_raw shape]. rewrite Hse. reflexivity. }
  cbn [bind].
  rewrite cat2_ok.
  2:{ unfold rank. cbn [cat2_raw shape]. rewrite Hse. cbn. lia. }
  2:{ cbn [cat2_raw reshape_raw shape]. rewrite Hse. reflexivity. }
  cbn [bind].
  match goal with
  | |- context [pad_transformer_input self ?fe ?un] =>
      pose proof (pad_transformer_input_padded self fe un (B * N) F
                    (E + 2 + K + C) (E + 2)) as Hpad
  end.
  cbn [cat2_raw reshape_raw shape] in Hpad. rewrite Hse in Hpad.
  cbn [nth set_nth] in Hpad.
  specialize (Hpad eq_refl eq_refl (fit_deficit Hfit)).
  destruct (Z.of_nat (E + 2 + K + C) <? transformer_dim self)%Z eqn:Elt.
  - destruct Hpad as (t & Ht & Hst & _). rewrite Ht. cbn [bind].
    eexists. split; [reflexivity |]. exact Hst.
  - rewrite Hpad. cbn [bind]. eexists. split; [reflexivity |].
    cbn [asm_transformer_input cat2_raw reshape_raw shape]. rewrite Hse.
    cbn [nth set_nth]. apply Z.ltb_ge in Elt.
    pose proof (fit_width Hfit) as Hw. repeat f_equal. lia.
Qed.

(** Lines 177 to 181 on tensors of the regular shapes. *)
Lemma update_coords_ok (B N F : nat) (coords dc backup : tensor) :
  0 < F ->
  shape coords = [B; F; N; 2] ->
  shape dc = [B * N; F; 2] ->
  shape backup = [B; F; N; 2] ->
  exists out,
    update_coords B N F coords dc backup = Ok out /\
    shape out = [B; F; N; 2].
Proof.
  intros HF Hc Hd Hb. unfold update_coords.
  rewrite reshape_ok by (rewrite Hd; cbn; lia). cbn [bind].
  rewrite permute_ok by reflexivity. cbn [bind].
  unfold add. rewrite (binop_ok Rplus _ _ [B; F; N; 2])
    by (rewrite Hc; apply broadcast_shapes_same).
  cbn [bind].
  rewrite select_ok by (unfold rank; rewrite Hb; cbn; lia). cbn [bind].
  unfold setitem_select.
  rewrite select_ok by (unfold rank; cbn; lia). cbn [bind].
  cbn [select_raw binop_raw shape remove_at firstn skipn app].
  rewrite Hb. cbn [firstn skipn app].
  rewrite broadcast_shapes_same, shape_eqb_refl.
  eexists. split; reflexivity.
Qed.

Lemma iteration_returns (ext : externals) (prm : learned) (st : Q)
    (lv rd lt : Z) (fn : bool) (self : BaseTrackerPredictor)
    (B N F C HH WW E K : nat) (good : fcorr ext -> Prop) (c : call)
    (s0 : loop_state ext) :
  constructed ext prm st lv rd lt fn self ->
  regular self B N F C HH WW E K good ->
  sizes_fit self B N F C E K ->
  call_HH c = HH -> call_WW c = WW ->
  state_regular B N F C good c s0 ->
  exists s1,
    iteration self c s0 = Ok s1 /\ state_regular B N F C good c s1.
Proof.
  intros Hcon Hreg Hfit HHH HWW (HB & HN & HS & Hbk & Hc & Htf & Hgood).
  pose proof (fit_frames Hfit) as HF.
  pose proof (fit_batch Hfit) as HB0.
  pose proof (fit_channels Hfit) as HC.
  pose proof (con_latent_dim Hcon) as HL.
  unfold iteration, detach. rewrite HB, HN, HS, HHH, HWW.
  rewrite HC in Htf.
  destruct (reg_sample_fcorr Hreg _ _ _ Hgood Hc Htf)
    as (h' & fcorrs & Hsf & Hgood' & Hsfc).
  rewrite Hsf. cbn [bind].
  rewrite <- HC in Htf.
  destruct (assemble_input_ok ext self B N F C HH WW E K good _ _ _
              Hreg Hfit Hc Htf Hsfc) as (a & Ha & Hsa).
  rewrite Ha. cbn [bind].
  destruct (reg_get_2d_sincos_pos_embed Hreg) as (pos & Hpos & Hsp).
  destruct (@reg_sample_features4d _ _ _ _ _ _ _ _ _ _ _ Hreg
              (expand_raw pos [B; Z.to_nat (transformer_dim self); HH; WW])
              (select_raw (coords s0) 1 0)
              (Z.to_nat (transformer_dim self)) HH WW eq_refl)
    as (pe & Hpe & Hspe).
  { cbn [select_raw shape]. rewrite Hc. reflexivity. }
  destruct (updateformer_input_spec ext self B N F HH WW
              (Z.to_nat (transformer_dim self)) (coords s0)
              (asm_transformer_input a) pos pe HB0 HF Hc Hsa Hpos Hsp Hpe
              Hspe) as (x & Hx & Hsx & _).
  rewrite Hx. cbn [bind].
  destruct (reg_updateformer Hreg x Hsx) as (delta & Hdelta & Hsd).
  rewrite HL in Hsd. rewrite Hdelta. cbn [bind].
  unfold rearrange_merge_b. rewrite Hsd, Nat.eqb_refl.
  rewrite reshape_ok by (rewrite Hsd; cbn; lia). cbn [bind].
  rewrite !slice_ok by (unfold rank; cbn; lia). cbn [bind].
  destruct (assemble_input_Ok _ _ _ _ _ _ _ _ _ Ha) as [Hatf _].
  rewrite HL in Hatf. rewrite Hatf.
  rewrite HC, HL in Htf.
  assert (Hsdf : shape (slice_raw
                          (reshape_raw delta [B * N; F; Z.to_nat lt + 2])
                          2 2 None) = [B * N; F; Z.to_nat lt]).
  { cbn [slice_raw reshape_raw shape nth set_nth]. repeat f_equal. lia. }
  assert (Hone : B * N * F * Z.to_nat lt <> 1).
  { rewrite <- HL, <- HC. exact (fit_values Hfit). }
  destruct (update_track_feats_spec ext prm st lv rd lt fn self B N F
              (track_feats s0) _ Hcon Htf Hsdf Hone)
    as (new & Hnew & Hsnew & _).
  rewrite Hnew. cbn [bind].
  destruct (update_coords_ok B N F (coords s0)
              (slice_raw (reshape_raw delta [B * N; F; Z.to_nat lt + 2])
                 2 0 (Some 2)) (call_coords_backup c) HF Hc)
    as (coords' & Hcoords & Hsc).
  { cbn [slice_raw reshape_raw shape nth set_nth].
    rewrite Nat.min_0_l, Nat.sub_0_r, Nat.min_l by lia. reflexivity. }
  { exact Hbk. }
  rewrite Hcoords. cbn [bind].
  eexists. split; [reflexivity |].
  unfold state_regular. cbn [coords track_feats fcorr_fn].
  rewrite HC, HL. repeat split; assumption.
Qed.

Lemma refine_returns (ext : externals) (prm : learned) (st : Q)
    (lv rd lt : Z) (fn : bool) (self : BaseTrackerPredictor)
    (B N F C HH WW E K : nat) (good : fcorr ext -> Prop) (c : call)
    (n : nat) (s0 : loop_state ext) :
  constructed ext prm st lv rd lt fn self ->
  regular self B N F C HH WW E K good ->
  sizes_fit self B N F C E K ->
  call_HH c = HH -> call_WW c = WW ->
  state_regular B N F C good c s0 ->
  exists s1,
    refine self c n s0 = Ok s1 /\ state_regular B N F C good c s1.
Proof.
  intros Hcon Hreg Hfit HHH HWW. revert s0.
  induction n as [| n IH]; intros s0 Hst; cbn [refine].
  - exists s0. split; [reflexivity | exact Hst].
  - destruct (iteration_returns ext prm st lv rd lt fn self B N F C HH WW E K
                good c s0 Hcon Hreg Hfit HHH HWW Hst) as (s1 & H1 & Hst1).
    rewrite H1. cbn [bind]. exact (IH s1 Hst1).
Qed.

Lemma prepare_returns (ext : externals) (self : BaseTrackerPredictor)
    (B N F C HH WW E K : nat) (good : fcorr ext -> Prop)
    (query_points fmaps : tensor) (down_ratio : Q) :
  regular self B N F C HH WW E K good ->
  0 < F ->
  shape query_points = [B; N; 2] ->
  shape fmaps = [B; F; C; HH; WW] ->
  exists p,
    prepare ext self query_points (Some fmaps) down_ratio = Ok p /\
    call_HH (prep_call p) = HH /\ call_WW (prep_call p) = WW /\
    coord_preds (prep_state p) = [] /\
    state_regular B N F C good (prep_call p) (prep_state p).
Proof.
  intros Hreg HF Hq Hf. unfold prepare, unpack3, unpack5.
  rewrite Hq. cbn [bind]. rewrite Hf. cbn [bind assert Nat.eqb].
  assert (Hsq : shape (scale_query_points self query_points down_ratio)
                = [B; N; 2]).
  { unfold scale_query_points. destruct (gt_one down_ratio); exact Hq. }
  rewrite reshape_ok by (unfold clone; rewrite Hsq; cbn; lia).
  cbn [bind]. rewrite repeat_ok by (cbn; lia). cbn [bind].
  rewrite select_ok by (unfold rank; rewrite Hf; cbn; lia). cbn [bind].
  fold (initial_coords (scale_query_points self query_points down_ratio)
          B N F).
  rewrite select_ok by (unfold rank; rewrite initial_coords_shape; cbn; lia).
  cbn [bind].
  destruct (@reg_sample_features4d _ _ _ _ _ _ _ _ _ _ _ Hreg
              (select_raw fmaps 1 0)
              (select_raw
                 (initial_coords
                    (scale_query_points self query_points down_ratio) B N F)
                 1 0) C HH WW) as (qtf & Hqtf & Hsqtf).
  { cbn [select_raw shape]. rewrite Hf. reflexivity. }
  { cbn [select_raw shape]. rewrite initial_coords_shape. reflexivity. }
  rewrite Hqtf. cbn [bind].
  rewrite unsqueeze_ok by (unfold rank; rewrite Hsqtf; cbn; lia).
  cbn [bind].
  rewrite repeat_ok
    by (unfold rank; cbn [unsqueeze_raw shape]; rewrite Hsqtf; cbn; lia).
  cbn [bind].
  destruct (reg_make_fcorr Hreg fmaps Hf) as (h & Hh & Hgood).
  rewrite Hh. cbn [bind].
  eexists. split; [reflexivity |].
  cbn [prep_call prep_state call_HH call_WW coord_preds].
  repeat split; try reflexivity.
  - apply initial_coords_shape.
  - apply initial_coords_shape.
  - cbn [track_feats]. fold (initial_track_feats qtf F).
    apply initial_track_feats_shape. exact Hsqtf.
  - exact Hgood.
Qed.

(** A call on inputs of the regular shapes, with collaborators of the
    regular shapes and sizes that fit, returns. *)
Lemma forward_returns (ext : externals) (prm : learned) (st : Q)
    (lv rd lt hs : Z) (sa : bool) (dp : Z) (fn : bool) (cf : option Cfg)
    (self : BaseTrackerPredictor) (B N F C HH WW E K : nat)
    (good : fcorr ext -> Prop) (query_points fmaps : tensor) (iters : Z)
    (return_feat : bool) (down_ratio : Q) :
  init ext prm st lv rd lt hs sa dp fn cf = Ok self ->
  regular self B N F C HH WW E K good ->
  sizes_fit self B N F C E K ->
  shape query_points = [B; N; 2] ->
  shape fmaps = [B; F; C; HH; WW] ->
  succeeds (forward ext self query_points (Some fmaps) iters return_feat
              down_ratio).
Proof.
  intros Hinit Hreg Hfit Hq Hf. apply init_Ok in Hinit.
  unfold succeeds, forward.
  destruct (prepare_returns ext self B N F C HH WW E K good query_points
              fmaps down_ratio Hreg (fit_frames Hfit) Hq Hf)
    as (p & Hp & HHH & HWW & _ & Hst).
  rewrite Hp. cbn [bind].
  destruct (refine_returns ext prm st lv rd lt fn self B N F C HH WW E K good
              (prep_call p) (Z.to_nat iters) (prep_state p) Hinit Hreg Hfit
              HHH HWW Hst) as (s1 & Hs1 & Hst1).
  rewrite Hs1. cbn [bind].
  destruct Hst1 as (HB & HN & HS & _ & _ & Htf & _).
  rewrite HB, HN, HS.
  rewrite (fit_channels Hfit), (con_latent_dim Hinit) in Htf.
  pose proof (predict_visibility_spec ext prm st lv rd lt fn self B N F
                (track_feats s1) Hinit Htf) as Hvis.
  destruct fn.
  - destruct Hvis as [_ Hv]. rewrite Hv. cbn [bind].
    destruct return_feat; eexists; reflexivity.
  - destruct Hvis as (v & Hv & _). rewrite Hv. cbn [bind].
    destruct return_feat; eexists; reflexivity.
Qed.

(** The stand-ins are collaborators of the regular shapes. *)
Lemma stub_regular (delta : R) (lv rd lt : Z) (fn eff : bool)
    (B N F C HH WW : nat) :
  (0 <= lt)%Z ->
  regular (ext := stub_ext delta) (stub_module delta lv rd lt fn eff)
    B N F C HH WW (Z.to_nat (lt / 2 * 2)) (window lv rd)
    (fun h => h = Dense (stub_ext delta) (window lv rd)
              \/ h = Efficient (stub_ext delta) (window lv rd)).
Proof.
  intros Hlt. constructor.
  - intros input coords c h w Hi Hc.
    cbn [stub_ext sample_features4d]. unfold stub_sample_features4d.
    rewrite Hi, Hc, Nat.eqb_refl. eexists. split; reflexivity.
  - intros xy Hxy. cbn [stub_ext get_2d_embedding].
    unfold stub_get_2d_embedding. rewrite Hxy.
    eexists. split; [reflexivity |].
    cbn [constant shape stub_module flows_emb_dim].
    rewrite Nat.add_0_r. reflexivity.
  - eexists. split; reflexivity.
  - intros fmaps _. unfold make_fcorr.
    cbn [stub_module efficient_corr corr_levels corr_radius stub_ext
         EfficientCorrBlock CorrBlock].
    destruct eff; cbn [bind]; eexists; split; try reflexivity; auto.
  - intros h coords tf Hgood Hc _.
    destruct Hgood as [-> | ->]; cbn [sample_fcorr stub_ext CorrBlock_corr
      CorrBlock_sample EfficientCorrBlock_sample bind];
      unfold stub_corr_sample; rewrite Hc; cbn [bind];
      do 2 eexists; (split; [reflexivity |]); split; auto.
  - intros x Hx. cbn [stub_module updateformer latent_dim transformer_dim] in *.
    unfold stub_updateformer. rewrite Hx, Nat.eqb_refl.
    eexists. split; [reflexivity |]. cbn [constant shape].
    repeat f_equal. lia.
Qed.

(** The small call returns for every number of iterations. *)
Lemma demo_forward_returns (iters : Z) (return_feat : bool) (down_ratio : Q) :
  succeeds (forward (stub_ext 1) demo_module demo_query_points
              (Some demo_fmaps) iters return_feat down_ratio).
Proof.
  apply (forward_returns (stub_ext 1) stub_learned 4%Q 5%Z 4%Z 128%Z 384%Z
           true 6%Z false (Some (mkCfg false)) demo_module
           1 1 2 128 8 8 (Z.to_nat (128 / 2 * 2)) (window 5 4)
           (fun h => h = Dense (stub_ext 1) (window 5 4)
                     \/ h = Efficient (stub_ext 1) (window 5 4))).
  - apply init_stub. lia.
  - apply stub_regular. lia.
  - constructor.
    + lia.
    + lia.
    + reflexivity.
    + vm_compute. discriminate.
    + vm_compute. discriminate.
    + vm_compute. discriminate.
  - reflexivity.
  - reflexivity.
Qed.

(** ** The padding in an iteration *)



(** * Further properties of the module *)

(** ** Construction: when it fails and when it returns *)

(** X1.  The constructor reads [cfg.MODEL.TRACK.efficient_corr] before it
    builds anything, so with the default [cfg = None] it raises
    [AttributeError] whatever the other arguments.  It returns exactly
    when a [cfg] is given, the update function can be built for the padded
    width, and [latent_dim] is not negative; with a [cfg] and an update
    function, a negative [latent_dim] raises [RuntimeError] in the layers
    of [torch.nn]. *)
Theorem init_succeeds_iff (ext : externals) (prm : learned) (st : Q)
    (lv rd lt hs : Z) (sa : bool) (dp : Z) (fn : bool) (cf : option Cfg) :
  let built :=
    EfficientUpdateFormer ext (if sa then dp else 0%Z) dp
      (pad_transformer_dim fn (unpadded_dim lv rd lt)) hs (lt + 2)%Z 4%Q sa in
  (succeeds (init ext prm st lv rd lt hs sa dp fn cf) <->
   (exists c, cf = Some c) /\ succeeds built /\ (0 <= lt)%Z) /\
  ((exists c, cf = Some c) -> succeeds built -> (lt < 0)%Z ->
   init ext prm st lv rd lt hs sa dp fn cf = Err RuntimeError) /\
  (cf = None -> init ext prm st lv rd lt hs sa dp fn cf = Err AttributeError).
Proof.
  intros built. split; [split | split]; [| | | intros ->; reflexivity].
  - intros [self H]. pose proof (init_Ok _ _ _ _ _ _ _ _ _ _ _ _ H) as Hc.
    unfold init in H. invert_bind H as eff Heff. invert_bind H as uf Huf.
    split; [| split].
    + destruct cf as [c |]; [exists c; reflexivity | discriminate Heff].
    + exists uf. exact Huf.
    + exact (con_latent_nonneg Hc).
  - intros ([c ->] & [uf Huf] & Hlt). unfold succeeds, init.
    cbn [bind]. fold built. rewrite Huf. cbn [bind].
    unfold nn_GroupNorm. cbn [Z.eqb]. rewrite Z.mod_1_r. cbn [Z.eqb negb].
    unfold nn_Linear. apply Z.ltb_ge in Hlt. rewrite Hlt.
    cbn [orb Z.ltb Z.compare bind]. destruct fn; cbn [negb bind];
      eexists; reflexivity.
  - intros [c ->] [uf Huf] Hlt. unfold init. cbn [bind]. fold built.
    rewrite Huf. cbn [bind].
    unfold nn_GroupNorm. cbn [Z.eqb]. rewrite Z.mod_1_r. cbn [Z.eqb negb].
    apply Z.ltb_lt in Hlt. rewrite Hlt. reflexivity.
Qed.

Lemma init_succeeds_iff_witness :
  ((exists c, Some (mkCfg false) = Some c) /\
   succeeds (EfficientUpdateFormer (stub_ext 0) 6%Z 6%Z
               (pad_transformer_dim false (unpadded_dim 5 4 128)) 384%Z
               (128 + 2)%Z 4%Q true) /\
   (0 <= 128)%Z) /\
  succeeds (init (stub_ext 0) stub_learned 4%Q 5%Z 4%Z 128%Z 384%Z true 6%Z
              false (Some (mkCfg false))).
Proof.
  assert (H : (exists c, Some (mkCfg false) = Some c) /\
              succeeds (EfficientUpdateFormer (stub_ext 0) 6%Z 6%Z
                          (pad_transformer_dim false (unpadded_dim 5 4 128))
                          384%Z (128 + 2)%Z 4%Q true) /\
              (0 <= 128)%Z).
  { split; [eexists; reflexivity |]. split; [eexists; reflexivity | lia]. }
  split; [exact H |].
  exact (proj2 (proj1 (init_succeeds_iff (stub_ext 0) stub_learned 4%Q 5%Z
                         4%Z 128%Z 384%Z true 6%Z false (Some (mkCfg false))))
           H).
Defined.

(** ** Calls that are refused *)

(** X2.  With the default [fmaps = None] a call raises as soon as it reads
    [fmaps.shape]: [AttributeError] when the query points have rank 3,
    the [ValueError] of the first unpacking otherwise. *)
Theorem forward_without_fmaps (ext : externals) (self : BaseTrackerPredictor)
    (query_points : tensor) (iters : Z) (return_feat : bool) (down_ratio : Q) :
  forward ext self query_points None iters return_feat down_ratio
  = Err (if rank query_points =? 3 then AttributeError else ValueError).
Proof.
  unfold forward. apply bind_Err. unfold prepare, unpack3, rank.
  destruct (shape query_points) as [| a [| b [| c [| d q]]]]; reflexivity.
Qed.

(** X3.  Feature maps without frames are refused: after the entry checks
    the call raises [IndexError] at [fmaps[:, 0]], before any collaborator
    is used. *)
Theorem forward_without_frames (ext : externals) (self : BaseTrackerPredictor)
    (query_points fmaps : tensor) (iters : Z) (return_feat : bool)
    (down_ratio : Q) (B N C HH WW : nat) :
  shape query_points = [B; N; 2] ->
  shape fmaps = [B; 0; C; HH; WW] ->
  forward ext self query_points (Some fmaps) iters return_feat down_ratio
  = Err IndexError.
Proof.
  intros Hq Hf. unfold forward. apply bind_Err.
  unfold prepare, unpack3, unpack5.
  rewrite Hq. cbn [bind]. rewrite Hf. cbn [bind assert Nat.eqb].
  assert (Hsq : shape (scale_query_points self query_points down_ratio)
                = [B; N; 2]).
  { unfold scale_query_points. destruct (gt_one down_ratio); exact Hq. }
  rewrite reshape_ok by (unfold clone; rewrite Hsq; cbn; lia).
  cbn [bind]. rewrite repeat_ok by (cbn; lia). cbn [bind].
  unfold select at 1. unfold rank. rewrite Hf. reflexivity.
Qed.

Lemma forward_without_frames_witness :
  shape (constant [1; 1; 2] 40) = [1; 1; 2] /\
  shape (constant [1; 0; 128; 8; 8] 0) = [1; 0; 128; 8; 8] /\
  forward (stub_ext 1) demo_module (constant [1; 1; 2] 40)
    (Some (constant [1; 0; 128; 8; 8] 0)) 4 false 1 = Err IndexError.
Proof.
  split; [reflexivity |]. split; [reflexivity |].
  exact (forward_without_frames (stub_ext 1) demo_module
           (constant [1; 1; 2] 40) (constant [1; 0; 128; 8; 8] 0) 4 false 1
           1 1 128 8 8 eq_refl eq_refl).
Defined.

(** X4.  The batch size is taken from the feature maps: query points of
    another batch size, with at least one track, are refused with the
    [RuntimeError] of the reshape of line 97. *)
Theorem forward_batch_mismatch (ext : externals) (self : BaseTrackerPredictor)
    (query_points fmaps : tensor) (iters : Z) (return_feat : bool)
    (down_ratio : Q) (B0 B N F C HH WW : nat) :
  shape query_points = [B0; N; 2] ->
  shape fmaps = [B; F; C; HH; WW] ->
  B0 <> B -> 0 < N ->
  forward ext self query_points (Some fmaps) iters return_feat down_ratio
  = Err RuntimeError.
Proof.
  intros Hq Hf HB HN. unfold forward. apply bind_Err.
  unfold prepare, unpack3, unpack5.
  rewrite Hq. cbn [bind]. rewrite Hf. cbn [bind assert Nat.eqb].
  assert (Hsq : shape (scale_query_points self query_points down_ratio)
                = [B0; N; 2]).
  { unfold scale_query_points. destruct (gt_one down_ratio); exact Hq. }
  unfold reshape, clone. rewrite Hsq.
  destruct (numel [B0; N; 2] =? numel [B; 1; N; 2]) eqn:E; [| reflexivity].
  apply Nat.eqb_eq in E. cbn in E. exfalso. apply HB. nia.
Qed.

Lemma forward_batch_mismatch_witness :
  shape (constant [2; 1; 2] 40) = [2; 1; 2] /\
  shape demo_fmaps = [1; 2; 128; 8; 8] /\
  2 <> 1 /\ 0 < 1 /\
  forward (stub_ext 1) demo_module (constant [2; 1; 2] 40) (Some demo_fmaps)
    4 false 1 = Err RuntimeError.
Proof.
  assert (H1 : 2 <> 1) by lia. assert (H2 : 0 < 1) by lia.
  split; [reflexivity |]. split; [reflexivity |].
  split; [exact H1 |]. split; [exact H2 |].
  exact (forward_batch_mismatch (stub_ext 1) demo_module
           (constant [2; 1; 2] 40) demo_fmaps 4 false 1 2 1 1 2 128 8 8
           eq_refl eq_refl H1 H2).
Defined.

(** ** The shapes and the values of the coordinates *)

Lemma binop_Ok (f : R -> R -> R) (a b t : tensor) :
  binop f a b = Ok t ->
  exists s, broadcast_shapes (shape a) (shape b) = Some s /\
            t = binop_raw f s a b.
Proof.
  unfold binop. destruct (broadcast_shapes (shape a) (shape b)) as [s |];
    intros H; inversion H. exists s. split; reflexivity.
Qed.

(** Lines 177 to 181, read backwards: what a returned update has done. *)
Lemma update_coords_Ok (B N F : nat) (coords dc backup out : tensor) :
  update_coords B N F coords dc backup = Ok out ->
  shape coords = [B; F; N; 2] ->
  shape out = [B; F; N; 2] /\
  forall b s n k, b < B -> s < F -> n < N -> k < 2 -> 0 < s ->
    entry out [b; s; n; k]
    = (entry coords [b; s; n; k]
       + entry (reshape_raw dc [B; N; F; 2]%nat) [b; n; s; k])%R.
Proof.
  unfold update_coords. intros H Hc.
  invert_bind H as r Hr. invert_bind H as p Hp. invert_bind H as c1 Hc1.
  invert_bind H as anchor Hanchor.
  apply reshape_Ok in Hr. destruct Hr as [_ ->].
  apply permute_Ok in Hp. subst p.
  apply binop_Ok in Hc1. destruct Hc1 as (s' & Hs' & ->).
  rewrite Hc in Hs'. cbn [permute_raw reshape_raw shape map nth] in Hs'.
  rewrite broadcast_shapes_same in Hs'. inversion Hs'; subst s'; clear Hs'.
  apply setitem_select_Ok in H. destruct H as [Hso He].
  split; [exact Hso |].
  intros b s n k Hb Hs Hn Hk Hpos. rewrite He. cbn [nth].
  destruct (s =? 0) eqn:E; [apply Nat.eqb_eq in E; lia |].
  cbn [binop_raw entry]. rewrite Hc.
  rewrite bcast_index_in_range by (cbn; lia).
  cbn [permute_raw reshape_raw shape map nth].
  rewrite bcast_index_in_range by (cbn; lia).
  reflexivity.
Qed.

(** The shape of the coordinates is kept by the loop. *)
Lemma refine_coords_shape (ext : externals) (self : BaseTrackerPredictor)
    (c : call) (n : nat) (st st' : loop_state ext) :
  refine self c n st = Ok st' ->
  shape (coords st) = [call_B c; call_S c; call_N c; 2] ->
  shape (coords st') = [call_B c; call_S c; call_N c; 2].
Proof.
  revert st. induction n as [| n IH]; intros st H Hs; cbn [refine] in H.
  - inversion H; subst st'. exact Hs.
  - invert_bind H as st1 H1. apply (IH st1 H).
    destruct (iteration_Ok _ _ _ _ _ H1) as [_ [dc Hdc]].
    exact (proj1 (update_coords_Ok _ _ _ _ _ _ _ Hdc Hs)).
Qed.

(** X5.  Every prediction that a call returns has the shape
    [(B, S, N, 2)]: the batch size and the number of frames of the feature
    maps, the number of query points, two coordinates. *)
Theorem forward_prediction_shapes (ext : externals)
    (self : BaseTrackerPredictor) (query_points fmaps : tensor) (iters : Z)
    (return_feat : bool) (down_ratio : Q) (out : output) (i : nat)
    (pred : tensor) :
  forward ext self query_points (Some fmaps) iters return_feat down_ratio
  = Ok out ->
  nth_error (out_coord_preds out) i = Some pred ->
  shape pred
  = [nth 0 (shape fmaps) 0; nth 1 (shape fmaps) 0;
     nth 1 (shape query_points) 0; 2].
Proof.
  intros H Hnth.
  apply forward_Ok in H. destruct H as (p & st & Hp & Hst & Hout & _).
  destruct (prepare_Ok _ _ _ _ _ _ Hp) as (B0 & N & B & F & C & HH & WW & Hpf).
  assert (Hi : i < Z.to_nat iters).
  { pose proof Hst as Hl. apply refine_length in Hl.
    destruct Hl as (l & Hl & Hn').
    rewrite Hout, Hl, (pf_coord_preds Hpf) in Hnth. cbn [app] in Hnth.
    rewrite <- Hn'. apply nth_error_Some. congruence. }
  destruct (refine_snapshots _ _ _ _ _ _ Hst i Hi) as (st_i & Hi1 & Hnth').
  rewrite (pf_coord_preds Hpf) in Hnth'. cbn [length Nat.add] in Hnth'.
  rewrite <- Hout, Hnth in Hnth'. inversion Hnth'; subst pred; clear Hnth'.
  apply refine_coords_shape in Hi1.
  2:{ rewrite (pf_coords Hpf), (pf_call Hpf). cbn [call_B call_S call_N].
      apply initial_coords_shape. }
  rewrite (pf_call Hpf) in Hi1. cbn [call_B call_S call_N] in Hi1.
  rewrite (pf_fmaps_shape Hpf), (pf_query_shape Hpf). cbn [nth].
  unfold rescale_coords. destruct (gt_one (call_down_ratio (prep_call p)));
    cbn [mul_scalar map_entries shape]; exact Hi1.
Qed.

Lemma forward_prediction_shapes_witness :
  forward (stub_ext 1) demo_module demo_query_points (Some demo_fmaps) 3 false 2
  = Ok (demo_output 3 2) /\
  (exists pred,
     nth_error (out_coord_preds (demo_output 3 2)) 2 = Some pred /\
     shape pred = [1; 2; 1; 2]).
Proof.
  assert (H : forward (stub_ext 1) demo_module demo_query_points
                (Some demo_fmaps) 3 false 2 = Ok (demo_output 3 2))
    by reflexivity.
  split; [exact H |].
  eexists. split; [reflexivity |].
  exact (forward_prediction_shapes _ _ _ _ _ _ _ _ 2 _ H eq_refl).
Defined.

(** X6.  The update of the coordinates in an iteration that returns, for
    an update function whose output has the shape
    [(B, N, S, latent_dim + 2)]: at every frame but the first the new
    coordinate is the old one plus the first two channels of that output,
    and at the first frame it is the coordinate of the backup. *)
Theorem coords_residual_update (ext : externals) (self : BaseTrackerPredictor)
    (c : call) (s0 s1 : loop_state ext) :
  iteration self c s0 = Ok s1 ->
  shape (coords s0) = [call_B c; call_S c; call_N c; 2] ->
  shape (call_coords_backup c) = [call_B c; call_S c; call_N c; 2] ->
  (forall x delta,
     update_input_in self c s0 x ->
     updateformer self x = Ok delta ->
     shape delta
     = [call_B c; call_N c; call_S c; Z.to_nat (latent_dim self) + 2]) ->
  exists x delta,
    update_input_in self c s0 x /\
    updateformer self x = Ok delta /\
    shape (coords s1) = [call_B c; call_S c; call_N c; 2] /\
    forall b s n k,
      b < call_B c -> s < call_S c -> n < call_N c -> k < 2 ->
      entry (coords s1) [b; s; n; k]
      = if s =? 0 then entry (call_coords_backup c) [b; 0; n; k]
        else (entry (coords s0) [b; s; n; k] + entry delta [b; n; s; k])%R.
Proof.
  intros H Hc Hbk Hshape.
  destruct (iteration_steps _ _ _ _ _ H)
    as (fc & fcorrs & a & x & delta & delta' & dc & df
        & Hfc & Ha & Hx & Hdelta & Hdelta' & Hdc & Hdf & _ & Hupd).
  assert (Hin : update_input_in self c s0 x).
  { exists a. split; [exists fc, fcorrs; split; assumption | exact Hx]. }
  pose proof (Hshape x delta Hin Hdelta) as Hsd.
  set (B := call_B c) in *. set (N := call_N c) in *.
  set (F := call_S c) in *. set (L := Z.to_nat (latent_dim self)) in *.
  apply (rearrange_merge_b_Ok _ _ B N F (L + 2) Hsd) in Hdelta'. subst delta'.
  apply slice_Ok in Hdc. subst dc.
  exists x, delta. split; [exact Hin |]. split; [exact Hdelta |].
  destruct (update_coords_Ok _ _ _ _ _ _ _ Hupd Hc) as [Hso He].
  split; [exact Hso |].
  intros b s n k Hb Hs Hn Hk.
  destruct (s =? 0) eqn:E.
  - apply Nat.eqb_eq in E. subst s.
    exact (update_coords_anchor _ _ _ _ _ _ _ _ _ _ Hupd Hbk b n k Hb Hn Hk).
  - apply Nat.eqb_neq in E. rewrite (He b s n k Hb Hs Hn Hk ltac:(lia)).
    f_equal.
    pose proof (add_mul_lt B N b n Hb Hn) as Hbn.
    assert (Hsdc : shape (slice_raw (reshape_raw delta [B * N; F; L + 2])
                            2 0 (Some 2)) = [B * N; F; 2]).
    { cbn [slice_raw reshape_raw shape nth set_nth].
      rewrite Nat.min_0_l, Nat.sub_0_r, Nat.min_l by lia. reflexivity. }
    rewrite (reshape_entry _ [B; N; F; 2] [b; n; s; k] [b * N + n; s; k]).
    2:{ rewrite Hsdc. cbn. lia. }
    2:{ rewrite Hsdc. cbn. lia. }
    cbn [slice_raw entry reshape_raw shape nth set_nth].
    rewrite Nat.min_0_l, Nat.add_0_r.
    change (entry delta (unravel (shape delta)
                           (ravel [B * N; F; L + 2] [b * N + n; s; k])))
      with (entry (reshape_raw delta [B * N; F; L + 2]) [b * N + n; s; k]).
    apply reshape_entry.
    + rewrite Hsd. cbn. lia.
    + rewrite Hsd. cbn. lia.
Qed.

Lemma coords_residual_update_witness :
  iteration demo_module demo_call demo_state0 = Ok demo_state1 /\
  shape (coords demo_state0) = [1; 2; 1; 2] /\
  shape (call_coords_backup demo_call) = [1; 2; 1; 2] /\
  exists x delta,
    update_input_in demo_module demo_call demo_state0 x /\
    updateformer demo_module x = Ok delta /\
    shape (coords demo_state1) = [1; 2; 1; 2] /\
    entry (coords demo_state1) [0; 1; 0; 1]
    = (entry (coords demo_state0) [0; 1; 0; 1]%nat
       + entry delta [0; 0; 1; 1]%nat)%R /\
    entry (coords demo_state1) [0; 0; 0; 1]
    = entry (call_coords_backup demo_call) [0; 0; 0; 1].
Proof.
  split; [exact demo_iteration |]. split; [reflexivity |].
  split; [reflexivity |].
  destruct (coords_residual_update (stub_ext 1) demo_module demo_call
              demo_state0 demo_state1 demo_iteration eq_refl eq_refl
              demo_delta_shape) as (x & delta & Hin & Hd & Hs & He).
  exists x, delta. split; [exact Hin |]. split; [exact Hd |].
  split; [exact Hs |]. split.
  - exact (He 0 1 0 1 ltac:(cbn; lia) ltac:(cbn; lia) ltac:(cbn; lia)
             ltac:(lia)).
  - exact (He 0 0 0 1 ltac:(cbn; lia) ltac:(cbn; lia) ltac:(cbn; lia)
             ltac:(lia)).
Defined.

(** ** Calls that return, and what the number of iterations changes *)





(** X9.  An iteration does not depend on how many follow it.  If a call
    with [m] iterations returns, the call with [n] iterations, for
    [1 <= n <= m], returns too, and its predictions are the first [n]
    predictions of the longer call. *)
Theorem forward_fewer_iterations (ext : externals) (prm : learned) (st : Q)
    (lv rd lt hs : Z) (sa : bool) (dp : Z) (fn : bool) (cf : option Cfg)
    (self : BaseTrackerPredictor) (query_points fmaps : tensor) (n m : Z)
    (return_feat : bool) (down_ratio : Q) (out : output) :
  init ext prm st lv rd lt hs sa dp fn cf = Ok self ->
  (1 <= n <= m)%Z ->
  forward ext self query_points (Some fmaps) m return_feat down_ratio
  = Ok out ->
  exists out',
    forward ext self query_points (Some fmaps) n return_feat down_ratio
    = Ok out' /\
    out_coord_preds out' = firstn (Z.to_nat n) (out_coord_preds out).
Proof.
  intros Hinit Hnm H. apply init_Ok in Hinit.
  apply forward_Ok in H. destruct H as (p & sm & Hp & Hsm & Hout & _).
  destruct (prepare_Ok _ _ _ _ _ _ Hp) as (B0 & N & B & F & C & HH & WW & Hpf).
  replace (Z.to_nat m) with (Z.to_nat n + (Z.to_nat m - Z.to_nat n)) in Hsm
    by lia.
  rewrite refine_app in Hsm. invert_bind Hsm as sn Hsn.
  pose proof (refine_length _ _ _ _ _ _ Hsn) as (l1 & Hl1 & Hn1).
  pose proof (refine_length _ _ _ _ _ _ Hsm) as (l2 & Hl2 & _).
  rewrite (pf_coord_preds Hpf) in Hl1. cbn [app] in Hl1.
  assert (Hfirst : coord_preds sn
                   = firstn (Z.to_nat n) (out_coord_preds out)).
  { rewrite Hout, Hl2, Hl1, <- Hn1.
    rewrite firstn_app, Nat.sub_diag, firstn_all. cbn [firstn].
    rewrite app_nil_r. reflexivity. }
  assert (Htf : shape (track_feats sn) = [B; F; N; Z.to_nat lt]).
  { destruct (Z.to_nat n) as [| k] eqn:Ek; [lia |].
    destruct (refine_last _ _ _ _ _ _ Hsn) as [sp Hit].
    rewrite (iteration_track_feats_shape _ _ _ _ _ Hit), (pf_call Hpf).
    cbn [call_B call_S call_N]. rewrite (con_latent_dim Hinit). reflexivity. }
  pose proof (predict_visibility_spec ext prm st lv rd lt fn self B N F
                (track_feats sn) Hinit Htf) as Hvis.
  unfold forward. rewrite Hp. cbn [bind]. rewrite Hsn. cbn [bind].
  rewrite (pf_call Hpf). cbn [call_B call_S call_N].
  destruct fn.
  - destruct Hvis as [_ Hv]. rewrite Hv. cbn [bind].
    destruct return_feat; eexists; (split; [reflexivity | exact Hfirst]).
  - destruct Hvis as (v & Hv & _). rewrite Hv. cbn [bind].
    destruct return_feat; eexists; (split; [reflexivity | exact Hfirst]).
Qed.

Lemma forward_fewer_iterations_witness :
  init (stub_ext 1) stub_learned 4%Q 5%Z 4%Z 128%Z 384%Z true 6%Z false
    (Some (mkCfg false)) = Ok demo_module /\
  (1 <= 2 <= 3)%Z /\
  forward (stub_ext 1) demo_module demo_query_points (Some demo_fmaps) 3 false 1
  = Ok (demo_output 3 1) /\
  exists out',
    forward (stub_ext 1) demo_module demo_query_points (Some demo_fmaps) 2
      false 1 = Ok out' /\
    out_coord_preds out' = firstn 2 (out_coord_preds (demo_output 3 1)).
Proof.
  assert (Hi : init (stub_ext 1) stub_learned 4%Q 5%Z 4%Z 128%Z 384%Z true 6%Z
                 false (Some (mkCfg false)) = Ok demo_module)
    by (apply init_stub; lia).
  assert (Hnm : (1 <= 2 <= 3)%Z) by lia.
  assert (H : forward (stub_ext 1) demo_module demo_query_points
                (Some demo_fmaps) 3 false 1 = Ok (demo_output 3 1))
    by reflexivity.
  split; [exact Hi |]. split; [exact Hnm |]. split; [exact H |].
  exact (forward_fewer_iterations _ _ _ _ _ _ _ _ _ _ _ _ _ _ _ _ _ _ _
           Hi Hnm H).
Defined.


(** ** The input of the update function, column by column *)

Lemma cat2_Ok (dim : Z) (a b t : tensor) :
  cat2 dim a b = Ok t ->
  exists d, norm_dim (rank a) dim = Some d /\ t = cat2_raw d a b.
Proof.
  unfold cat2. destruct (norm_dim (rank a) dim) as [d |]; [| discriminate].
  destruct (shape_eqb (set_nth d 0 (shape a)) (set_nth d 0 (shape b)));
    intros H; inversion H. exists d. split; reflexivity.
Qed.

Lemma shape_at_Ok (t : tensor) (k n : nat) :
  shape_at t k = Ok n -> n = nth k (shape t) 0.
Proof.
  unfold shape_at. destruct (k <? rank t); intros H; inversion H. reflexivity.
Qed.

(** X10.  The flows of lines 133 to 136.  In an assembly that returns, the
    tensor handed to [get_2d_embedding] holds, for track [n] of batch [b]
    at frame [s], the displacement of the track from its position at
    frame 0, so it is zero at frame 0; and the flow embedding of the later
    lines is the result of the collaborator followed by these flows. *)
Theorem flows_are_displacements (ext : externals)
    (self : BaseTrackerPredictor) (B N F : nat)
    (coords track_feats fcorrs : tensor) (a : assembled) :
  assemble_input ext self B N F coords track_feats fcorrs = Ok a ->
  shape coords = [B; F; N; 2] ->
  exists flows emb,
    shape flows = [B * N; F; 2] /\
    get_2d_embedding ext flows (flows_emb_dim self) false = Ok emb /\
    cat [emb; flows] (-1) = Ok (asm_flows_emb a) /\
    forall b n s c, b < B -> n < N -> s < F -> c < 2 ->
      entry flows [b * N + n; s; c]
      = (entry coords [b; s; n; c] - entry coords [b; 0; n; c]%nat)%R /\
      entry flows [b * N + n; 0; c] = 0%R.
Proof.
  unfold assemble_input. intros H Hc.
  invert_bind H as corrdim Hcd. invert_bind H as p1 Hp1.
  invert_bind H as fcorrs_ Hfc. invert_bind H as c0 Hc0.
  invert_bind H as d Hd. invert_bind H as p2 Hp2.
  invert_bind H as flows Hfl. invert_bind H as emb Hemb.
  invert_bind H as emb' Hemb'. invert_bind H as p3 Hp3.
  invert_bind H as tf_ Htf. invert_bind H as unp Hunp.
  invert_bind H as ti Hti.
  inversion H; subst a; clear H. cbn [asm_flows_emb].
  apply slice_Ok in Hc0. subst c0.
  apply binop_Ok in Hd. destruct Hd as (s' & Hs' & ->).
  apply permute_Ok in Hp2. subst p2.
  apply reshape_Ok in Hfl. destruct Hfl as [_ ->].
  assert (Hsc0 : shape (slice_raw coords 1 0 (Some 1))
                 = [B; Nat.min 1 F; N; 2]).
  { cbn [slice_raw shape]. rewrite Hc. cbn [nth set_nth].
    rewrite Nat.min_0_l, Nat.sub_0_r. reflexivity. }
  assert (Hs : s' = [B; F; N; 2]).
  { rewrite Hsc0, Hc in Hs'.
    unfold broadcast_shapes in Hs'. cbn [rev app broadcast_rev] in Hs'.
    rewrite !bdim_same in Hs'.
    destruct F as [| f].
    - cbn in Hs'. inversion Hs'. reflexivity.
    - rewrite Nat.min_l in Hs' by lia. rewrite bdim_one_r in Hs'.
      cbn in Hs'. inversion Hs'. reflexivity. }
  subst s'.
  exists (reshape_raw
            (permute_raw
               (binop_raw Rminus [B; F; N; 2] coords
                  (slice_raw coords 1 0 (Some 1))) [0; 2; 1; 3])
            [B * N; F; 2]), emb.
  split; [reflexivity |]. split; [exact Hemb |]. split; [exact Hemb' |].
  assert (He : forall b n s c, b < B -> n < N -> s < F -> c < 2 ->
             entry (reshape_raw
                      (permute_raw
                         (binop_raw Rminus [B; F; N; 2] coords
                            (slice_raw coords 1 0 (Some 1))) [0; 2; 1; 3])
                      [B * N; F; 2]) [b * N + n; s; c]
             = (entry coords [b; s; n; c] - entry coords [b; 0; n; c]%nat)%R).
  { intros b n s c Hb Hn Hsf Hk.
    pose proof (add_mul_lt B N b n Hb Hn) as Hbn.
    rewrite (reshape_entry _ [B * N; F; 2] [b * N + n; s; c] [b; n; s; c]).
    2:{ cbn [permute_raw binop_raw shape map nth in_range]. lia. }
    2:{ cbn. lia. }
    cbn [permute_raw entry map seq length index_of Nat.eqb nth binop_raw].
    rewrite Hc, Hsc0. rewrite Nat.min_l by lia.
    rewrite bcast_index_in_range by (cbn; lia). f_equal.
    unfold bcast_index.
    cbn [length Nat.sub skipn stretch_index zip_with Nat.eqb].
    rewrite (stretch_one B), (stretch_one N) by lia.
    cbn [slice_raw entry nth set_nth]. rewrite Hc. cbn [nth].
    rewrite Nat.min_0_l.
    destruct c as [| [| c]]; [reflexivity | reflexivity | lia]. }
  intros b n s c Hb Hn Hsf Hk. split; [exact (He b n s c Hb Hn Hsf Hk) |].
  rewrite (He b n 0 c Hb Hn ltac:(lia) Hk). lra.
Qed.

(** X11.  The columns of the input assembled at line 143, before the
    padding.  For a flow embedding of [E] columns, a correlation of [K]
    channels and track features of [latent_dim] channels, row [b * N + n]
    of frame [s] holds the flow embedding, then the correlation of track
    [n] of batch [b] at frame [s], then the features of that track at that
    frame: [E + K + latent_dim] columns in this order. *)
Theorem transformer_input_layout (ext : externals)
    (self : BaseTrackerPredictor) (B N F E K : nat)
    (coords track_feats fcorrs : tensor) (a : assembled) :
  assemble_input ext self B N F coords track_feats fcorrs = Ok a ->
  shape fcorrs = [B; F; N; K] ->
  shape track_feats = [B; F; N; Z.to_nat (latent_dim self)] ->
  shape (asm_flows_emb a) = [B * N; F; E] ->
  shape (asm_unpadded a) = [B * N; F; E + K + Z.to_nat (latent_dim self)] /\
  forall b n s k,
    b < B -> n < N -> s < F -> k < E + K + Z.to_nat (latent_dim self) ->
    entry (asm_unpadded a) [b * N + n; s; k]
    = if k <? E then entry (asm_flows_emb a) [b * N + n; s; k]
      else if k <? E + K then entry fcorrs [b; s; n; k - E]
      else entry track_feats [b; s; n; k - E - K].
Proof.
  unfold assemble_input. intros H Hfc Htf Hfe.
  invert_bind H as corrdim Hcd. invert_bind H as p1 Hp1.
  invert_bind H as fcorrs_ Hfcs. invert_bind H as c0 Hc0.
  invert_bind H as d Hd. invert_bind H as p2 Hp2.
  invert_bind H as flows Hfl. invert_bind H as emb Hemb.
  invert_bind H as emb' Hemb'. invert_bind H as p3 Hp3.
  invert_bind H as tf_ Htf_. invert_bind H as unp Hunp.
  invert_bind H as ti Hti.
  inversion H; subst a; clear H.
  cbn [asm_flows_emb asm_unpadded] in *.
  set (L := Z.to_nat (latent_dim self)) in *.
  apply shape_at_Ok in Hcd. rewrite Hfc in Hcd. cbn [nth] in Hcd. subst corrdim.
  apply permute_Ok in Hp1. subst p1.
  apply reshape_Ok in Hfcs. destruct Hfcs as [_ ->].
  apply permute_Ok in Hp3. subst p3.
  apply reshape_Ok in Htf_. destruct Htf_ as [_ ->].
  cbn [cat cat_from] in Hunp. invert_bind Hunp as u1 Hu1.
  invert_bind Hunp as u2 Hu2. inversion Hunp; subst unp; clear Hunp.
  apply cat2_Ok in Hu1. destruct Hu1 as (d1 & Hd1 & ->).
  unfold rank in Hd1. rewrite Hfe in Hd1. vm_compute in Hd1.
  inversion Hd1; subst d1; clear Hd1.
  apply cat2_Ok in Hu2. destruct Hu2 as (d2 & Hd2 & ->).
  unfold rank in Hd2. cbn [cat2_raw shape] in Hd2. rewrite Hfe in Hd2.
  cbn [nth set_nth length] in Hd2. vm_compute in Hd2.
  inversion Hd2; subst d2; clear Hd2.
  split.
  - cbn [cat2_raw reshape_raw shape]. rewrite Hfe. cbn [nth set_nth].
    reflexivity.
  - intros b n s k Hb Hn Hs Hk.
    pose proof (add_mul_lt B N b n Hb Hn) as Hbn.
    cbn [cat2_raw reshape_raw shape entry]. rewrite Hfe. cbn [nth set_nth].
    destruct (k <? E + K) eqn:E1.
    + apply Nat.ltb_lt in E1.
      destruct (k <? E) eqn:E2; [reflexivity |].
      apply Nat.ltb_ge in E2.
      change (entry (permute_raw fcorrs [0; 2; 1; 3])
                (unravel (shape (permute_raw fcorrs [0; 2; 1; 3]))
                   (ravel [B * N; F; K] [b * N + n; s; k - E])))
        with (entry (reshape_raw (permute_raw fcorrs [0; 2; 1; 3])
                       [B * N; F; K]) [b * N + n; s; k - E]).
      rewrite (reshape_entry _ [B * N; F; K] [b * N + n; s; k - E]
                 [b; n; s; k - E]).
      2:{ cbn [permute_raw shape map nth]. rewrite Hfc. cbn. lia. }
      2:{ cbn [permute_raw shape map nth]. rewrite Hfc. cbn. lia. }
      reflexivity.
    + apply Nat.ltb_ge in E1.
      destruct (k <? E) eqn:E2; [apply Nat.ltb_lt in E2; lia |].
      change (entry (permute_raw track_feats [0; 2; 1; 3])
                (unravel (shape (permute_raw track_feats [0; 2; 1; 3]))
                   (ravel [B * N; F; L] [b * N + n; s; k - (E + K)])))
        with (entry (reshape_raw (permute_raw track_feats [0; 2; 1; 3])
                       [B * N; F; L]) [b * N + n; s; k - (E + K)]).
      rewrite (reshape_entry _ [B * N; F; L] [b * N + n; s; k - (E + K)]
                 [b; n; s; k - (E + K)]).
      2:{ cbn [permute_raw shape map nth]. rewrite Htf. cbn. lia. }
      2:{ cbn [permute_raw shape map nth]. rewrite Htf. cbn. lia. }
      cbn [permute_raw entry map seq length index_of Nat.eqb nth].
      replace (k - (E + K)) with (k - E - K) by lia. reflexivity.
Qed.

Lemma flows_are_displacements_witness :
  exists a,
    assemble_input (stub_ext 1) demo_module 1 1 2 (coords demo_state1)
      (track_feats demo_state1) (constant [1; 2; 1; 405] 0) = Ok a /\
    shape (coords demo_state1) = [1; 2; 1; 2] /\
    exists flows emb,
      shape flows = [1 * 1; 2; 2] /\
      get_2d_embedding (stub_ext 1) flows (flows_emb_dim demo_module) false
      = Ok emb /\
      cat [emb; flows] (-1) = Ok (asm_flows_emb a) /\
      entry flows [0 * 1 + 0; 1; 0]
      = (entry (coords demo_state1) [0; 1; 0; 0]%nat
         - entry (coords demo_state1) [0; 0; 0; 0]%nat)%R /\
      entry flows [0 * 1 + 0; 0; 0] = 0%R.
Proof.
  eexists.
  assert (H : assemble_input (stub_ext 1) demo_module 1 1 2
                (coords demo_state1) (track_feats demo_state1)
                (constant [1; 2; 1; 405] 0) = Ok _) by reflexivity.
  split; [exact H |]. split; [reflexivity |].
  destruct (flows_are_displacements _ _ _ _ _ _ _ _ _ H eq_refl)
    as (flows & emb & Hs & Hemb & Hcat & He).
  exists flows, emb. split; [exact Hs |]. split; [exact Hemb |].
  split; [exact Hcat |].
  exact (He 0 0 1 0 ltac:(lia) ltac:(lia) ltac:(lia) ltac:(lia)).
Defined.

Lemma transformer_input_layout_witness :
  exists a,
    assemble_input (stub_ext 1) demo_module 1 1 2 (coords demo_state1)
      (track_feats demo_state1) (constant [1; 2; 1; 405] 3) = Ok a /\
    shape (constant [1; 2; 1; 405] 3) = [1; 2; 1; 405] /\
    shape (track_feats demo_state1)
    = [1; 2; 1; Z.to_nat (latent_dim demo_module)] /\
    shape (asm_flows_emb a) = [1 * 1; 2; 130] /\
    shape (asm_unpadded a)
    = [1 * 1; 2; 130 + 405 + Z.to_nat (latent_dim demo_module)] /\
    entry (asm_unpadded a) [0 * 1 + 0; 1; 200]
    = entry (constant [1; 2; 1; 405] 3) [0; 1; 0; 200 - 130] /\
    entry (asm_unpadded a) [0 * 1 + 0; 1; 600]
    = entry (track_feats demo_state1) [0; 1; 0; 600 - 130 - 405].
Proof.
  eexists.
  assert (H : assemble_input (stub_ext 1) demo_module 1 1 2
                (coords demo_state1) (track_feats demo_state1)
                (constant [1; 2; 1; 405] 3) = Ok _) by reflexivity.
  split; [exact H |]. split; [reflexivity |]. split; [reflexivity |].
  split; [reflexivity |].
  destruct (transformer_input_layout _ _ 1 1 2 130 405 _ _ _ _ H eq_refl
              eq_refl eq_refl) as [Hs He].
  split; [exact Hs |]. split.
  - exact (He 0 0 1 200 ltac:(lia) ltac:(lia) ltac:(lia)
             ltac:(vm_compute; lia)).
  - exact (He 0 0 1 600 ltac:(lia) ltac:(lia) ltac:(lia)
             ltac:(vm_compute; lia)).
Defined.

(** ** Calls without iterations, and the state before the first *)

(** X12.  Feature maps whose number of channels is not [latent_dim], in a
    call without iterations.  The loop, which would refuse them, does not
    run: the coarse module raises the [RuntimeError] of the reshape in the
    visibility head, and the fine module, which has no such head, returns
    the empty list of predictions and the sampled features as they are. *)
Theorem forward_no_iterations_channel_mismatch (ext : externals)
    (prm : learned) (st : Q) (lv rd lt hs : Z) (sa : bool) (dp : Z)
    (fn : bool) (cf : option Cfg) (self : BaseTrackerPredictor)
    (query_points fmaps : tensor) (iters : Z) (return_feat : bool)
    (down_ratio : Q) (B N F C HH WW : nat) (query_track_feat : tensor) :
  init ext prm st lv rd lt hs sa dp fn cf = Ok self ->
  shape query_points = [B; N; 2] ->
  shape fmaps = [B; F; C; HH; WW] ->
  0 < B -> 0 < F -> 0 < N ->
  C <> Z.to_nat lt ->
  (iters <= 0)%Z ->
  sample_features4d ext (select_raw fmaps 1 0)
    (select_raw
       (initial_coords (scale_query_points self query_points down_ratio) B N F)
       1 0)
  = Ok query_track_feat ->
  shape query_track_feat = [B; N; C] ->
  succeeds (make_fcorr ext self fmaps) ->
  forward ext self query_points (Some fmaps) iters return_feat down_ratio
  = if fn then
      Ok (if return_feat
          then TracksAndFeats [] None
                 (initial_track_feats query_track_feat F) query_track_feat
          else Tracks [] None)
    else Err RuntimeError.
Proof.
  intros Hinit Hq Hf HB HF HN HC Hit Hsample Hqtf [fc Hfc].
  apply init_Ok in Hinit.
  unfold forward, prepare, unpack3, unpack5.
  rewrite Hq. cbn [bind]. rewrite Hf. cbn [bind assert Nat.eqb].
  assert (Hsq : shape (scale_query_points self query_points down_ratio)
                = [B; N; 2]).
  { unfold scale_query_points. destruct (gt_one down_ratio); exact Hq. }
  rewrite reshape_ok by (unfold clone; rewrite Hsq; cbn; lia).
  cbn [bind]. rewrite repeat_ok by (cbn; lia). cbn [bind].
  rewrite select_ok by (unfold rank; rewrite Hf; cbn; lia). cbn [bind].
  fold (initial_coords (scale_query_points self query_points down_ratio)
          B N F).
  rewrite select_ok
    by (unfold rank; rewrite initial_coords_shape; cbn; lia).
  cbn [bind]. rewrite Hsample. cbn [bind].
  rewrite unsqueeze_ok by (unfold rank; rewrite Hqtf; cbn; lia).
  cbn [bind].
  rewrite repeat_ok
    by (unfold rank; cbn [unsqueeze_raw shape]; rewrite Hqtf; cbn; lia).
  cbn [bind]. rewrite Hfc.
  replace (Z.to_nat iters) with 0 by lia.
  cbn [bind refine prep_call prep_state call_B call_N call_S
       track_feats coord_preds prep_query_track_feat].
  fold (initial_track_feats query_track_feat F).
  unfold predict_visibility.
  rewrite (con_fine Hinit), (con_vis_predictor Hinit), (con_latent_dim Hinit).
  destruct fn; cbn [negb bind].
  - destruct return_feat; reflexivity.
  - unfold reshape.
    rewrite (initial_track_feats_shape query_track_feat B N C F Hqtf).
    destruct (numel [B; F; N; C] =? numel [B * F * N; Z.to_nat lt]) eqn:E;
      [| reflexivity].
    apply Nat.eqb_eq in E. cbn in E. exfalso. apply HC.
    assert (Hpos : 0 < B * F * N) by (apply Nat.mul_pos_pos; nia).
    nia.
Qed.

Lemma forward_no_iterations_channel_mismatch_witness :
  init (stub_ext 1) stub_learned 4%Q 5%Z 4%Z 128%Z 384%Z true 6%Z false
    (Some (mkCfg false)) = Ok demo_module /\
  shape demo_query_points = [1; 1; 2] /\
  shape (constant [1; 2; 64; 8; 8] 0) = [1; 2; 64; 8; 8] /\
  0 < 1 /\ 0 < 2 /\ 0 < 1 /\ 64 <> Z.to_nat 128 /\ (0 <= 0)%Z /\
  sample_features4d (stub_ext 1) (select_raw (constant [1; 2; 64; 8; 8] 0) 1 0)
    (select_raw
       (initial_coords (scale_query_points demo_module demo_query_points 1)
          1 1 2) 1 0)
  = Ok (constant [1; 1; 64] 0) /\
  shape (constant [1; 1; 64] 0) = [1; 1; 64] /\
  succeeds (make_fcorr (stub_ext 1) demo_module (constant [1; 2; 64; 8; 8] 0))
  /\
  forward (stub_ext 1) demo_module demo_query_points
    (Some (constant [1; 2; 64; 8; 8] 0)) 0 false 1 = Err RuntimeError.
Proof.
  assert (Hi : init (stub_ext 1) stub_learned 4%Q 5%Z 4%Z 128%Z 384%Z true
                 6%Z false (Some (mkCfg false)) = Ok demo_module)
    by (apply init_stub; lia).
  assert (HB : 0 < 1) by lia.
  assert (HF : 0 < 2) by lia.
  assert (HC : 64 <> Z.to_nat 128) by (vm_compute; lia).
  assert (Hit : (0 <= 0)%Z) by lia.
  assert (Hs : sample_features4d (stub_ext 1)
                 (select_raw (constant [1; 2; 64; 8; 8] 0) 1 0)
                 (select_raw
                    (initial_coords
                       (scale_query_points demo_module demo_query_points 1)
                       1 1 2) 1 0)
               = Ok (constant [1; 1; 64] 0)) by reflexivity.
  assert (Hc : succeeds (make_fcorr (stub_ext 1) demo_module
                           (constant [1; 2; 64; 8; 8] 0)))
    by (eexists; reflexivity).
  split; [exact Hi |]. split; [reflexivity |]. split; [reflexivity |].
  split; [exact HB |]. split; [exact HF |]. split; [exact HB |].
  split; [exact HC |]. split; [exact Hit |]. split; [exact Hs |].
  split; [reflexivity |]. split; [exact Hc |].
  exact (forward_no_iterations_channel_mismatch (stub_ext 1) stub_learned
           4%Q 5%Z 4%Z 128%Z 384%Z true 6%Z false (Some (mkCfg false))
           demo_module demo_query_points (constant [1; 2; 64; 8; 8] 0) 0
           false 1 1 1 2 64 8 8 (constant [1; 1; 64] 0)
           Hi eq_refl eq_refl HB HF HB HC Hit Hs eq_refl Hc).
Defined.

(** X13.  The state before the first iteration.  When the entry lines
    return, every frame starts with the track at its query point, in the
    scale of the feature maps, and the backup of the anchor is this
    tensor; when the collaborator has sampled features of the shape
    [(B, N, C)] at the query frame, every frame starts with these features
    too. *)
Theorem initial_state_replicates_query (ext : externals)
    (self : BaseTrackerPredictor) (query_points fmaps : tensor)
    (down_ratio : Q) (p : prepared ext) :
  prepare ext self query_points (Some fmaps) down_ratio = Ok p ->
  let B := nth 0 (shape fmaps) 0 in
  let F := nth 1 (shape fmaps) 0 in
  let N := nth 1 (shape query_points) 0 in
  call_coords_backup (prep_call p) = coords (prep_state p) /\
  shape (coords (prep_state p)) = [B; F; N; 2] /\
  (forall b s n c, b < B -> s < F -> n < N -> c < 2 ->
     entry (coords (prep_state p)) [b; s; n; c]
     = entry (scale_query_points self query_points down_ratio) [b; n; c]) /\
  (forall C,
     shape (prep_query_track_feat p) = [B; N; C] ->
     shape (track_feats (prep_state p)) = [B; F; N; C] /\
     forall b s n c, b < B -> s < F -> n < N -> c < C ->
       entry (track_feats (prep_state p)) [b; s; n; c]
       = entry (prep_query_track_feat p) [b; n; c]).
Proof.
  intros Hp.
  destruct (prepare_Ok _ _ _ _ _ _ Hp) as (B0 & N & B & F & C0 & HH & WW & Hpf).
  rewrite (pf_fmaps_shape Hpf), (pf_query_shape Hpf). cbn [nth].
  rewrite (pf_call Hpf), (pf_coords Hpf), (pf_track_feats Hpf).
  cbn [call_coords_backup].
  split; [reflexivity |]. split; [apply initial_coords_shape |]. split.
  - intros b s n c Hb Hs Hn Hc. rewrite (pf_query_points Hpf).
    apply (initial_coords_entry _ B0); try assumption.
    unfold scale_query_points. destruct (gt_one down_ratio);
      [cbn [div_scalar map_entries shape] |]; exact (pf_query_shape Hpf).
  - intros C HC. split.
    + apply initial_track_feats_shape. exact HC.
    + intros b s n c Hb Hs Hn Hc.
      apply initial_track_feats_entry with (B := B) (N := N) (L := C);
        assumption.
Qed.

Lemma initial_state_replicates_query_witness :
  exists p,
    prepare (stub_ext 1) demo_module demo_query_points (Some demo_fmaps) 2
    = Ok p /\
    shape (coords (prep_state p)) = [1; 2; 1; 2] /\
    entry (coords (prep_state p)) [0; 1; 0; 1]
    = entry (scale_query_points demo_module demo_query_points 2) [0; 0; 1] /\
    shape (track_feats (prep_state p)) = [1; 2; 1; 128].
Proof.
  eexists.
  assert (Hp : prepare (stub_ext 1) demo_module demo_query_points
                 (Some demo_fmaps) 2 = Ok _) by reflexivity.
  split; [exact Hp |].
  destruct (initial_state_replicates_query _ _ _ _ _ _ Hp)
    as (_ & Hs & Hc & Hf).
  split; [exact Hs |]. split.
  - exact (Hc 0 1 0 1 ltac:(cbn; lia) ltac:(cbn; lia) ltac:(cbn; lia)
             ltac:(lia)).
  - exact (proj1 (Hf 128 eq_refl)).
Defined.

(** ** Widths that do not fit *)

(** An input that is wider than the positional embedding is never cut to
    fit: for a positional embedding of [D] channels and an assembled input
    of [w] columns, with [w], [D] and 1 all different, lines 151 to 157
    raise the [RuntimeError] of the addition. *)
Lemma updateformer_input_width_mismatch (ext : externals)
    (self : BaseTrackerPredictor) (B N F HH WW D w : nat)
    (coords transformer_input pos_embed sampled_pos_emb : tensor) :
  0 < F ->
  shape coords = [B; F; N; 2] ->
  shape transformer_input = [B * N; F; w] ->
  get_2d_sincos_pos_embed ext (transformer_dim self) (HH, WW) = Ok pos_embed ->
  shape pos_embed = [1; D; HH; WW] ->
  sample_features4d ext (expand_raw pos_embed [B; D; HH; WW])
    (select_raw coords 1 0) = Ok sampled_pos_emb ->
  shape sampled_pos_emb = [B; N; D] ->
  w <> D -> w <> 1 -> D <> 1 ->
  updateformer_input ext self B HH WW coords transformer_input
  = Err RuntimeError.
Proof.
  intros HF Hc Hti Hpos Hps Hsample Hpe HwD Hw1 HD1.
  unfold updateformer_input, sample_pos_emb.
  rewrite Hpos. cbn [bind].
  unfold expand. rewrite Hps. cbn [expand_shape expand_dim].
  rewrite Nat.eqb_refl, orb_true_r. cbn [bind].
  rewrite select_ok by (unfold rank; rewrite Hc; cbn; lia). cbn [bind].
  rewrite Hsample. cbn [bind].
  unfold rearrange_bn_c. rewrite Hpe.
  rewrite reshape_ok by (rewrite Hpe; cbn; lia). cbn [bind].
  rewrite unsqueeze_ok by (cbn; lia). cbn [bind].
  unfold add, binop. rewrite Hti.
  cbn [unsqueeze_raw reshape_raw shape insert_at firstn skipn app].
  unfold broadcast_shapes. cbn [rev app broadcast_rev]. unfold bdim at 1.
  apply Nat.eqb_neq in HwD, Hw1, HD1. rewrite HwD, Hw1, HD1. reflexivity.
Qed.

(** The width that lines 145 to 149 return, for every width of the input:
    the block of zeros has the width of the deficit or, if that is
    smaller, of the flow embedding. *)
Lemma pad_transformer_input_shape (self : BaseTrackerPredictor)
    (flows_emb unpadded : tensor) (M F w e : nat) :
  shape unpadded = [M; F; w] ->
  shape flows_emb = [M; F; e] ->
  exists t,
    pad_transformer_input self flows_emb unpadded = Ok t /\
    shape t
    = [M; F;
       if (Z.of_nat w <? transformer_dim self)%Z
       then w + Nat.min (Z.to_nat (transformer_dim self - Z.of_nat w)) e
       else w].
Proof.
  intros Hu Hf. unfold pad_transformer_input, shape_at, rank.
  rewrite Hu. cbn [length Nat.ltb Nat.leb bind nth].
  destruct (Z.of_nat w <? transformer_dim self)%Z eqn:E.
  2:{ exists unpadded. split; [reflexivity | exact Hu]. }
  rewrite slice_ok by (unfold rank; rewrite Hf; cbn; lia).
  cbn [bind cat cat_from]. change 2%Z with (Z.of_nat 2).
  rewrite cat2_ok.
  - cbn [bind]. eexists. split; [reflexivity |].
    unfold rank.
    cbn [cat2_raw zeros_like slice_raw shape entry]. rewrite Hu, Hf.
    cbn [nth set_nth length Nat.sub].
    rewrite Nat.min_0_l, Nat.sub_0_r. reflexivity.
  - unfold rank. rewrite Hu. cbn. lia.
  - unfold rank. cbn [zeros_like slice_raw shape]. rewrite Hu, Hf.
    reflexivity.
Qed.

(** Lines 128 to 149 return on tensors of the regular shapes, whatever the
    widths. *)
Lemma assemble_input_width (ext : externals) (self : BaseTrackerPredictor)
    (B N F C HH WW E K : nat) (good : fcorr ext -> Prop)
    (coords track_feats fcorrs : tensor) :
  regular self B N F C HH WW E K good ->
  0 < F ->
  C = Z.to_nat (latent_dim self) ->
  shape coords = [B; F; N; 2] ->
  shape track_feats = [B; F; N; C] ->
  shape fcorrs = [B; F; N; K] ->
  exists a,
    assemble_input ext self B N F coords track_feats fcorrs = Ok a /\
    shape (asm_transformer_input a)
    = [B * N; F;
       if (Z.of_nat (E + 2 + K + C) <? transformer_dim self)%Z
       then E + 2 + K + C
            + Nat.min (Z.to_nat (transformer_dim self
                                 - Z.of_nat (E + 2 + K + C))) (E + 2)
       else E + 2 + K + C].
Proof.
  intros Hreg HF HC Hc Htf Hfc.
  unfold assemble_input, shape_at, rank. rewrite Hfc.
  cbn [length Nat.ltb Nat.leb bind nth].
  rewrite permute_ok by (unfold rank; rewrite ?Hfc; reflexivity). cbn [bind].
  rewrite reshape_ok
    by (cbn [permute_raw shape map]; rewrite Hfc; cbn; lia). cbn [bind].
  rewrite slice_ok by (unfold rank; rewrite Hc; cbn; lia). cbn [bind].
  unfold sub.
  rewrite (binop_ok Rminus _ _ [B; F; N; 2]).
  2:{ rewrite (slice_first_shape _ B F N HF Hc), Hc.
      unfold broadcast_shapes. cbn [rev app broadcast_rev].
      rewrite !bdim_same, bdim_one_r. reflexivity. }
  cbn [bind].
  rewrite permute_ok by reflexivity. cbn [bind].
  rewrite reshape_ok by (cbn; lia). cbn [bind].
  destruct (reg_get_2d_embedding Hreg (reshape_raw (permute_raw
              (binop_raw Rminus [B; F; N; 2] coords
                 (slice_raw coords 1 0 (Some 1))) [0; 2; 1; 3])
              [B * N; F; 2]) eq_refl) as (emb & Hemb & Hse).
  rewrite Hemb. cbn [bind cat cat_from].
  rewrite cat2_last_ok.
  2:{ unfold rank. rewrite Hse. cbn. lia. }
  2:{ unfold rank. rewrite Hse. reflexivity. }
  cbn [bind].
  rewrite permute_ok by (unfold rank; rewrite ?Htf; reflexivity). cbn [bind].
  rewrite <- HC.
  rewrite reshape_ok
    by (cbn [permute_raw shape map]; rewrite Htf; cbn; lia). cbn [bind].
  change 2%Z with (Z.of_nat 2).
  unfold rank. rewrite Hse. cbn [length Nat.sub].
  rewrite cat2_ok.
  2:{ unfold rank. cbn [cat2_raw shape]. rewrite Hse. cbn. lia. }
  2:{ cbn [cat2_raw reshape_raw shape]. rewrite Hse. reflexivity. }
  cbn [bind].
  rewrite cat2_ok.
  2:{ unfold rank. cbn [cat2_raw shape]. rewrite Hse. cbn. lia. }
  2:{ cbn [cat2_raw reshape_raw shape]. rewrite Hse. reflexivity. }
  cbn [bind].
  match goal with
  | |- context [pad_transformer_input self ?fe ?un] =>
      pose proof (pad_transformer_input_shape self fe un (B * N) F
                    (E + 2 + K + C) (E + 2)) as Hpad
  end.
  cbn [cat2_raw reshape_raw shape] in Hpad. rewrite Hse in Hpad.
  cbn [nth set_nth] in Hpad.
  destruct (Hpad eq_refl eq_refl) as (t & Ht & Hst).
  rewrite Ht. cbn [bind]. eexists. split; [reflexivity | exact Hst].
Qed.

Lemma transformer_dim_not_one (ext : externals) (prm : learned) (st : Q)
    (lv rd lt : Z) (fn : bool) (self : BaseTrackerPredictor) :
  constructed ext prm st lv rd lt fn self ->
  Z.to_nat (transformer_dim self) <> 1.
Proof.
  intros H. rewrite (con_transformer_dim H).
  unfold pad_transformer_dim. generalize (unpadded_dim lv rd lt). clear.
  intros base.
  assert (Hodd : forall x, (x mod 2 = 0)%Z -> Z.to_nat x <> 1).
  { intros x Hx E. assert (x = 1)%Z by lia. subst x. discriminate Hx. }
  apply Hodd. destruct fn.
  - pose proof (Z.mod_pos_bound base 2 eq_refl) as Hb.
    destruct (base mod 2 =? 0)%Z eqn:E.
    + apply Z.eqb_eq in E. rewrite Z.add_mod, E by lia. reflexivity.
    + apply Z.eqb_neq in E.
      assert (E1 : (base mod 2 = 1)%Z) by lia.
      rewrite Z.add_mod, E1 by lia. reflexivity.
  - pose proof (Z.mod_pos_bound base 4 eq_refl) as Hb.
    assert (Hc : (base mod 4 = 0 \/ base mod 4 = 1 \/ base mod 4 = 2
                  \/ base mod 4 = 3)%Z) by lia.
    assert (H4 : ((base + (4 - base mod 4) mod 4) mod 4 = 0)%Z).
    { rewrite Z.add_mod by lia.
      destruct Hc as [E | [E | [E | E]]]; rewrite E; reflexivity. }
    set (x := (base + (4 - base mod 4) mod 4)%Z) in *.
    pose proof (Z.div_mod x 4 ltac:(lia)) as Hx.
    pose proof (Z.div_mod x 2 ltac:(lia)) as Hx2.
    pose proof (Z.mod_pos_bound x 2 eq_refl) as Hb2.
    lia.
Qed.

(** X14.  The width that the constructor computes does not have to be the
    width that the loop assembles.  Let the flow embedding of the
    collaborator have [E] columns and the correlation [K] channels, so
    that line 143 assembles [w = E + 2 + K + latent_dim] columns.  If [w]
    is more than [transformer_dim], or so much less that the block of
    zeros cut from the flow embedding cannot fill the deficit, a call with
    at least one iteration raises the [RuntimeError] of the addition of
    the positional embedding at line 157. *)
Theorem forward_raises_when_widths_do_not_fit (ext : externals)
    (prm : learned) (st : Q) (lv rd lt hs : Z) (sa : bool) (dp : Z)
    (fn : bool) (cf : option Cfg) (self : BaseTrackerPredictor)
    (B N F C HH WW E K : nat) (good : fcorr ext -> Prop)
    (query_points fmaps : tensor) (iters : Z) (return_feat : bool)
    (down_ratio : Q) :
  init ext prm st lv rd lt hs sa dp fn cf = Ok self ->
  regular self B N F C HH WW E K good ->
  0 < F ->
  C = Z.to_nat lt ->
  shape query_points = [B; N; 2] ->
  shape fmaps = [B; F; C; HH; WW] ->
  (1 <= iters)%Z ->
  (transformer_dim self < Z.of_nat (E + 2 + K + C)
   \/ Z.of_nat (E + 2 + K + C) + Z.of_nat (E + 2) < transformer_dim self)%Z ->
  forward ext self query_points (Some fmaps) iters return_feat down_ratio
  = Err RuntimeError.
Proof.
  intros Hinit Hreg HF HC Hq Hf Hit Hw. apply init_Ok in Hinit.
  pose proof (transformer_dim_not_one _ _ _ _ _ _ _ _ Hinit) as HT1.
  pose proof (con_latent_dim Hinit) as HL.
  unfold forward.
  destruct (prepare_returns ext self B N F C HH WW E K good query_points
              fmaps down_ratio Hreg HF Hq Hf)
    as (p & Hp & HHH & HWW & _ & Hst).
  rewrite Hp. cbn [bind]. apply bind_Err.
  destruct (Z.to_nat iters) as [| k] eqn:Ek; [lia |].
  cbn [refine]. apply bind_Err.
  destruct Hst as (HB & HN & HS & Hbk & Hc & Htf & Hgood).
  unfold iteration, detach. rewrite HB, HN, HS, HHH, HWW.
  rewrite HC, <- HL in Htf.
  destruct (reg_sample_fcorr Hreg _ _ _ Hgood Hc Htf)
    as (h' & fcorrs & Hsf & Hgood' & Hsfc).
  rewrite Hsf. cbn [bind].
  rewrite HL, <- HC in Htf.
  destruct (assemble_input_width ext self B N F C HH WW E K good _ _ _
              Hreg HF ltac:(rewrite HL; exact HC) Hc Htf Hsfc)
    as (a & Ha & Hsa).
  rewrite Ha. cbn [bind]. apply bind_Err.
  destruct (reg_get_2d_sincos_pos_embed Hreg) as (pos & Hpos & Hsp).
  destruct (@reg_sample_features4d _ _ _ _ _ _ _ _ _ _ _ Hreg
              (expand_raw pos [B; Z.to_nat (transformer_dim self); HH; WW])
              (select_raw (coords (prep_state p)) 1 0)
              (Z.to_nat (transformer_dim self)) HH WW eq_refl)
    as (pe & Hpe & Hspe).
  { cbn [select_raw shape]. rewrite Hc. reflexivity. }
  apply (updateformer_input_width_mismatch ext self B N F HH WW
           (Z.to_nat (transformer_dim self)) _ (coords (prep_state p))
           (asm_transformer_input a) pos pe HF Hc Hsa Hpos Hsp Hpe Hspe).
  - destruct (Z.ltb_spec (Z.of_nat (E + 2 + K + C)) (transformer_dim self));
      lia.
  - destruct (Z.ltb_spec (Z.of_nat (E + 2 + K + C)) (transformer_dim self));
      lia.
  - exact HT1.
Qed.

Lemma forward_raises_when_widths_do_not_fit_witness :
  init (stub_ext 1) stub_learned 4%Q 4%Z 4%Z 128%Z 384%Z true 6%Z false
    (Some (mkCfg false)) = Ok (stub_module 1 4 4 128 false false) /\
  regular (ext := stub_ext 1) (stub_module 1 4 4 128 false false)
    1 1 2 128 8 8 128 324
    (fun h => h = Dense (stub_ext 1) (window 4 4)
              \/ h = Efficient (stub_ext 1) (window 4 4)) /\
  0 < 2 /\ 128 = Z.to_nat 128 /\
  shape demo_query_points = [1; 1; 2] /\
  shape demo_fmaps = [1; 2; 128; 8; 8] /\
  (1 <= 4)%Z /\
  (transformer_dim (stub_module 1 4 4 128 false false)
   < Z.of_nat (128 + 2 + 324 + 128))%Z /\
  forward (stub_ext 1) (stub_module 1 4 4 128 false false) demo_query_points
    (Some demo_fmaps) 4 false 1 = Err RuntimeError.
Proof.
  assert (Hi : init (stub_ext 1) stub_learned 4%Q 4%Z 4%Z 128%Z 384%Z true 6%Z
                 false (Some (mkCfg false))
               = Ok (stub_module 1 4 4 128 false false))
    by (apply init_stub; lia).
  assert (Hreg : regular (ext := stub_ext 1)
                   (stub_module 1 4 4 128 false false)
                   1 1 2 128 8 8 128 324
                   (fun h => h = Dense (stub_ext 1) (window 4 4)
                             \/ h = Efficient (stub_ext 1) (window 4 4)))
    by exact (stub_regular 1 4 4 128 false false 1 1 2 128 8 8 ltac:(lia)).
  assert (HF : 0 < 2) by lia.
  assert (HC : 128 = Z.to_nat 128) by reflexivity.
  assert (Hit : (1 <= 4)%Z) by lia.
  assert (Hw : (transformer_dim (stub_module 1 4 4 128 false false)
                < Z.of_nat (128 + 2 + 324 + 128))%Z) by reflexivity.
  split; [exact Hi |]. split; [exact Hreg |]. split; [exact HF |].
  split; [exact HC |]. split; [reflexivity |]. split; [reflexivity |].
  split; [exact Hit |]. split; [exact Hw |].
  exact (forward_raises_when_widths_do_not_fit (stub_ext 1) stub_learned 4%Q
           4%Z 4%Z 128%Z 384%Z true 6%Z false (Some (mkCfg false))
           (stub_module 1 4 4 128 false false) 1 1 2 128 8 8 128 324
           (fun h => h = Dense (stub_ext 1) (window 4 4)
                     \/ h = Efficient (stub_ext 1) (window 4 4))
           demo_query_points demo_fmaps 4 false 1 Hi Hreg HF HC eq_refl
           eq_refl Hit (or_introl Hw)).
Defined.
